(** * RecetaGram: the record store, the preference store and the like toggle

    A shallow embedding of [src/app.js]: the two storage facades
    ([window.dataSdk], [window.elementSdk]) and [toggleLike], over an explicit
    model of the page state (localStorage, the heap of JS objects and arrays,
    the closure variables of both modules and the globals of the UI code). *)

From Stdlib Require Import Ascii NArith ZArith.
From stdpp Require Import gmap strings list fin_maps.

Open Scope string_scope.
Open Scope list_scope.

(** ** JavaScript values *)

(** Primitive values held in record and configuration fields. A field that
    is absent reads as [undefined], which is [None] at the lookup. *)
Inductive value :=
  | VNull
  | VBool (b : bool)
  | VNum (n : Z)
  | VStr (s : string).

Global Instance value_eq_dec : EqDecision value.
Proof. solve_decision. Defined.

(** A flat JS object: property name to primitive value. *)
Abbreviation obj := (gmap string value).

(** References to heap-allocated objects and arrays. *)
Abbreviation loc := nat.

(** [ToBoolean]: [undefined], [null], [false], [0] and the empty string are
    falsy. *)
Definition truthy (v : option value) : bool :=
  match v with
  | None | Some VNull => false
  | Some (VBool b) => b
  | Some (VNum n) => negb (n =? 0)%Z
  | Some (VStr s) => negb (String.eqb s "")
  end.

(** [a === b] on primitives. *)
Definition strict_eq (a b : option value) : bool := bool_decide (a = b).

(** ** JSON text *)

#[local] Unset Elimination Schemes.
Inductive json :=
  | JNull
  | JBool (b : bool)
  | JNum (n : Z)
  | JStr (s : string)
  | JArr (items : list json)
  | JObj (members : list (string * json)).
#[local] Set Elimination Schemes.

(** The platform's [JSON] object. *)
Class JSON := {
  JSON_stringify : json → string;
  JSON_parse : string → option json   (* [None]: SyntaxError *)
}.

Definition json_of_value (v : value) : json :=
  match v with
  | VNull => JNull
  | VBool b => JBool b
  | VNum n => JNum n
  | VStr s => JStr s
  end.

Definition value_of_json (j : json) : option value :=
  match j with
  | JNull => Some VNull
  | JBool b => Some (VBool b)
  | JNum n => Some (VNum n)
  | JStr s => Some (VStr s)
  | JArr _ | JObj _ => None
  end.

Definition json_of_obj (o : obj) : json :=
  JObj (prod_map id json_of_value <$> map_to_list o).

(** Later members win over earlier ones with the same name, as in
    [JSON.parse]. *)
Definition obj_of_members (ms : list (string * value)) : obj :=
  list_to_map (reverse ms).

Definition obj_of_json (j : json) : option obj :=
  match j with
  | JObj ms =>
      obj_of_members <$> mapM (λ kv, pair kv.1 <$> value_of_json kv.2) ms
  | _ => None
  end.

Definition json_of_collection (c : list obj) : json := JArr (json_of_obj <$> c).

Definition collection_of_json (j : json) : option (list obj) :=
  match j with
  | JArr items => mapM obj_of_json items
  | _ => None
  end.

(** What the model relies on from the platform: parsing the text of a
    collection or of a flat object gives it back, and the two empty
    literals parse. *)
Class JSONLaws `{JSON} : Prop := {
  JSON_parse_stringify_collection (c : list obj) :
    JSON_parse (JSON_stringify (json_of_collection c)) = Some (json_of_collection c);
  JSON_parse_stringify_obj (o : obj) :
    JSON_parse (JSON_stringify (json_of_obj o)) = Some (json_of_obj o);
  JSON_parse_empty_array : JSON_parse "[]" = Some (JArr []);
  JSON_parse_empty_object : JSON_parse "{}" = Some (JObj [])
}.

(** ** Page state *)

(** Objects handed to [dataSdk.init]. Identity is the constructor and its
    index; only a [DataHandler] or an [Observer] has an [onDataChanged]
    method. *)
Inductive handler :=
  | DataHandler            (* the UI's [dataHandler] *)
  | Observer (n : nat)     (* some other object with [onDataChanged] *)
  | Inert (n : nat).       (* a truthy value without [onDataChanged] *)

Global Instance handler_eq_dec : EqDecision handler.
Proof. solve_decision. Defined.

Definition has_onDataChanged (h : handler) : bool :=
  match h with Inert _ => false | _ => true end.

(** Effects that leave the modules, in program order. *)
Inductive event :=
  | SetItem (key text : string)              (* localStorage.setItem *)
  | DataChanged (h : handler) (snapshot : loc)  (* h.onDataChanged(snapshot) *)
  | ConfigChanged (cb : nat) (cfg : loc)     (* onConfigChangeCb(config) *)
  | ShowToast (msg : string).

Global Instance event_eq_dec : EqDecision event.
Proof. solve_decision. Defined.

Record state := State {
  (* platform *)
  localStorage : gmap string string;
  objects : gmap loc obj;
  arrays : gmap loc (list loc);
  trace : list event;
  (* closure of the data SDK *)
  data : loc;
  subscribers : list handler;
  (* closure of the element SDK, and [window.elementSdk.config] *)
  config : loc;
  onConfigChangeCb : option nat;
  elementSdk_config : loc;
  (* globals of the UI code *)
  allData : loc;
  currentUser : option loc
}.

Definition set_localStorage (f : gmap string string → gmap string string) (s : state) : state :=
  State (f (localStorage s)) (objects s) (arrays s) (trace s) (data s) (subscribers s)
        (config s) (onConfigChangeCb s) (elementSdk_config s) (allData s) (currentUser s).
Definition set_objects (f : gmap loc obj → gmap loc obj) (s : state) : state :=
  State (localStorage s) (f (objects s)) (arrays s) (trace s) (data s) (subscribers s)
        (config s) (onConfigChangeCb s) (elementSdk_config s) (allData s) (currentUser s).
Definition set_arrays (f : gmap loc (list loc) → gmap loc (list loc)) (s : state) : state :=
  State (localStorage s) (objects s) (f (arrays s)) (trace s) (data s) (subscribers s)
        (config s) (onConfigChangeCb s) (elementSdk_config s) (allData s) (currentUser s).
Definition emit (e : event) (s : state) : state :=
  State (localStorage s) (objects s) (arrays s) (trace s ++ [e]) (data s) (subscribers s)
        (config s) (onConfigChangeCb s) (elementSdk_config s) (allData s) (currentUser s).
Definition set_data (a : loc) (s : state) : state :=
  State (localStorage s) (objects s) (arrays s) (trace s) a (subscribers s)
        (config s) (onConfigChangeCb s) (elementSdk_config s) (allData s) (currentUser s).
Definition set_subscribers (hs : list handler) (s : state) : state :=
  State (localStorage s) (objects s) (arrays s) (trace s) (data s) hs
        (config s) (onConfigChangeCb s) (elementSdk_config s) (allData s) (currentUser s).
Definition set_config (c : loc) (s : state) : state :=
  State (localStorage s) (objects s) (arrays s) (trace s) (data s) (subscribers s)
        c (onConfigChangeCb s) (elementSdk_config s) (allData s) (currentUser s).
Definition set_onConfigChangeCb (cb : option nat) (s : state) : state :=
  State (localStorage s) (objects s) (arrays s) (trace s) (data s) (subscribers s)
        (config s) cb (elementSdk_config s) (allData s) (currentUser s).
Definition set_elementSdk_config (c : loc) (s : state) : state :=
  State (localStorage s) (objects s) (arrays s) (trace s) (data s) (subscribers s)
        (config s) (onConfigChangeCb s) c (allData s) (currentUser s).
Definition set_allData (a : loc) (s : state) : state :=
  State (localStorage s) (objects s) (arrays s) (trace s) (data s) (subscribers s)
        (config s) (onConfigChangeCb s) (elementSdk_config s) a (currentUser s).
Definition set_currentUser (u : option loc) (s : state) : state :=
  State (localStorage s) (objects s) (arrays s) (trace s) (data s) (subscribers s)
        (config s) (onConfigChangeCb s) (elementSdk_config s) (allData s) u.

(** Heap access. A reference always points at an allocated object in a
    running page; the defaults only make the accessors total. *)
Definition deref (s : state) (l : loc) : obj := default ∅ (objects s !! l).
Definition elems (s : state) (a : loc) : list loc := default [] (arrays s !! a).

(** An object or array literal: a new heap cell. *)
Definition new_object (o : obj) (s : state) : loc * state :=
  let l := fresh (dom (objects s)) in (l, set_objects <[l := o]> s).
Definition new_array (xs : list loc) (s : state) : loc * state :=
  let a := fresh (dom (arrays s)) in (a, set_arrays <[a := xs]> s).

Fixpoint new_objects (os : list obj) (s : state) : list loc * state :=
  match os with
  | [] => ([], s)
  | o :: os' =>
      let '(l, s1) := new_object o s in
      let '(ls, s2) := new_objects os' s1 in
      (l :: ls, s2)
  end.

(** The records the array [a] refers to, by value. *)
Definition records (s : state) (a : loc) : list obj := deref s <$> elems s a.

(** The in-memory collection: what the variable [data] refers to. *)
Definition collection (s : state) : list obj := records s (data s).

(** ** The data SDK (mock backend over localStorage) *)

Definition STORAGE_KEY : string := "recetagram_data".

(** What an SDK call resolves to: [{ isOk, data, error }]. *)
Record result := Result {
  isOk : bool;
  result_data : option loc;
  error : option string
}.

(** [x.id === y.id] *)
Definition same_id (x y : obj) : Prop := x !! "id" = y !! "id".

Global Instance same_id_dec x y : Decision (same_id x y).
Proof. unfold same_id. apply _. Defined.

(** [localStorage.getItem] ([None] is [null]) and [localStorage.setItem]. *)
Definition getItem (key : string) (s : state) : option string :=
  localStorage s !! key.

Definition setItem (key text : string) (s : state) : state :=
  emit (SetItem key text) (set_localStorage <[key := text]> s).

Module dataSdk.
Section data_sdk.
Context `{JSON}.

(** [load]: [None] when the stored text parses to something that is not an
    array of flat records; the code does not check for that and the typed
    state has no value for it. *)
Definition load (s : state) : option state :=
  let text := match getItem STORAGE_KEY s with
              | Some t => if String.eqb t "" then "[]" else t
              | None => "[]"
              end in
  match JSON_parse text with
  | None => let '(a, s) := new_array [] s in Some (set_data a s)
  | Some j =>
      match collection_of_json j with
      | Some c =>
          let '(ls, s) := new_objects c s in
          let '(a, s) := new_array ls s in
          Some (set_data a s)
      | None => None
      end
  end.

Definition save (s : state) : state :=
  setItem STORAGE_KEY (JSON_stringify (json_of_collection (collection s))) s.

(** [h.onDataChanged(snapshot)]. The UI's handler stores the snapshot in
    [allData] and re-renders; other observers are opaque. *)
Definition onDataChanged (h : handler) (snapshot : loc) (s : state) : state :=
  let s := emit (DataChanged h snapshot) s in
  match h with
  | DataHandler => set_allData snapshot s
  | _ => s
  end.

(** The body of [notify]'s [forEach]: a handler with the method gets its
    own copy [[...data]]. *)
Definition deliver (s : state) (h : handler) : state :=
  if has_onDataChanged h
  then let '(snapshot, s) := new_array (elems s (data s)) s in
       onDataChanged h snapshot s
  else s.

Definition notify (s : state) : state := foldl deliver s (subscribers s).

(** The demo records of [seedIfEmpty]; [now] is the clock reading
    [new Date().toISOString()]. *)
Definition u1 (now : string) : obj :=
  {[ "id" := VStr "u_demo"; "type" := VStr "user"; "username" := VStr "demo";
     "password" := VStr "demo"; "fullName" := VStr "Cuenta Demo";
     "bio" := VStr "Amante de la cocina 👨‍🍳"; "profilePhoto" := VStr "";
     "timestamp" := VStr now ]}.
Definition u2 (now : string) : obj :=
  {[ "id" := VStr "u_ana"; "type" := VStr "user"; "username" := VStr "ana";
     "password" := VStr "ana"; "fullName" := VStr "Ana Chef";
     "bio" := VStr "Pasta lover 🍝"; "profilePhoto" := VStr "";
     "timestamp" := VStr now ]}.
Definition f1 (now : string) : obj :=
  {[ "id" := VStr "f1"; "type" := VStr "friendship"; "requesterId" := VStr "u_demo";
     "receiverId" := VStr "u_ana"; "status" := VStr "accepted";
     "timestamp" := VStr now ]}.
Definition r1 (now : string) : obj :=
  {[ "id" := VStr "r1"; "type" := VStr "recipe";
     "recipeTitle" := VStr "Tostada de aguacate";
     "recipeDescription" := VStr "Rápida y saludable";
     "recipeIngredients" := VStr "Pan integral
Aguacate
Sal
Limón";
     "recipeSteps" := VStr "Tostar el pan
Aplastar aguacate
Sazonar y servir";
     "recipeImage" := VStr "🥑";
     "authorId" := VStr "u_ana"; "authorName" := VStr "ana";
     "likes" := VNum 1; "likedBy" := VStr "u_demo";
     "comments" := VStr (JSON_stringify (JArr [JObj [("author", JStr "demo");
                                                     ("text", JStr "¡Brutal!");
                                                     ("timestamp", JStr now)]]));
     "timestamp" := VStr now ]}.

Definition seedIfEmpty (now : string) (s : state) : state :=
  if bool_decide (0 < length (elems s (data s))) then s
  else
    let '(ls, s) := new_objects [u1 now; u2 now; f1 now; r1 now] s in
    let s := set_arrays <[data s := elems s (data s) ++ ls]> s in
    save s.

(** The module body: [let data = []; let subscribers = []; load();
    seedIfEmpty();]. *)
Definition start (now : string) (s : state) : option state :=
  let '(a, s) := new_array [] s in
  let s := set_subscribers [] (set_data a s) in
  seedIfEmpty now <$> load s.

Definition init (handler : option handler) (s : state) : result * state :=
  let s := match handler with
           | Some h => if bool_decide (h ∈ subscribers s) then s
                       else set_subscribers (subscribers s ++ [h]) s
           | None => s
           end in
  let s := notify s in
  (Result true None None, s).

Definition create (o : loc) (s : state) : result * state :=
  let s := set_arrays <[data s := elems s (data s) ++ [o]]> s in
  let s := notify (save s) in
  (Result true (Some o) None, s).

Definition findIndex (o : loc) (s : state) : option nat :=
  fst <$> list_find (λ x, same_id (deref s x) (deref s o)) (elems s (data s)).

Definition update (o : loc) (s : state) : result * state :=
  match findIndex o s with
  | None => (Result false None (Some "not_found"), s)
  | Some i =>
      let s := set_arrays <[data s := <[i := o]> (elems s (data s))]> s in
      let s := notify (save s) in
      (Result true None None, s)
  end.

Definition delete (id : option value) (s : state) : result * state :=
  let before := length (elems s (data s)) in
  let '(a, s) := new_array (filter (λ x, deref s x !! "id" ≠ id) (elems s (data s))) s in
  let s := set_data a s in
  let s := notify (save s) in
  (Result (negb (Nat.eqb (length (elems s (data s))) before)) None None, s).

Definition reset (s : state) : result * state :=
  let '(a, s) := new_array [] s in
  let s := set_data a s in
  let s := notify (save s) in
  (Result true None None, s).
End data_sdk.
End dataSdk.

(** ** The element SDK (mock configuration over localStorage) *)

Definition CFG_KEY : string := "recetagram_config".

Module elementSdk.
Section element_sdk.
Context `{JSON}.

(** [loadCfg]: [None] when the stored text parses to something that is
    not a flat object (the spec's invariant on the configuration). *)
Definition loadCfg (s : state) : option state :=
  let text := match getItem CFG_KEY s with
              | Some t => if String.eqb t "" then "{}" else t
              | None => "{}"
              end in
  match JSON_parse text with
  | None => let '(c, s) := new_object ∅ s in Some (set_config c s)
  | Some j =>
      match obj_of_json j with
      | Some o => let '(c, s) := new_object o s in Some (set_config c s)
      | None => None
      end
  end.

Definition saveCfg (s : state) : state :=
  setItem CFG_KEY (JSON_stringify (json_of_obj (deref s (config s)))) s.

Definition applyChange (s : state) : state :=
  match onConfigChangeCb s with
  | Some cb => emit (ConfigChanged cb (config s)) s
  | None => s
  end.

(** The module body: [let config = {}; let onConfigChangeCb = null;
    loadCfg(); window.elementSdk = { config, ... }]. The property is
    initialised with the reference [config] holds at that moment. *)
Definition start (s : state) : option state :=
  let '(c, s) := new_object ∅ s in
  let s := set_onConfigChangeCb None (set_config c s) in
  (λ s, set_elementSdk_config (config s) s) <$> loadCfg s.

(** [init({ defaultConfig = {}, onConfigChange } = {})]; the spread
    [{ ...defaultConfig, ...config }] lets [config] win. *)
Definition init (defaultConfig : option obj) (onConfigChange : option nat)
    (s : state) : result * state :=
  let '(c, s) := new_object (deref s (config s) ∪ default ∅ defaultConfig) s in
  let s := set_config c s in
  let s := saveCfg s in
  let s := set_onConfigChangeCb onConfigChange s in
  let s := applyChange s in
  (Result true None None, s).

(** [setConfig(partial)]: [{ ...config, ...partial }]. *)
Definition setConfig (partial : obj) (s : state) : state :=
  let '(c, s) := new_object (partial ∪ deref s (config s)) s in
  let s := set_config c s in
  let s := saveCfg s in
  applyChange s.
End element_sdk.
End elementSdk.

(** ** UI code *)

Definition comma : ascii := ","%char.

(** [s.split(',')] *)
Fixpoint split (s : string) : list string :=
  match s with
  | EmptyString => [EmptyString]
  | String c s' =>
      if Ascii.eqb c comma then EmptyString :: split s'
      else match split s' with
           | w :: ws => String c w :: ws
           | [] => [String c EmptyString]
           end
  end.

(** [l.join(',')] on an array of strings *)
Fixpoint join (l : list string) : string :=
  match l with
  | [] => EmptyString
  | [w] => w
  | w :: l' => w +:+ String comma (join l')
  end.

(** [recipe.likedBy ? recipe.likedBy.split(',').filter(id => id) : []];
    [None] is the TypeError of calling [split] on a truthy non-string. *)
Definition likedByArray (recipe : obj) : option (list string) :=
  match recipe !! "likedBy" with
  | Some (VStr t) =>
      Some (if truthy (Some (VStr t)) then filter (λ id, id ≠ EmptyString) (split t) else [])
  | v => if truthy v then None else Some []
  end.

(** [recipe.likes || 0] as the number the arithmetic sees ([true] counts as
    1). [None]: a non-empty string, on which [+ 1] concatenates. *)
Definition likes_or_0 (recipe : obj) : option Z :=
  match recipe !! "likes" with
  | Some (VNum n) => Some n
  | Some (VBool true) => Some 1%Z
  | Some (VStr t) => if truthy (Some (VStr t)) then None else Some 0%Z
  | _ => Some 0%Z
  end.

(** [indexOf] then [splice(index, 1)]: the first occurrence goes. *)
Fixpoint remove_first (u : string) (l : list string) : list string :=
  match l with
  | [] => []
  | w :: l' => if decide (w = u) then l' else w :: remove_first u l'
  end.

(** Lines 403 to 414 of [toggleLike]: the record as the toggle by the user
    [uid] leaves it. *)
Definition toggled (uid : string) (recipe : obj) : option obj :=
  likedByArray ← likedByArray recipe;
  likes ← likes_or_0 recipe;
  let isLiked := bool_decide (uid ∈ likedByArray) in
  let '(likedByArray, likes) :=
    if isLiked then (remove_first uid likedByArray, Z.max 0 (likes - 1))
    else (likedByArray ++ [uid], (likes + 1)%Z) in
  Some (<["likedBy" := VStr (join likedByArray)]> (<["likes" := VNum likes]> recipe)).

(** The page before any script has run. *)
Definition page (storage : gmap string string) : state :=
  State storage ∅ ∅ [] 0 [] 0 None 0 0 None.

Definition dquote : ascii := Eval cbv in ascii_of_nat 34.

Definition defaultConfig : obj :=
  <["font_size" := VNum 14]>
  {[ "app_title" := VStr "RecetaGram";
     "app_tagline" := VStr "Comparte tus recetas favoritas";
     "welcome_message" := VStr "Bienvenido a RecetaGram";
     "login_button_text" := VStr "Iniciar Sesión";
     "register_button_text" := VStr "Registrarse";
     "timeline_title" := VStr "Recetas de tus Amigos";
     "search_placeholder" := VStr "Buscar usuarios...";
     "background_color" := VStr "#fafafa";
     "surface_color" := VStr "#ffffff";
     "text_color" := VStr "#262626";
     "primary_action_color" := VStr "#0095f6";
     "secondary_action_color" := VStr "#dbdbdb";
     "font_family" := VStr ("-apple-system, BlinkMacSystemFont, "
                            +:+ String dquote ("Segoe UI" +:+ String dquote
                                  ", Roboto, Helvetica, Arial, sans-serif")) ]}.

(** The [onConfigChange] closure that [initApp] passes; it only writes to
    the DOM. *)
Definition onConfigChange : nat := 0.

Section app.
Context `{JSON}.

(** [toggleLike(recipeId)]. [None]: the call throws ([currentUser] is
    null, [split] on a non-string) or leaves the typed records (a user id
    that is not a string, a like count that is a string). *)
Definition toggleLike (recipeId : string) (s : state) : option state :=
  match list_find (λ r, deref s r !! "id" = Some (VStr recipeId)) (elems s (allData s)) with
  | None => Some s
  | Some (_, recipe) =>
      user ← currentUser s;
      match deref s user !! "id" with
      | Some (VStr uid) =>
          recipe' ← toggled uid (deref s recipe);
          let s := set_objects <[recipe := recipe']> s in
          let '(result, s) := dataSdk.update recipe s in
          Some (if isOk result then s
                else emit (ShowToast "Error al actualizar el me gusta") s)
      | _ => None
      end
  end.

(** The login form's submit handler, without its DOM writes:
    [getUsers().find(u => u.username === username && u.password === password)]. *)
Definition login (username password : string) (s : state) : state :=
  match list_find (λ u, deref s u !! "type" = Some (VStr "user")
                        ∧ deref s u !! "username" = Some (VStr username)
                        ∧ deref s u !! "password" = Some (VStr password))
                  (elems s (allData s)) with
  | Some (_, user) => emit (ShowToast "¡Bienvenido de nuevo!") (set_currentUser (Some user) s)
  | None => emit (ShowToast "Usuario o contraseña incorrectos") s
  end.

(** [initApp], with the configuration callback as the opaque closure
    [onConfigChange]. *)
Definition initApp (s : state) : state :=
  let '(initResult, s) := dataSdk.init (Some DataHandler) s in
  if negb (isOk initResult)
  then emit (ShowToast "Error al inicializar la aplicación") s
  else (elementSdk.init (Some defaultConfig) (Some onConfigChange) s).2.

(** The whole script, top to bottom, on a page with the given storage. *)
Definition boot (now : string) (storage : gmap string string) : option state :=
  s ← dataSdk.start now (page storage);
  s ← elementSdk.start s;
  let '(a, s) := new_array [] s in
  let s := set_currentUser None (set_allData a s) in
  Some (initApp s).

(** What the registration handler writes back on the button:
    [window.elementSdk.config.register_button_text ||
     defaultConfig.register_button_text]. *)
Definition register_button_label (s : state) : option value :=
  let v := deref s (elementSdk_config s) !! "register_button_text" in
  if truthy v then v else defaultConfig !! "register_button_text".
End app.

(** ** Call sequences *)

(** An argument is an object literal at the call site or an object the
    caller already holds. *)
Inductive arg :=
  | Lit (o : obj)
  | Ref (l : loc).

Definition eval_arg (a : arg) (s : state) : loc * state :=
  match a with
  | Lit o => new_object o s
  | Ref l => (l, s)
  end.

Inductive call :=
  | Init (h : option handler)
  | Create (a : arg)
  | Update (a : arg)
  | Delete (id : option value)
  | Reset.

Inductive cfg_call :=
  | CfgInit (defaultConfig : option obj) (onConfigChange : option nat)
  | CfgSet (partial : obj).

Section calls.
Context `{JSON}.

Definition step (c : call) (s : state) : result * state :=
  match c with
  | Init h => dataSdk.init h s
  | Create a => let '(o, s) := eval_arg a s in dataSdk.create o s
  | Update a => let '(o, s) := eval_arg a s in dataSdk.update o s
  | Delete id => dataSdk.delete id s
  | Reset => dataSdk.reset s
  end.

Definition run (cs : list call) (s : state) : state :=
  foldl (λ s c, (step c s).2) s cs.

(** Whether the call changes the collection. *)
Definition mutates (c : call) (s : state) : bool :=
  match c with
  | Init _ => false
  | Update a => let '(o, s) := eval_arg a s in bool_decide (is_Some (dataSdk.findIndex o s))
  | Create _ | Delete _ | Reset => true
  end.

Definition cfg_step (c : cfg_call) (s : state) : state :=
  match c with
  | CfgInit d cb => (elementSdk.init d cb s).2
  | CfgSet p => elementSdk.setConfig p s
  end.

Definition cfg_run (cs : list cfg_call) (s : state) : state :=
  foldl (λ s c, cfg_step c s) s cs.

(** What a reload would read back from the record slot. *)
Definition persisted (s : state) : option (list obj) :=
  text ← getItem STORAGE_KEY s;
  j ← JSON_parse text;
  collection_of_json j.
End calls.

(** Handlers with an [onDataChanged] method, in registration order. *)
Definition observers (hs : list handler) : list handler :=
  filter (λ h, has_onDataChanged h = true) hs.

(** The events a call appended to the trace. *)
Definition events_since (s s' : state) : list event :=
  drop (length (trace s)) (trace s').

Definition is_write (key : string) (e : event) : Prop :=
  match e with SetItem k _ => k = key | _ => False end.

Global Instance is_write_dec key e : Decision (is_write key e).
Proof. destruct e; simpl; apply _. Defined.

Definition is_notification (e : event) : Prop :=
  match e with DataChanged _ _ => True | _ => False end.

Global Instance is_notification_dec e : Decision (is_notification e).
Proof. destruct e; simpl; apply _. Defined.

(** ** Vocabulary of the statements *)

(** [h.onDataChanged] was the method called. *)
Definition to_handler (h : handler) (e : event) : Prop :=
  match e with DataChanged h' _ => h' = h | _ => False end.

Global Instance to_handler_dec h e : Decision (to_handler h e).
Proof. destruct e; simpl; apply _. Defined.

(** A held reference points at an allocated object. *)
Definition arg_ok (a : arg) (s : state) : Prop :=
  match a with
  | Lit _ => True
  | Ref l => l ∈ dom (objects s)
  end.

(** The calls that count as mutating, read off the collection and not off
    the code's own search: create, delete and reset always, and an update
    when some record of the collection, as it stands when [update] is called,
    carries the identifier of the record handed in. *)
Definition is_mutation (c : call) (s : state) : Prop :=
  match c with
  | Init _ => False
  | Create _ | Delete _ | Reset => True
  | Update a =>
      let '(o, s1) := eval_arg a s in
      ∃ x, x ∈ collection s1 ∧ x !! "id" = deref s1 o !! "id"
  end.

(** The states the four mutations hand to [save(); notify();]. *)
Definition pushed (o : loc) (s : state) : state :=
  set_arrays <[data s := elems s (data s) ++ [o]]> s.
Definition replaced (i : nat) (o : loc) (s : state) : state :=
  set_arrays <[data s := <[i := o]> (elems s (data s))]> s.
Definition filtered (id : option value) (s : state) : state :=
  let a := fresh (dom (arrays s)) in
  set_data a (set_arrays <[a := filter (λ x, deref s x !! "id" ≠ id) (elems s (data s))]> s).
Definition cleared (s : state) : state :=
  let a := fresh (dom (arrays s)) in
  set_data a (set_arrays <[a := []]> s).

(** [s'] is [s] after every handler of [hs] with an [onDataChanged] method
    has been handed its own fresh copy of the array [data] refers to; [snaps]
    are those copies, in order. *)
Record delivered (hs : list handler) (snaps : list loc) (s s' : state) : Prop := {
  dl_trace : trace s' = trace s ++ zip_with DataChanged (observers hs) snaps;
  dl_length : length snaps = length (observers hs);
  dl_nodup : NoDup snaps;
  dl_fresh : ∀ a, a ∈ snaps → a ∉ dom (arrays s);
  dl_arrays : ∀ a, arrays s' !! a =
                   if decide (a ∈ snaps) then Some (elems s (data s)) else arrays s !! a;
  dl_allData : if decide (DataHandler ∈ hs) then allData s' ∈ snaps
               else allData s' = allData s;
  dl_localStorage : localStorage s' = localStorage s;
  dl_objects : objects s' = objects s;
  dl_data : data s' = data s;
  dl_subscribers : subscribers s' = subscribers s;
  dl_config : config s' = config s;
  dl_onConfigChangeCb : onConfigChangeCb s' = onConfigChangeCb s;
  dl_elementSdk_config : elementSdk_config s' = elementSdk_config s;
  dl_currentUser : currentUser s' = currentUser s
}.

(** ** Likes: what the two fields of a recipe encode *)

(** An identifier that the comma-separated encoding can hold: not empty
    and without a comma, as [generateId] and the demo records have them. *)
Fixpoint no_comma (w : string) : bool :=
  match w with
  | EmptyString => true
  | String c w' => negb (Ascii.eqb c comma) && no_comma w'
  end.

Definition valid_id (w : string) : Prop := w ≠ EmptyString ∧ no_comma w = true.

(** How often the identifier occurs in the decoded list. *)
Definition occurrences (uid : string) (l : list string) : nat :=
  length (filter (λ w, w = uid) l).

(** The liker set and the like count as the code reads them. *)
Definition likerSet (recipe : obj) : gset string :=
  list_to_set (default [] (likedByArray recipe)).

Definition likes (recipe : obj) : Z := default 0%Z (likes_or_0 recipe).

(** [s.split(',').filter(id => id)] *)
Definition decode (t : string) : list string :=
  filter (λ id, id ≠ EmptyString) (split t).

Section vocabulary.
Context `{JSON}.

(** The text [save] writes for the state [m]. *)
Definition saved_text (m : state) : string :=
  JSON_stringify (json_of_collection (collection m)).

(** [s'] is [m] after [save(); notify();]. *)
Record committed (snaps : list loc) (m s' : state) : Prop := {
  cm_trace : trace s' = trace m ++ SetItem STORAGE_KEY (saved_text m)
                          :: zip_with DataChanged (observers (subscribers m)) snaps;
  cm_localStorage : localStorage s' = <[STORAGE_KEY := saved_text m]> (localStorage m);
  cm_length : length snaps = length (observers (subscribers m));
  cm_nodup : NoDup snaps;
  cm_fresh : ∀ a, a ∈ snaps → a ∉ dom (arrays m);
  cm_arrays : ∀ a, arrays s' !! a =
                   if decide (a ∈ snaps) then Some (elems m (data m)) else arrays m !! a;
  cm_allData : if decide (DataHandler ∈ subscribers m) then allData s' ∈ snaps
               else allData s' = allData m;
  cm_objects : objects s' = objects m;
  cm_data : data s' = data m;
  cm_subscribers : subscribers s' = subscribers m;
  cm_config : config s' = config m;
  cm_onConfigChangeCb : onConfigChangeCb s' = onConfigChangeCb m;
  cm_elementSdk_config : elementSdk_config s' = elementSdk_config m;
  cm_currentUser : currentUser s' = currentUser m
}.

(** References held by the caller point at allocated objects, call after
    call. *)
Definition call_ok (c : call) (s : state) : Prop :=
  match c with
  | Create a | Update a => arg_ok a s
  | _ => True
  end.

Fixpoint calls_ok (cs : list call) (s : state) : Prop :=
  match cs with
  | [] => True
  | c :: cs => call_ok c s ∧ calls_ok cs (step c s).2
  end.

(** The array [data] refers to is allocated, and so is every record in it. *)
Definition store_ok (s : state) : Prop :=
  data s ∈ dom (arrays s) ∧ ∀ l, l ∈ elems s (data s) → l ∈ dom (objects s).

(** A reload would read back the collection in memory. *)
Definition synced (s : state) : Prop := persisted s = Some (collection s).

(** The slot holds nothing [JSON.parse] accepts. *)
Definition nothing_usable (key : string) (s : state) : Prop :=
  getItem key s = None ∨ ∃ t, getItem key s = Some t ∧ JSON_parse t = None.

(** The configuration [loadCfg] reads from the slot: the stored object,
    or the empty one when the slot is missing or does not parse. *)
Definition stored_config (s : state) : option obj :=
  let text := match getItem CFG_KEY s with
              | Some t => if String.eqb t "" then "{}" else t
              | None => "{}"
              end in
  match JSON_parse text with
  | None => Some ∅
  | Some j => obj_of_json j
  end.

(** The collection [load] reads from the record slot: the stored one, or
    the empty one when the slot is missing, empty or does not parse. *)
Definition stored_collection (s : state) : option (list obj) :=
  let text := match getItem STORAGE_KEY s with
              | Some t => if String.eqb t "" then "[]" else t
              | None => "[]"
              end in
  match JSON_parse text with
  | None => Some []
  | Some j => collection_of_json j
  end.

(** What [saveCfg(); applyChange();] appends. *)
Definition config_events (cb : option nat) (s' : state) : list event :=
  SetItem CFG_KEY (JSON_stringify (json_of_obj (deref s' (config s'))))
    :: match cb with Some cb => [ConfigChanged cb (config s')] | None => [] end.

(** [s'] is [s] after the configuration became [o] and was saved and
    applied. *)
Record reconfigured (cb : option nat) (o : obj) (s s' : state) : Prop := {
  rc_config : deref s' (config s') = o;
  rc_fresh : config s' ∉ dom (objects s);
  rc_objects : ∀ l, l ∈ dom (objects s) → objects s' !! l = objects s !! l;
  rc_allocated : ∀ l, l ∈ dom (objects s) → l ∈ dom (objects s');
  rc_storage : getItem CFG_KEY s' = Some (JSON_stringify (json_of_obj o));
  rc_events : events_since s s' = config_events cb s';
  rc_callback : onConfigChangeCb s' = cb;
  rc_exposed : elementSdk_config s' = elementSdk_config s
}.
End vocabulary.

(** ** A JSON instance

    A printer and a parser for JSON text, to run the model on concrete
    pages. Strings are byte strings; numbers are the integers. *)

Module JsonText.
Abbreviation text := (list ascii).

Definition backslash : ascii := Eval cbv in ascii_of_nat 92.

Definition is_digit (c : ascii) : bool :=
  (48 <=? N_of_ascii c)%N && (N_of_ascii c <=? 57)%N.
Definition digit_val (c : ascii) : N := (N_of_ascii c - 48)%N.
Definition digit_char (d : N) : ascii := ascii_of_N (48 + d).

Definition hex_char (d : N) : ascii :=
  if (d <? 10)%N then ascii_of_N (48 + d) else ascii_of_N (87 + d).
Definition hex_val (c : ascii) : option N :=
  let n := N_of_ascii c in
  if (48 <=? n)%N && (n <=? 57)%N then Some (n - 48)%N
  else if (97 <=? n)%N && (n <=? 102)%N then Some (n - 87)%N
  else None.

(** Printing: the compact form [JSON.stringify] produces. *)
Fixpoint print_N_go (fuel : nat) (n : N) (acc : text) : text :=
  match fuel with
  | O => acc
  | S fuel =>
      let acc := digit_char (n mod 10) :: acc in
      if (n / 10 =? 0)%N then acc else print_N_go fuel (n / 10)%N acc
  end.
Definition print_N (n : N) : text := print_N_go (S (N.to_nat (N.size n))) n [].
Definition print_Z (z : Z) : text :=
  if (z <? 0)%Z then "-"%char :: print_N (Z.abs_N z) else print_N (Z.abs_N z).

Definition escape_char (c : ascii) : text :=
  let n := N_of_ascii c in
  if (n =? 34)%N then [backslash; dquote]
  else if (n =? 92)%N then [backslash; backslash]
  else if (n =? 8)%N then [backslash; "b"%char]
  else if (n =? 9)%N then [backslash; "t"%char]
  else if (n =? 10)%N then [backslash; "n"%char]
  else if (n =? 12)%N then [backslash; "f"%char]
  else if (n =? 13)%N then [backslash; "r"%char]
  else if (n <? 32)%N
       then [backslash; "u"%char; "0"%char; "0"%char; hex_char (n / 16); hex_char (n mod 16)]
  else [c].

Definition print_string (s : string) : text :=
  dquote :: flat_map escape_char (String.list_ascii_of_string s) ++ [dquote].

Definition comma_unless_last {A} (rest : list A) : text :=
  match rest with [] => [] | _ => [","%char] end.

Fixpoint print (j : json) : text :=
  match j with
  | JNull => String.list_ascii_of_string "null"
  | JBool true => String.list_ascii_of_string "true"
  | JBool false => String.list_ascii_of_string "false"
  | JNum n => print_Z n
  | JStr s => print_string s
  | JArr items =>
      "["%char ::
      (fix elems (xs : list json) : text :=
         match xs with
         | [] => ["]"%char]
         | x :: xs' => print x ++ comma_unless_last xs' ++ elems xs'
         end) items
  | JObj members =>
      "{"%char ::
      (fix membs (ms : list (string * json)) : text :=
         match ms with
         | [] => ["}"%char]
         | m :: ms' => print_string m.1 ++ ":"%char :: print m.2
                          ++ comma_unless_last ms' ++ membs ms'
         end) members
  end.

Fixpoint print_elems (xs : list json) : text :=
  match xs with
  | [] => ["]"%char]
  | x :: xs' => print x ++ comma_unless_last xs' ++ print_elems xs'
  end.
Fixpoint print_members (ms : list (string * json)) : text :=
  match ms with
  | [] => ["}"%char]
  | m :: ms' => print_string m.1 ++ ":"%char :: print m.2
                   ++ comma_unless_last ms' ++ print_members ms'
  end.

(** Parsing: recursive descent over the compact form, [fuel] bounding
    the nesting. *)
Fixpoint parse_N_go (s : text) (acc : N) : N * text :=
  match s with
  | c :: s' => if is_digit c then parse_N_go s' (acc * 10 + digit_val c)%N else (acc, s)
  | [] => (acc, s)
  end.
Definition parse_N (s : text) : option (N * text) :=
  match s with
  | c :: _ => if is_digit c then Some (parse_N_go s 0%N) else None
  | [] => None
  end.

Definition unescape (e : ascii) : option ascii :=
  let n := N_of_ascii e in
  if (n =? 34)%N then Some dquote
  else if (n =? 92)%N then Some backslash
  else if (n =? 47)%N then Some "/"%char
  else if (n =? 98)%N then Some (ascii_of_N 8)
  else if (n =? 116)%N then Some (ascii_of_N 9)
  else if (n =? 110)%N then Some (ascii_of_N 10)
  else if (n =? 102)%N then Some (ascii_of_N 12)
  else if (n =? 114)%N then Some (ascii_of_N 13)
  else None.

Definition cons_fst {A B} (a : A) (p : list A * B) : list A * B := (a :: p.1, p.2).

(** The characters of a string literal up to its closing quote. *)
Fixpoint parse_chars (s : text) : option (text * text) :=
  match s with
  | [] => None
  | c :: s' =>
      if (N_of_ascii c =? 34)%N then Some ([], s')
      else if (N_of_ascii c =? 92)%N then
        match s' with
        | [] => None
        | e :: s'' =>
            if (N_of_ascii e =? 117)%N then
              match s'' with
              | a :: b :: h :: l :: s3 =>
                  match hex_val a, hex_val b, hex_val h, hex_val l with
                  | Some 0%N, Some 0%N, Some hv, Some lv =>
                      cons_fst (ascii_of_N (16 * hv + lv)) <$> parse_chars s3
                  | _, _, _, _ => None
                  end
              | _ => None
              end
            else
              match unescape e with
              | Some c' => cons_fst c' <$> parse_chars s''
              | None => None
              end
        end
      else if (N_of_ascii c <? 32)%N then None
      else cons_fst c <$> parse_chars s'
  end.

Definition parse_string (s : text) : option (string * text) :=
  match s with
  | c :: s' =>
      if (N_of_ascii c =? 34)%N
      then prod_map String.string_of_list_ascii id <$> parse_chars s'
      else None
  | [] => None
  end.

Definition expect (w : string) (s : text) : option text :=
  let w := String.list_ascii_of_string w in
  if bool_decide (take (length w) s = w) then Some (drop (length w) s) else None.

Fixpoint parse_value (fuel : nat) (s : text) : option (json * text) :=
  match fuel with
  | O => None
  | S fuel =>
      match s with
      | [] => None
      | c :: s' =>
          let n := N_of_ascii c in
          if (n =? 110)%N then pair JNull <$> expect "ull" s'
          else if (n =? 116)%N then pair (JBool true) <$> expect "rue" s'
          else if (n =? 102)%N then pair (JBool false) <$> expect "alse" s'
          else if (n =? 34)%N then prod_map JStr id <$> parse_string s
          else if (n =? 45)%N then
            prod_map (λ m, JNum (- Z.of_N m)) id <$> parse_N s'
          else if is_digit c then
            prod_map (λ m, JNum (Z.of_N m)) id <$> parse_N s
          else if (n =? 91)%N then
            match s' with
            | d :: s'' =>
                if (N_of_ascii d =? 93)%N then Some (JArr [], s'')
                else prod_map JArr id <$> parse_elems fuel s'
            | [] => None
            end
          else if (n =? 123)%N then
            match s' with
            | d :: s'' =>
                if (N_of_ascii d =? 125)%N then Some (JObj [], s'')
                else prod_map JObj id <$> parse_members fuel s'
            | [] => None
            end
          else None
      end
  end
with parse_elems (fuel : nat) (s : text) : option (list json * text) :=
  match fuel with
  | O => None
  | S fuel =>
      match parse_value fuel s with
      | Some (x, d :: s') =>
          if (N_of_ascii d =? 44)%N then cons_fst x <$> parse_elems fuel s'
          else if (N_of_ascii d =? 93)%N then Some ([x], s')
          else None
      | _ => None
      end
  end
with parse_members (fuel : nat) (s : text) : option (list (string * json) * text) :=
  match fuel with
  | O => None
  | S fuel =>
      match parse_string s with
      | Some (k, c :: s1) =>
          if (N_of_ascii c =? 58)%N then
            match parse_value fuel s1 with
            | Some (v, d :: s') =>
                if (N_of_ascii d =? 44)%N then cons_fst (k, v) <$> parse_members fuel s'
                else if (N_of_ascii d =? 125)%N then Some ([(k, v)], s')
                else None
            | _ => None
            end
          else None
      | _ => None
      end
  end.

Definition parse (s : text) : option json :=
  match parse_value (2 * length s + 2) s with
  | Some (j, []) => Some j
  | _ => None
  end.

(** A number ends where no digit follows. *)
Definition follows_ok (rest : text) : Prop :=
  match rest with c :: _ => is_digit c = false | [] => True end.

(** The first character of a printed value decides the parser's branch. *)
Inductive leads : json → ascii → Prop :=
  | leads_null : leads JNull "n"
  | leads_true : leads (JBool true) "t"
  | leads_false : leads (JBool false) "f"
  | leads_neg n : (n < 0)%Z → leads (JNum n) "-"
  | leads_digit n c : (0 ≤ n)%Z → is_digit c = true → leads (JNum n) c
  | leads_str s : leads (JStr s) dquote
  | leads_arr xs : leads (JArr xs) "["
  | leads_obj ms : leads (JObj ms) "{".
End JsonText.

#[local] Instance json_text : JSON := {|
  JSON_stringify j := String.string_of_list_ascii (JsonText.print j);
  JSON_parse t := JsonText.parse (String.list_ascii_of_string t)
|}.

(** ** Concrete pages *)

(** The clock reading used below. *)
Definition now0 : string := "2024-01-01T00:00:00.000Z".

(** A first visit: nothing in storage, the whole script has run. *)
Definition first_visit : state := default (page ∅) (boot now0 ∅).

(** The same page after ana has logged in. *)
Definition ana_session : state := login "ana" "ana" first_visit.

(** The data SDK alone, started on empty storage. *)
Definition fresh_store : state := default (page ∅) (dataSdk.start now0 (page ∅)).

(** The caller builds a record with an identifier the store does not hold. *)
Definition ghost : loc * state := new_object {[ "id" := VStr "ghost" ]} first_visit.

(** The caller builds a new version of the demo recipe. *)
Definition r1_edited : loc * state :=
  new_object {[ "id" := VStr "r1"; "type" := VStr "recipe"; "likes" := VNum 5 ]} first_visit.

(** A user record as the registration form creates it. *)
Definition u1_demo : obj := {[ "id" := VStr "u1"; "username" := VStr "demo" ]}.

(** A session of calls on the store. *)
Definition some_calls : list call :=
  [ Init (Some DataHandler); Create (Lit u1_demo); Update (Ref 3);
    Update (Lit {[ "id" := VStr "ghost" ]}); Delete (Some (VStr "u_ana"));
    Create (Ref 0); Delete (Some (VStr "nobody")) ].

(** Storage whose record slot does not parse. *)
Definition broken_storage : gmap string string := {[ STORAGE_KEY := "not json" ]}.

(** Storage that already holds a configuration with a font size of 18. *)
Definition font_18_storage : gmap string string :=
  {[ CFG_KEY := JSON_stringify (json_of_obj {[ "font_size" := VNum 18 ]}) ]}.

(** Storage holding a user u2 and a recipe whose liker string names u2
    twice, with a like count of one. *)
Definition doubled_liker_storage : gmap string string :=
  {[ STORAGE_KEY := JSON_stringify (json_of_collection
       [ {[ "id" := VStr "u2"; "type" := VStr "user"; "username" := VStr "bea";
            "password" := VStr "bea" ]};
         {[ "id" := VStr "r9"; "type" := VStr "recipe"; "authorId" := VStr "u2";
            "likes" := VNum 1; "likedBy" := VStr "u2,u2" ]} ]) ]}.

(** That page after u2 has logged in. *)
Definition doubled_liker_session : state :=
  login "bea" "bea" (default (page ∅) (boot now0 doubled_liker_storage)).

(** A new recipe, and a logged-in user whose identifier holds a comma. *)
Definition comma_user_storage : gmap string string :=
  {[ STORAGE_KEY := JSON_stringify (json_of_collection
       [ {[ "id" := VStr "a,b"; "type" := VStr "user"; "username" := VStr "cy";
            "password" := VStr "cy" ]};
         {[ "id" := VStr "r9"; "type" := VStr "recipe"; "authorId" := VStr "a,b";
            "likes" := VNum 0; "likedBy" := VStr "" ]} ]) ]}.

Definition comma_user_session : state :=
  login "cy" "cy" (default (page ∅) (boot now0 comma_user_storage)).

(** An observer that has not subscribed yet. *)
Definition late_observer : handler := Observer 7.

(** The store emptied by [reset]. *)
Definition emptied_store : state := (dataSdk.reset first_visit).2.

(** A page with the stored font size, after the element SDK has started. *)
Definition font_18_page : state :=
  default (page ∅) (elementSdk.start (page font_18_storage)).

(** A first visit as far as the element SDK's start, and what the UI then
    does to the configuration. *)
Definition unconfigured_page : state := default (page ∅) (elementSdk.start (page ∅)).

Definition config_calls : list cfg_call :=
  [ CfgInit (Some defaultConfig) (Some onConfigChange);
    CfgSet {[ "register_button_text" := VStr "Join" ]} ].

(** The doubled-liker page after one and after two toggles by u2. *)
Definition doubled_liker_once : state :=
  default doubled_liker_session (toggleLike "r9" doubled_liker_session).

Definition doubled_liker_twice : state :=
  default doubled_liker_once (toggleLike "r9" doubled_liker_once).

(** The comma-identifier page after one and after two toggles. *)
Definition comma_user_once : state :=
  default comma_user_session (toggleLike "r9" comma_user_session).

Definition comma_user_twice : state :=
  default comma_user_once (toggleLike "r9" comma_user_once).

(** A new version of the demo recipe, as an object literal at the call. *)
Definition r1_literal : obj :=
  {[ "id" := VStr "r1"; "type" := VStr "recipe"; "likes" := VNum 5 ]}.

(** ** More of the UI code: queries over [allData] and the form handlers

    The handlers are modelled without their DOM writes; what they read
    from the DOM, the clock ([new Date().toISOString()]), [generateId()] and
    the answer to [confirm] are arguments. Rendering is taken not to throw. *)

(** A property of an object literal whose value is read off another
    object. A property set to [undefined] reads back, and is serialised,
    like an absent one. *)
Definition with_field (k : string) (v : option value) (o : obj) : obj :=
  match v with
  | Some v => <[k := v]> o
  | None => o
  end.

(** [allData.filter(item => item.type === 'user')] *)
Definition getUsers (s : state) : list loc :=
  filter (λ item, deref s item !! "type" = Some (VStr "user")) (elems s (allData s)).

(** [allData.filter(item => item.type === 'friendship')] *)
Definition getFriendships (s : state) : list loc :=
  filter (λ item, deref s item !! "type" = Some (VStr "friendship")) (elems s (allData s)).

(** [f.status === 'accepted'] *)
Definition accepted (f : obj) : Prop := f !! "status" = Some (VStr "accepted").

(** [(f.requesterId === a && f.receiverId === b) ||
     (f.requesterId === b && f.receiverId === a)] *)
Definition between (a b : option value) (f : obj) : Prop :=
  (f !! "requesterId" = a ∧ f !! "receiverId" = b)
  ∨ (f !! "requesterId" = b ∧ f !! "receiverId" = a).

Global Instance accepted_dec f : Decision (accepted f).
Proof. unfold accepted. apply _. Defined.

Global Instance between_dec a b f : Decision (between a b f).
Proof. unfold between. apply _. Defined.

Definition getUserFriends (userId : option value) (s : state) : list loc :=
  let friendships :=
    filter (λ f, accepted (deref s f)
                 ∧ (deref s f !! "requesterId" = userId
                    ∨ deref s f !! "receiverId" = userId))
           (getFriendships s) in
  let friendIds :=
    (λ f, if decide (deref s f !! "requesterId" = userId)
          then deref s f !! "receiverId" else deref s f !! "requesterId")
      <$> friendships in
  filter (λ u, deref s u !! "id" ∈ friendIds) (getUsers s).

Definition areFriends (a b : option value) (s : state) : bool :=
  bool_decide (Exists (λ f, accepted (deref s f) ∧ between a b (deref s f))
                      (getFriendships s)).

(** [f ? f.status : null] for the first friendship between the two. *)
Definition getFriendshipStatus (a b : option value) (s : state) : option value :=
  match list_find (λ f, between a b (deref s f)) (getFriendships s) with
  | Some (_, f) => deref s f !! "status"
  | None => Some VNull
  end.

Section handlers.
Context `{JSON}.

(** [recipe.comments ? JSON.parse(recipe.comments) : []]. [None]: the
    text does not parse, or the field is a truthy value that is no string
    (its parse is no array, so the [push] that follows throws). *)
Definition parsedComments (recipe : obj) : option json :=
  match recipe !! "comments" with
  | Some (VStr t) => if truthy (Some (VStr t)) then JSON_parse t else Some (JArr [])
  | v => if truthy v then None else Some (JArr [])
  end.

(** The comment [addComment] pushes:
    [{ author: currentUser.username, text: commentText, timestamp }]. *)
Definition newComment (author : option value) (commentText now : string) : json :=
  JObj (match author with
        | Some v => [("author", json_of_value v)]
        | None => []
        end ++ [("text", JStr commentText); ("timestamp", JStr now)]).

(** [addComment(event, recipeId)]; [commentText] is the trimmed value of
    the recipe's comment input. [None]: the call throws. *)
Definition addComment (now commentText recipeId : string) (s : state) : option state :=
  if String.eqb commentText "" then Some s
  else
    match list_find (λ r, deref s r !! "id" = Some (VStr recipeId)) (elems s (allData s)) with
    | None => Some s
    | Some (_, recipe) =>
        parsed ← parsedComments (deref s recipe);
        match parsed with
        | JArr comments =>
            user ← currentUser s;
            let comment := newComment (deref s user !! "username") commentText now in
            let text := JSON_stringify (JArr (comments ++ [comment])) in
            let s := set_objects <[recipe := <["comments" := VStr text]> (deref s recipe)]> s in
            let '(result, s) := dataSdk.update recipe s in
            Some (if isOk result then s
                  else emit (ShowToast "Error al añadir el comentario") s)
        | _ => None
        end
    end.

(** The registration form's submit handler; [username] and [fullName] are
    the trimmed field values. *)
Definition register (id now fullName username password : string) (s : state) : state :=
  if bool_decide (Exists (λ u, deref s u !! "username" = Some (VStr username)) (getUsers s))
  then emit (ShowToast "El nombre de usuario ya existe") s
  else
    let '(o, s) :=
      new_object {[ "id" := VStr id; "type" := VStr "user";
                    "username" := VStr username; "password" := VStr password;
                    "fullName" := VStr fullName;
                    "bio" := VStr "Amante de la cocina 👨‍🍳";
                    "profilePhoto" := VStr ""; "timestamp" := VStr now ]} s in
    let '(result, s) := dataSdk.create o s in
    emit (ShowToast (if isOk result then "¡Cuenta creada! Ahora puedes iniciar sesión"
                     else "Error al crear la cuenta")) s.

(** [sendFriendRequest(receiverId)]; the rendered buttons pass a string.
    [None]: [currentUser] is null and the call throws, in [find] or at the
    object literal. *)
Definition sendFriendRequest (id now receiverId : string) (s : state) : option state :=
  user ← currentUser s;
  let me := deref s user !! "id" in
  match list_find (λ f, between me (Some (VStr receiverId)) (deref s f))
                  (getFriendships s) with
  | Some _ => Some (emit (ShowToast "Ya existe una solicitud con este usuario") s)
  | None =>
      let '(o, s) :=
        new_object (with_field "requesterId" me
                      {[ "id" := VStr id; "type" := VStr "friendship";
                         "receiverId" := VStr receiverId;
                         "status" := VStr "accepted"; "timestamp" := VStr now ]}) s in
      let '(result, s) := dataSdk.create o s in
      Some (emit (ShowToast (if isOk result then "¡Ahora son amigos!"
                             else "Error al enviar la solicitud")) s)
  end.

(** [deleteRecipe(recipeId)]; [ok] is the answer to [confirm]. [None]:
    the recipe is found and [currentUser] is null. *)
Definition deleteRecipe (ok : bool) (recipeId : string) (s : state) : option state :=
  match list_find (λ r, deref s r !! "id" = Some (VStr recipeId)
                        ∧ deref s r !! "type" = Some (VStr "recipe"))
                  (elems s (allData s)) with
  | None => Some (emit (ShowToast "Receta no encontrada") s)
  | Some (_, recipe) =>
      user ← currentUser s;
      if bool_decide (deref s recipe !! "authorId" ≠ deref s user !! "id")
      then Some (emit (ShowToast "No puedes eliminar esta receta") s)
      else if negb ok then Some s
      else
        let '(result, s) := dataSdk.delete (Some (VStr recipeId)) s in
        Some (emit (ShowToast (if isOk result then "Receta eliminada"
                               else "Error al eliminar la receta")) s)
  end.

(** The profile form's submit handler; [fullName] and [bio] are the
    trimmed field values. [photo]: [None] when no file was chosen,
    [Some None] when [readAndResizeImage] rejects, [Some (Some url)] when it
    resolves to the data URL. A null [currentUser] makes the first assignment
    throw inside the [try], which ends in the error notice. *)
Definition editProfile (fullName bio : string) (photo : option (option string))
    (s : state) : state :=
  match photo with
  | Some None =>
      emit (ShowToast "Error al procesar la imagen. Prueba con otro archivo más pequeño.") s
  | _ =>
      let photoDataUrl := default "" (photo ≫= id) in
      match currentUser s with
      | None => emit (ShowToast "Error al actualizar el perfil") s
      | Some user =>
          let s := set_objects
                     <[user := <["profilePhoto" := VStr photoDataUrl]>
                                 (<["bio" := VStr bio]>
                                    (<["fullName" := VStr fullName]> (deref s user)))]> s in
          let '(result, s) := dataSdk.update user s in
          if isOk result then
            let refreshed :=
              match list_find (λ u, deref s u !! "id" = deref s user !! "id")
                              (getUsers s) with
              | Some (_, u) => u
              | None => user
              end in
            emit (ShowToast "Perfil actualizado") (set_currentUser (Some refreshed) s)
          else emit (ShowToast "Error al actualizar el perfil") s
      end
  end.

(** What the user does on the page, one handler run each. *)
Inductive action :=
  | Login (username password : string)
  | Register (id now fullName username password : string)
  | ToggleLike (recipeId : string)
  | AddComment (now commentText recipeId : string)
  | SendFriendRequest (id now receiverId : string)
  | DeleteRecipe (ok : bool) (recipeId : string).

Definition act (a : action) (s : state) : option state :=
  match a with
  | Login username password => Some (login username password s)
  | Register id now fullName username password =>
      Some (register id now fullName username password s)
  | ToggleLike recipeId => toggleLike recipeId s
  | AddComment now commentText recipeId => addComment now commentText recipeId s
  | SendFriendRequest id now receiverId => sendFriendRequest id now receiverId s
  | DeleteRecipe ok recipeId => deleteRecipe ok recipeId s
  end.

(** A session: the handlers run one after the other; [None] when one of
    them throws or leaves the typed records. *)
Fixpoint session (acts : list action) (s : state) : option state :=
  match acts with
  | [] => Some s
  | a :: acts => s ← act a s; session acts s
  end.
End handlers.

(** The page as [initApp] leaves it: the data array and its records are
    allocated, the UI's handler is subscribed, and [allData] is a copy of the
    data array. *)
Record ui_ok (s : state) : Prop := {
  ui_store : store_ok s;
  ui_handler : DataHandler ∈ subscribers s;
  ui_allData : elems s (allData s) = elems s (data s)
}.

(** No two records of the data array carry the same identifier. *)
Definition unique_ids (s : state) : Prop :=
  NoDup ((λ l, deref s l !! "id") <$> elems s (data s)).

(** ** More concrete pages *)

(** The demo user's session on a first visit. *)
Definition demo_session : state := login "demo" "demo" first_visit.

(** A first visit on which bob registers, and ana's session after that. *)
Definition bob_registered : state :=
  register "u_bob" now0 "Bob Cook" "bob" "secret" first_visit.

Definition ana_with_bob : state := login "ana" "ana" bob_registered.

(** A busy session: bob registers, ana logs in, likes the demo recipe,
    comments on it, befriends bob and deletes her recipe. *)
Definition busy_acts : list action :=
  [ Register "u_bob" now0 "Bob Cook" "bob" "secret";
    Login "ana" "ana";
    ToggleLike "r1";
    AddComment now0 "Gracias" "r1";
    SendFriendRequest "f2" now0 "u_bob";
    DeleteRecipe true "r1" ].

Definition busy_page : state := default (page ∅) (session busy_acts first_visit).

(** The page after a reload over the storage the busy session left. *)
Definition busy_reloaded : state :=
  default (page ∅) (boot now0 (localStorage busy_page)).

(** The demo user tries to delete ana's recipe. *)
Definition demo_refused : state :=
  default (page ∅) (deleteRecipe true "r1" demo_session).


(** A later visit: the storage already holds two records. *)
Definition returning_visit : state :=
  default (page ∅) (boot now0 doubled_liker_storage).

(** Storage in which a recipe carries the identifier of the user stored
    after it, and that user's session. *)
Definition shared_id_storage : gmap string string :=
  {[ STORAGE_KEY := JSON_stringify (json_of_collection
       [ {[ "id" := VStr "u2"; "type" := VStr "recipe"; "authorId" := VStr "u2";
            "recipeTitle" := VStr "Pan" ]};
         {[ "id" := VStr "u2"; "type" := VStr "user"; "username" := VStr "bea";
            "password" := VStr "bea" ]} ]) ]}.

Definition shared_id_session : state :=
  login "bea" "bea" (default (page ∅) (boot now0 shared_id_storage)).

(** * Properties *)

(** ** The heap *)

Lemma fresh_array_not_allocated (s : state) : fresh (dom (arrays s)) ∉ dom (arrays s).
Proof. apply is_fresh. Qed.

Lemma fresh_object_not_allocated (s : state) : fresh (dom (objects s)) ∉ dom (objects s).
Proof. apply is_fresh. Qed.

Lemma elems_insert_eq (s : state) a xs f :
  arrays s = <[a := xs]> f → elems s a = xs.
Proof. unfold elems. intros ->. by rewrite lookup_insert_eq. Qed.

(** ** Broadcasts *)

Lemma observers_cons h hs :
  observers (h :: hs) = if has_onDataChanged h then h :: observers hs else observers hs.
Proof. unfold observers. rewrite filter_cons. by destruct (has_onDataChanged h). Qed.

Lemma foldl_deliver_delivered hs s :
  data s ∈ dom (arrays s) →
  ∃ snaps, delivered hs snaps s (foldl dataSdk.deliver s hs).
Proof.
  revert s. induction hs as [|h hs IH]; intros s Hdata.
  { exists []. split; simpl; try done.
    - by rewrite app_nil_r.
    - constructor.
    - by intros a ?%elem_of_nil. }
  simpl. unfold dataSdk.deliver at 2.
  destruct (has_onDataChanged h) eqn:Hh.
  - set (a := fresh (dom (arrays s))).
    assert (a ∉ dom (arrays s)) as Ha by apply is_fresh.
    assert (a ≠ data s) as Hne by (intros ->; done).
    unfold new_array. fold a.
    set (s1 := dataSdk.onDataChanged h a _).
    assert (arrays s1 = <[a := elems s (data s)]> (arrays s)) as Harr.
    { unfold s1, dataSdk.onDataChanged. by destruct h. }
    assert (data s1 = data s) as Hd by (unfold s1, dataSdk.onDataChanged; by destruct h).
    assert (trace s1 = trace s ++ [DataChanged h a]) as Htr.
    { unfold s1, dataSdk.onDataChanged. by destruct h. }
    assert (elems s1 (data s1) = elems s (data s)) as Hel.
    { unfold elems. by rewrite Hd, Harr, lookup_insert_ne. }
    destruct (IH s1) as [snaps D].
    { rewrite Hd, Harr, dom_insert_L. set_solver. }
    assert (a ∉ snaps) as Hasn.
    { intros Hin%(dl_fresh _ _ _ _ D). apply Hin. rewrite Harr, dom_insert_L. set_solver. }
    exists (a :: snaps). split.
    + rewrite (dl_trace _ _ _ _ D), Htr, observers_cons, Hh, <- app_assoc. done.
    + rewrite observers_cons, Hh. simpl. by rewrite (dl_length _ _ _ _ D).
    + constructor; [done|apply D].
    + intros b [->|Hb]%elem_of_cons; [done|].
      apply (dl_fresh _ _ _ _ D) in Hb. rewrite Harr, dom_insert_L in Hb. set_solver.
    + intros b. rewrite (dl_arrays _ _ _ _ D), Hel, Harr.
      destruct (decide (b = a)) as [->|Hba].
      * rewrite decide_False by done. rewrite decide_True by set_solver.
        by rewrite lookup_insert_eq.
      * rewrite lookup_insert_ne by done.
        destruct (decide (b ∈ snaps)).
        -- rewrite decide_True; [done|set_solver].
        -- rewrite decide_False; [done|set_solver].
    + pose proof (dl_allData _ _ _ _ D) as Hall.
      destruct (decide (DataHandler ∈ hs)) as [Hin|Hnin].
      * rewrite decide_True by set_solver. set_solver.
      * rewrite Hall. destruct (decide (h = DataHandler)) as [->|Hhd].
        -- rewrite decide_True by set_solver. unfold s1. simpl. set_solver.
        -- rewrite decide_False by set_solver.
           unfold s1, dataSdk.onDataChanged. by destruct h.
    + rewrite (dl_localStorage _ _ _ _ D). unfold s1, dataSdk.onDataChanged. by destruct h.
    + rewrite (dl_objects _ _ _ _ D). unfold s1, dataSdk.onDataChanged. by destruct h.
    + by rewrite (dl_data _ _ _ _ D).
    + rewrite (dl_subscribers _ _ _ _ D). unfold s1, dataSdk.onDataChanged. by destruct h.
    + rewrite (dl_config _ _ _ _ D). unfold s1, dataSdk.onDataChanged. by destruct h.
    + rewrite (dl_onConfigChangeCb _ _ _ _ D). unfold s1, dataSdk.onDataChanged. by destruct h.
    + rewrite (dl_elementSdk_config _ _ _ _ D). unfold s1, dataSdk.onDataChanged. by destruct h.
    + rewrite (dl_currentUser _ _ _ _ D). unfold s1, dataSdk.onDataChanged. by destruct h.
  - destruct (IH s Hdata) as [snaps D]. exists snaps.
    assert (h ≠ DataHandler) as Hhd by (intros ->; done).
    destruct D. split; try done.
    + by rewrite observers_cons, Hh.
    + by rewrite observers_cons, Hh.
    + destruct (decide (DataHandler ∈ hs)).
      * rewrite decide_True; [done|set_solver].
      * rewrite decide_False; [done|set_solver].
Qed.

Section store_facts.
Context `{JSON}.

Lemma notify_save_committed m :
  data m ∈ dom (arrays m) →
  ∃ snaps, committed snaps m (dataSdk.notify (dataSdk.save m)).
Proof.
  intros Hdata. unfold dataSdk.notify.
  destruct (foldl_deliver_delivered (subscribers (dataSdk.save m)) (dataSdk.save m))
    as [snaps D]; [done|].
  exists snaps. destruct D. split; try done.
  rewrite dl_trace0. simpl. by rewrite <- app_assoc.
Qed.

Lemma committed_elems snaps m s' :
  data m ∈ dom (arrays m) → committed snaps m s' →
  elems s' (data s') = elems m (data m).
Proof.
  intros Hdata C. unfold elems. rewrite (cm_data _ _ _ C), (cm_arrays _ _ _ C).
  rewrite decide_False; [done|]. intros Hin. by apply (cm_fresh _ _ _ C) in Hin.
Qed.

Lemma committed_deref snaps m s' l : committed snaps m s' → deref s' l = deref m l.
Proof. intros C. unfold deref. by rewrite (cm_objects _ _ _ C). Qed.

Lemma committed_collection snaps m s' :
  data m ∈ dom (arrays m) → committed snaps m s' → collection s' = collection m.
Proof.
  intros Hdata C. unfold collection, records.
  rewrite (committed_elems _ _ _ Hdata C).
  apply list_fmap_ext. intros _ l _. by apply (committed_deref snaps).
Qed.

Lemma committed_snapshot snaps m s' a :
  committed snaps m s' → a ∈ snaps →
  elems s' a = elems m (data m) ∧ records s' a = collection m.
Proof.
  intros C Ha. assert (elems s' a = elems m (data m)) as Hel.
  { unfold elems at 1. rewrite (cm_arrays _ _ _ C). by rewrite decide_True. }
  split; [done|]. unfold collection, records. rewrite Hel.
  apply list_fmap_ext. intros _ l _. by apply (committed_deref snaps).
Qed.

Lemma committed_events snaps m s' :
  committed snaps m s' →
  events_since m s' = SetItem STORAGE_KEY (saved_text m)
                        :: zip_with DataChanged (observers (subscribers m)) snaps.
Proof.
  intros C. unfold events_since. rewrite (cm_trace _ _ _ C).
  by rewrite drop_app_length.
Qed.
End store_facts.

Lemma filter_fmap {A B} (f : A → B) (P : B → Prop) `{!∀ y, Decision (P y)} (l : list A) :
  filter P (f <$> l) = f <$> filter (λ x, P (f x)) l.
Proof.
  induction l as [|x l IH]; [done|]. csimpl. rewrite !filter_cons, IH.
  by destruct (decide (P (f x))).
Qed.

Lemma filter_all {A} (P : A → Prop) `{!∀ y, Decision (P y)} (l : list A) :
  Forall P l → filter P l = l.
Proof.
  induction 1 as [|x l Hx _ IH]; [done|]. by rewrite filter_cons_True, IH.
Qed.

Section ops.
Context `{JSON}.

Lemma create_eq o s :
  dataSdk.create o s
  = (Result true (Some o) None, dataSdk.notify (dataSdk.save (pushed o s))).
Proof. done. Qed.

Lemma pushed_facts o s :
  data (pushed o s) ∈ dom (arrays (pushed o s))
  ∧ collection (pushed o s) = (collection s ++ [deref s o]).
Proof.
  split.
  - simpl. rewrite dom_insert_L. set_solver.
  - unfold collection, records, elems, pushed. simpl.
    rewrite lookup_insert_eq. simpl. by rewrite fmap_app.
Qed.

Lemma findIndex_Some o s i :
  dataSdk.findIndex o s = Some i ↔
  ∃ x, elems s (data s) !! i = Some x
       ∧ deref s x !! "id" = deref s o !! "id"
       ∧ ∀ j y, elems s (data s) !! j = Some y → j < i →
                deref s y !! "id" ≠ deref s o !! "id".
Proof.
  unfold dataSdk.findIndex. split.
  - intros ([j x] & Hf & ->)%fmap_Some. apply list_find_Some in Hf.
    exists x. naive_solver.
  - intros (x & Hf). apply fmap_Some. exists (i, x). split; [|done].
    apply list_find_Some. naive_solver.
Qed.

Lemma findIndex_None o s :
  dataSdk.findIndex o s = None ↔
  ∀ x, x ∈ collection s → x !! "id" ≠ deref s o !! "id".
Proof.
  unfold dataSdk.findIndex. rewrite fmap_None, list_find_None, Forall_forall.
  unfold collection, records. split.
  - intros Hall x (l & -> & Hl)%list_elem_of_fmap. by apply Hall.
  - intros Hall l Hl. apply Hall, list_elem_of_fmap. eauto.
Qed.

Lemma update_eq o s i :
  dataSdk.findIndex o s = Some i →
  dataSdk.update o s
  = (Result true None None, dataSdk.notify (dataSdk.save (replaced i o s))).
Proof. intros Hi. unfold dataSdk.update. by rewrite Hi. Qed.

Lemma update_not_found o s :
  dataSdk.findIndex o s = None →
  dataSdk.update o s = (Result false None (Some "not_found"), s).
Proof. intros Hi. unfold dataSdk.update. by rewrite Hi. Qed.

Lemma replaced_facts i o s :
  data (replaced i o s) ∈ dom (arrays (replaced i o s))
  ∧ collection (replaced i o s) = (<[i := deref s o]> (collection s)).
Proof.
  split.
  - simpl. rewrite dom_insert_L. set_solver.
  - unfold collection, records, elems, replaced. simpl.
    rewrite lookup_insert_eq. simpl. by rewrite list_fmap_insert.
Qed.

Lemma filtered_facts id s :
  data (filtered id s) ∈ dom (arrays (filtered id s))
  ∧ collection (filtered id s) = filter (λ x, x !! "id" ≠ id) (collection s)
  ∧ (data (filtered id s) ∉ dom (arrays s))
  ∧ ∀ a, a ∈ dom (arrays s) → arrays (filtered id s) !! a = arrays s !! a.
Proof.
  split_and!.
  - simpl. rewrite dom_insert_L. set_solver.
  - unfold collection, records, elems, filtered. simpl.
    rewrite lookup_insert_eq. simpl. by rewrite filter_fmap.
  - apply is_fresh.
  - intros a Ha. simpl. rewrite lookup_insert_ne; [done|].
    intros <-. by apply (fresh_array_not_allocated s).
Qed.

Lemma delete_eq id s :
  dataSdk.delete id s
  = (Result (negb (length (collection (filtered id s)) =? length (collection s))%nat)
            None None,
     dataSdk.notify (dataSdk.save (filtered id s))).
Proof.
  destruct (filtered_facts id s) as (Hm & _).
  destruct (notify_save_committed _ Hm) as [snaps C].
  unfold dataSdk.delete, new_array. cbv zeta. fold (filtered id s).
  rewrite (committed_elems _ _ _ Hm C).
  unfold collection, records. by rewrite !length_fmap.
Qed.

Lemma cleared_facts s :
  data (cleared s) ∈ dom (arrays (cleared s))
  ∧ collection (cleared s) = []
  ∧ (data (cleared s) ∉ dom (arrays s))
  ∧ ∀ a, a ∈ dom (arrays s) → arrays (cleared s) !! a = arrays s !! a.
Proof.
  split_and!.
  - simpl. rewrite dom_insert_L. set_solver.
  - unfold collection, records, elems, cleared. simpl. by rewrite lookup_insert_eq.
  - apply is_fresh.
  - intros a Ha. simpl. rewrite lookup_insert_ne; [done|].
    intros <-. by apply (fresh_array_not_allocated s).
Qed.

Lemma reset_eq s :
  dataSdk.reset s = (Result true None None, dataSdk.notify (dataSdk.save (cleared s))).
Proof. done. Qed.
End ops.

Section frames.
Context `{JSON}.

Lemma committed_frame snaps m s' a :
  committed snaps m s' → a ∈ dom (arrays m) → arrays s' !! a = arrays m !! a.
Proof.
  intros C Ha. rewrite (cm_arrays _ _ _ C). rewrite decide_False; [done|].
  intros Hin. by apply (cm_fresh _ _ _ C) in Hin.
Qed.

Lemma eval_arg_frame a s :
  let '(o, s1) := eval_arg a s in
  localStorage s1 = localStorage s ∧ arrays s1 = arrays s ∧ trace s1 = trace s
  ∧ data s1 = data s ∧ subscribers s1 = subscribers s
  ∧ (∀ l, l ∈ dom (objects s) → objects s1 !! l = objects s !! l)
  ∧ (arg_ok a s → o ∈ dom (objects s1)).
Proof.
  destruct a as [o|l]; simpl; [|done].
  split_and!; try done.
  - intros l Hl. rewrite lookup_insert_ne; [done|]. intros <-.
    by apply (fresh_object_not_allocated s).
  - rewrite dom_insert_L. set_solver.
Qed.

Lemma init_delivered h s :
  data s ∈ dom (arrays s) →
  let s1 := match h with
            | Some h => if bool_decide (h ∈ subscribers s) then s
                        else set_subscribers (subscribers s ++ [h]) s
            | None => s
            end in
  ∃ snaps, delivered (subscribers s1) snaps s1 (dataSdk.init h s).2
           ∧ arrays s1 = arrays s ∧ data s1 = data s ∧ trace s1 = trace s
           ∧ objects s1 = objects s ∧ localStorage s1 = localStorage s.
Proof.
  intros Hdata s1.
  assert (arrays s1 = arrays s ∧ data s1 = data s ∧ trace s1 = trace s
          ∧ objects s1 = objects s ∧ localStorage s1 = localStorage s)
    as (Ha & Hd & Ht & Ho & Hl).
  { unfold s1. destruct h as [h|]; [|done]. by case_bool_decide. }
  destruct (foldl_deliver_delivered (subscribers s1) s1) as [snaps D].
  { by rewrite Hd, Ha. }
  exists snaps. split_and!; done.
Qed.

Lemma step_arrays_frame c s a :
  data s ∈ dom (arrays s) → a ∈ dom (arrays s) → a ≠ data s →
  let s' := (step c s).2 in
  arrays s' !! a = arrays s !! a ∧ data s' ∈ dom (arrays s')
  ∧ a ∈ dom (arrays s') ∧ a ≠ data s'.
Proof.
  intros Hdata Ha Hne s'.
  assert (∀ s2, arrays s2 !! a = arrays s !! a → a ∈ dom (arrays s2)) as Hdom.
  { intros s2 Heq. apply elem_of_dom. rewrite Heq. by apply elem_of_dom. }
  assert (∀ s2 snaps m, committed snaps m s2 → data m ∈ dom (arrays m) →
                     arrays m !! a = arrays s !! a → a ≠ data m →
          arrays s2 !! a = arrays s !! a ∧ data s2 ∈ dom (arrays s2)
          ∧ a ∈ dom (arrays s2) ∧ a ≠ data s2) as Hcommit.
  { intros s2 snaps m C Hm Heq Hnm.
    assert (arrays s2 !! a = arrays s !! a) as Hs2.
    { rewrite <- Heq. apply (committed_frame snaps m); [done|]. by apply Hdom. }
    split_and!; [done| |by apply Hdom|by rewrite (cm_data _ _ _ C)].
    apply elem_of_dom. rewrite (cm_data _ _ _ C), (committed_frame snaps m) by done.
    by apply elem_of_dom. }
  destruct c as [h|ar|ar|id|]; unfold s'; clear s'; cbn [step].
  - destruct (init_delivered h s Hdata) as (snaps & D & Harr & Hd & _).
    set (s1 := match h with Some _ => _ | None => _ end) in *.
    assert (arrays (dataSdk.init h s).2 !! a = arrays s !! a) as Heq.
    { rewrite (dl_arrays _ _ _ _ D), <- Harr. rewrite decide_False; [done|].
      intros Hin%(dl_fresh _ _ _ _ D). apply Hin. by rewrite Harr. }
    split_and!; [done| |by apply Hdom|by rewrite (dl_data _ _ _ _ D), Hd].
    apply elem_of_dom. rewrite (dl_data _ _ _ _ D), (dl_arrays _ _ _ _ D), Hd.
    rewrite decide_False.
    + rewrite Harr. by apply elem_of_dom.
    + intros Hin%(dl_fresh _ _ _ _ D). apply Hin. by rewrite Harr.
  - pose proof (eval_arg_frame ar s) as Hev.
    destruct (eval_arg ar s) as [o s1].
    destruct Hev as (_ & Harr & _ & Hd & _).
    rewrite create_eq. simpl.
    destruct (pushed_facts o s1) as [Hm _].
    destruct (notify_save_committed _ Hm) as [snaps C].
    apply (Hcommit _ _ _ C Hm); unfold pushed; simpl.
    + rewrite Hd, Harr. by rewrite lookup_insert_ne.
    + by rewrite Hd.
  - pose proof (eval_arg_frame ar s) as Hev.
    destruct (eval_arg ar s) as [o s1].
    destruct Hev as (_ & Harr & _ & Hd & _).
    destruct (dataSdk.findIndex o s1) as [i|] eqn:Hi.
    + rewrite (update_eq _ _ _ Hi). simpl.
      destruct (replaced_facts i o s1) as [Hm _].
      destruct (notify_save_committed _ Hm) as [snaps C].
      apply (Hcommit _ _ _ C Hm); unfold replaced; simpl.
      * rewrite Hd, Harr. by rewrite lookup_insert_ne.
      * by rewrite Hd.
    + rewrite (update_not_found _ _ Hi). simpl. rewrite Harr, Hd.
      split_and!; [done|done|done|done].
  - rewrite delete_eq. simpl.
    destruct (filtered_facts id s) as (Hm & _ & Hfr & Hold).
    destruct (notify_save_committed _ Hm) as [snaps C].
    apply (Hcommit _ _ _ C Hm); [by apply Hold|by intros ->].
  - rewrite reset_eq. simpl.
    destruct (cleared_facts s) as (Hm & _ & Hfr & Hold).
    destruct (notify_save_committed _ Hm) as [snaps C].
    apply (Hcommit _ _ _ C Hm); [by apply Hold|by intros ->].
Qed.

Lemma run_arrays_frame cs s a :
  data s ∈ dom (arrays s) → a ∈ dom (arrays s) → a ≠ data s →
  arrays (run cs s) !! a = arrays s !! a.
Proof.
  revert s. induction cs as [|c cs IH]; intros s Hdata Ha Hne; [done|].
  destruct (step_arrays_frame c s a Hdata Ha Hne) as (Heq & Hd' & Ha' & Hne').
  unfold run in *. simpl. rewrite IH; done.
Qed.
End frames.

Section store_claims.
Context `{JSON}.

Lemma events_since_refl s : events_since s s = [].
Proof. unfold events_since. by rewrite drop_all. Qed.

(** C1. [update] of a record whose identifier is not in the collection
    returns the not-found result and leaves the whole page state as it was
    (so the collection in memory, the stored text and the trace: nothing is
    written and nobody is notified). When the identifier is present, the
    first record with that identifier is replaced by the given record as a
    whole, the collection is written to storage and every observer is
    notified once. *)
Theorem update_not_found_or_replaced (o : loc) (s : state) :
  ((∀ x, x ∈ collection s → x !! "id" ≠ deref s o !! "id") →
     let '(r, s') := dataSdk.update o s in
     r = Result false None (Some "not_found")
     ∧ s' = s
     ∧ collection s' = collection s
     ∧ getItem STORAGE_KEY s' = getItem STORAGE_KEY s
     ∧ events_since s s' = [])
  ∧
  ((∃ x, x ∈ collection s ∧ x !! "id" = deref s o !! "id") →
     let '(r, s') := dataSdk.update o s in
     ∃ i old snaps,
       collection s !! i = Some old
       ∧ old !! "id" = deref s o !! "id"
       ∧ (∀ j y, collection s !! j = Some y → j < i → y !! "id" ≠ deref s o !! "id")
       ∧ r = Result true None None
       ∧ collection s' = <[i := deref s o]> (collection s)
       ∧ collection s' !! i = Some (deref s o)
       ∧ getItem STORAGE_KEY s' = Some (JSON_stringify (json_of_collection (collection s')))
       ∧ events_since s s'
         = SetItem STORAGE_KEY (JSON_stringify (json_of_collection (collection s')))
             :: zip_with DataChanged (observers (subscribers s)) snaps
       ∧ length snaps = length (observers (subscribers s))).
Proof.
  split.
  - intros Habsent%findIndex_None. rewrite (update_not_found _ _ Habsent).
    by rewrite events_since_refl.
  - intros (x & Hx & Hid).
    destruct (dataSdk.findIndex o s) as [i|] eqn:Hi.
    2: { pose proof (proj1 (findIndex_None o s) Hi x Hx) as Hn. done. }
    rewrite (update_eq _ _ _ Hi).
    destruct (replaced_facts i o s) as [Hm Hcol].
    destruct (notify_save_committed _ Hm) as [snaps C].
    set (s' := dataSdk.notify _) in *.
    apply findIndex_Some in Hi as (l & Hl & Hlid & Hfirst).
    assert (collection s' = <[i := deref s o]> (collection s)) as Hcol'.
    { by rewrite (committed_collection _ _ _ Hm C). }
    exists i, (deref s l), snaps. split_and!.
    + unfold collection, records. by rewrite list_lookup_fmap, Hl.
    + done.
    + intros j y Hy Hj. unfold collection, records in Hy.
      rewrite list_lookup_fmap in Hy. apply fmap_Some in Hy as (l' & Hl' & ->).
      by apply (Hfirst j).
    + done.
    + done.
    + rewrite Hcol'. apply list_lookup_insert_eq.
      unfold collection, records. rewrite length_fmap. by eapply lookup_lt_Some.
    + unfold getItem. rewrite (cm_localStorage _ _ _ C), lookup_insert_eq.
      unfold saved_text. by rewrite (committed_collection _ _ _ Hm C).
    + rewrite (committed_collection _ _ _ Hm C).
      change (events_since s s') with (events_since (replaced i o s) s').
      by rewrite (committed_events snaps _ _ C).
    + apply C.
Qed.

(** What [save(); notify();] leaves behind, in the terms of the claims. *)
Lemma committed_broadcast snaps m s' :
  data m ∈ dom (arrays m) → committed snaps m s' →
  events_since m s'
  = SetItem STORAGE_KEY (JSON_stringify (json_of_collection (collection s')))
      :: zip_with DataChanged (observers (subscribers m)) snaps
  ∧ length snaps = length (observers (subscribers m))
  ∧ NoDup snaps
  ∧ getItem STORAGE_KEY s' = Some (JSON_stringify (json_of_collection (collection s')))
  ∧ ∀ a, a ∈ snaps →
      (a ∉ dom (arrays m)) ∧ a ≠ data s'
      ∧ records s' a = collection s'
      ∧ length (elems s' a) = length (collection s')
      ∧ ∀ cs, elems (run cs s') a = elems s' a.
Proof.
  intros Hm C. pose proof (committed_collection _ _ _ Hm C) as Hcol.
  split_and!.
  - rewrite (committed_events snaps _ _ C). unfold saved_text. by rewrite Hcol.
  - apply C.
  - apply C.
  - unfold getItem. rewrite (cm_localStorage _ _ _ C), lookup_insert_eq.
    unfold saved_text. by rewrite Hcol.
  - intros a Ha. pose proof (cm_fresh _ _ _ C a Ha) as Hfresh.
    destruct (committed_snapshot _ _ _ a C Ha) as [Hel Hrec].
    assert (a ≠ data s') as Hne.
    { rewrite (cm_data _ _ _ C). by intros ->. }
    split_and!; [done|done|by rewrite Hcol| |].
    + rewrite Hel, Hcol. unfold collection, records. by rewrite length_fmap.
    + intros cs. unfold elems. rewrite run_arrays_frame; [done| |  |done].
      * apply elem_of_dom. rewrite (cm_data _ _ _ C), (committed_frame snaps m) by done.
        by apply elem_of_dom.
      * apply elem_of_dom. rewrite (cm_arrays _ _ _ C). by rewrite decide_True.
Qed.

(** A call that changes the collection ends in [save(); notify();] on a
    state [m] that differs from [s] in the heap only. *)
Lemma step_committed (c : call) (s : state) :
  mutates c s = true →
  ∃ m snaps, data m ∈ dom (arrays m)
             ∧ committed snaps m (step c s).2
             ∧ trace m = trace s
             ∧ subscribers m = subscribers s
             ∧ dom (arrays s) ⊆ dom (arrays m).
Proof.
  intros Hmut.
  destruct c as [h|ar|ar|id|]; cbn [step mutates] in *.
  - done.
  - pose proof (eval_arg_frame ar s) as Hev.
    destruct (eval_arg ar s) as [o s1].
    destruct Hev as (_ & Harr & Htr & Hd & Hsub & _).
    rewrite create_eq. cbn [snd].
    destruct (pushed_facts o s1) as [Hm _].
    destruct (notify_save_committed _ Hm) as [snaps C].
    exists (pushed o s1), snaps. split_and!; [done|done|done|done|].
    unfold pushed. simpl. rewrite dom_insert_L, Harr. set_solver.
  - pose proof (eval_arg_frame ar s) as Hev.
    destruct (eval_arg ar s) as [o s1].
    destruct Hev as (_ & Harr & Htr & Hd & Hsub & _).
    apply bool_decide_eq_true in Hmut as [i Hi].
    rewrite (update_eq _ _ _ Hi). cbn [snd].
    destruct (replaced_facts i o s1) as [Hm _].
    destruct (notify_save_committed _ Hm) as [snaps C].
    exists (replaced i o s1), snaps. split_and!; [done|done|done|done|].
    unfold replaced. simpl. rewrite dom_insert_L, Harr. set_solver.
  - rewrite delete_eq. cbn [snd].
    destruct (filtered_facts id s) as (Hm & _).
    destruct (notify_save_committed _ Hm) as [snaps C].
    exists (filtered id s), snaps. split_and!; [done|done|done|done|].
    unfold filtered. simpl. rewrite dom_insert_L. set_solver.
  - rewrite reset_eq. cbn [snd].
    destruct (cleared_facts s) as (Hm & _).
    destruct (notify_save_committed _ Hm) as [snaps C].
    exists (cleared s), snaps. split_and!; [done|done|done|done|].
    unfold cleared. simpl. rewrite dom_insert_L. set_solver.
Qed.

(** A mutating call is one on which the code's search succeeds. *)
Lemma is_mutation_mutates (c : call) (s : state) : is_mutation c s → mutates c s = true.
Proof.
  destruct c as [h|a|a|id|]; simpl; try done.
  destruct (eval_arg a s) as [o s1]. intros (x & Hx & Hid).
  apply bool_decide_eq_true. destruct (dataSdk.findIndex o s1) as [i|] eqn:Hi; [done|].
  by destruct (proj1 (findIndex_None o s1) Hi x Hx).
Qed.

(** C2. Every call that changes the collection (create, update of a
    record whose identifier some record of the collection has, delete,
    reset) writes the collection once and then invokes [onDataChanged]
    exactly once on each subscribed handler that has the method, in
    registration order. Each invocation gets an array of its own: one that
    did not exist before the call, that is not the array [data] refers to,
    that holds the records of the collection as the call left it (so as
    many), and that no later call to the SDK changes. *)
Theorem mutation_broadcasts_once (c : call) (s : state) :
  is_mutation c s →
  let s' := (step c s).2 in
  ∃ snaps : list loc,
    events_since s s'
    = SetItem STORAGE_KEY (JSON_stringify (json_of_collection (collection s')))
        :: zip_with DataChanged (observers (subscribers s)) snaps
    ∧ length snaps = length (observers (subscribers s))
    ∧ NoDup snaps
    ∧ ∀ a, a ∈ snaps →
        (a ∉ dom (arrays s)) ∧ a ≠ data s'
        ∧ records s' a = collection s'
        ∧ length (elems s' a) = length (collection s')
        ∧ ∀ cs, elems (run cs s') a = elems s' a.
Proof.
  intros Hmut%is_mutation_mutates s'.
  destruct (step_committed c s Hmut) as (m & snaps & Hm & C & Htr & Hsub & Hdom).
  fold s' in C.
  destruct (committed_broadcast _ _ _ Hm C) as (Hev & Hlen & Hnd & _ & Hsnap).
  exists snaps. unfold events_since in *. rewrite Htr, Hsub in *.
  split_and!; [done..|].
  intros a Ha. destruct (Hsnap a Ha) as (Hfr & ?). split; [|done].
  intros Hin. apply Hfr. set_solver.
Qed.

Lemma filter_filter_same {A} (P : A → Prop) `{!∀ x, Decision (P x)} (l : list A) :
  filter P (filter P l) = filter P l.
Proof. apply filter_all, Forall_forall. by intros x [? _]%list_elem_of_filter. Qed.

(** C4. [delete] keeps exactly the records whose identifier differs from
    the given one, writes the collection and notifies whether or not
    anything was removed, returns no error, and reports [isOk] exactly when
    the collection got shorter. With no record of that identifier it
    reports [isOk: false] and the collection is the same; a second delete
    of the same identifier leaves the collection as the first one did. *)
Theorem delete_removes_all_and_reports (id : option value) (s : state) :
  let '(r, s') := dataSdk.delete id s in
  collection s' = filter (λ x, x !! "id" ≠ id) (collection s)
  ∧ (∀ x, x ∈ collection s' → x !! "id" ≠ id)
  ∧ getItem STORAGE_KEY s' = Some (JSON_stringify (json_of_collection (collection s')))
  ∧ (∃ snaps, events_since s s'
              = SetItem STORAGE_KEY (JSON_stringify (json_of_collection (collection s')))
                  :: zip_with DataChanged (observers (subscribers s)) snaps
              ∧ length snaps = length (observers (subscribers s)))
  ∧ error r = None
  ∧ isOk r = bool_decide (length (collection s') < length (collection s))
  ∧ ((∀ x, x ∈ collection s → x !! "id" ≠ id) →
       isOk r = false ∧ collection s' = collection s)
  ∧ (let '(r2, s2) := dataSdk.delete id s' in
     collection s2 = collection s' ∧ isOk r2 = false ∧ error r2 = None).
Proof.
  assert (∀ s, let '(r, s') := dataSdk.delete id s in
    collection s' = filter (λ x, x !! "id" ≠ id) (collection s)
    ∧ getItem STORAGE_KEY s' = Some (JSON_stringify (json_of_collection (collection s')))
    ∧ (∃ snaps, events_since s s'
              = SetItem STORAGE_KEY (JSON_stringify (json_of_collection (collection s')))
                  :: zip_with DataChanged (observers (subscribers s)) snaps
              ∧ length snaps = length (observers (subscribers s)))
    ∧ error r = None
    ∧ isOk r = bool_decide (length (collection s') < length (collection s))) as Hone.
  { clear s. intros s. rewrite delete_eq.
    destruct (filtered_facts id s) as (Hm & Hcol & _).
    destruct (notify_save_committed _ Hm) as [snaps C].
    destruct (committed_broadcast _ _ _ Hm C) as (Hev & Hlen & _ & Hst & _).
    pose proof (committed_collection _ _ _ Hm C) as Hcol'.
    split_and!.
    - by rewrite Hcol'.
    - done.
    - exists snaps. split; [exact Hev|done].
    - done.
    - rewrite Hcol', Hcol. simpl.
      pose proof (length_filter (λ x : obj, x !! "id" ≠ id) (collection s)).
      case_bool_decide; [apply negb_true_iff, Nat.eqb_neq|apply negb_false_iff, Nat.eqb_eq]; lia. }
  pose proof (Hone s) as H1.
  destruct (dataSdk.delete id s) as [r s'].
  destruct H1 as (Hcol & Hst & Hev & Herr & Hok).
  split_and!; try done.
  - intros x. rewrite Hcol. by intros [? _]%list_elem_of_filter.
  - intros Habsent.
    assert (collection s' = collection s) as Heq.
    { rewrite Hcol. by apply filter_all, Forall_forall. }
    split; [|done]. rewrite Hok, Heq. apply bool_decide_eq_false. lia.
  - pose proof (Hone s') as H2.
    destruct (dataSdk.delete id s') as [r2 s2].
    destruct H2 as (Hcol2 & _ & _ & Herr2 & Hok2).
    assert (collection s2 = collection s') as Heq.
    { rewrite Hcol2, Hcol. apply filter_filter_same. }
    split_and!; [done| |done]. rewrite Hok2, Heq. apply bool_decide_eq_false. lia.
Qed.

Lemma observers_app hs1 hs2 : observers (hs1 ++ hs2) = observers hs1 ++ observers hs2.
Proof. unfold observers. apply filter_app. Qed.

Lemma to_handler_zip_absent h hs snaps :
  h ∉ hs → filter (to_handler h) (zip_with DataChanged hs snaps) = [].
Proof.
  revert snaps. induction hs as [|h' hs IH]; intros [|a snaps] Hh; try done.
  simpl. rewrite filter_cons_False; [apply IH|]; set_solver.
Qed.

Lemma init_spec (h : handler) (s : state) :
  data s ∈ dom (arrays s) →
  let s' := (dataSdk.init (Some h) s).2 in
  (dataSdk.init (Some h) s).1 = Result true None None
  ∧ subscribers s' = (if decide (h ∈ subscribers s) then subscribers s
                      else subscribers s ++ [h])
  ∧ collection s' = collection s
  ∧ localStorage s' = localStorage s
  ∧ data s' ∈ dom (arrays s')
  ∧ elems s' (data s') = elems s (data s)
  ∧ objects s' = objects s
  ∧ ∃ snaps, trace s' = trace s ++ zip_with DataChanged (observers (subscribers s')) snaps
             ∧ length snaps = length (observers (subscribers s'))
             ∧ ∀ a, a ∈ snaps → (a ∉ dom (arrays s)) ∧ records s' a = collection s.
Proof.
  intros Hdata s'.
  destruct (init_delivered (Some h) s Hdata) as (snaps & D & Harr & Hd & Htr & Hobj & Hls).
  fold s' in D. set (s1 := if bool_decide _ then _ else _) in *.
  assert (subscribers s1 = if decide (h ∈ subscribers s) then subscribers s
                           else subscribers s ++ [h]) as Hsub.
  { unfold s1. case_bool_decide; by rewrite ?decide_True, ?decide_False by done. }
  assert (data s' ∉ snaps) as Hnot.
  { rewrite (dl_data _ _ _ _ D). intros Hin%(dl_fresh _ _ _ _ D).
    apply Hin. by rewrite Hd, Harr. }
  assert (elems s' (data s') = elems s (data s)) as Hel.
  { unfold elems. rewrite (dl_arrays _ _ _ _ D), decide_False by done.
    by rewrite (dl_data _ _ _ _ D), Hd, Harr. }
  assert (∀ l, deref s' l = deref s l) as Hderef.
  { intros l. unfold deref. by rewrite (dl_objects _ _ _ _ D), Hobj. }
  split_and!.
  - done.
  - by rewrite (dl_subscribers _ _ _ _ D).
  - unfold collection, records. rewrite Hel. apply list_fmap_ext. by intros.
  - by rewrite (dl_localStorage _ _ _ _ D).
  - apply elem_of_dom. rewrite (dl_arrays _ _ _ _ D), decide_False by done.
    rewrite (dl_data _ _ _ _ D), Hd, Harr. by apply elem_of_dom.
  - done.
  - by rewrite (dl_objects _ _ _ _ D).
  - exists snaps. rewrite (dl_subscribers _ _ _ _ D). split_and!.
    + by rewrite (dl_trace _ _ _ _ D), Htr.
    + apply D.
    + intros a Ha. split.
      * rewrite <- Harr. by apply (dl_fresh _ _ _ _ D).
      * unfold collection, records, elems at 1.
        rewrite (dl_arrays _ _ _ _ D), decide_True by done. simpl.
        unfold elems. rewrite Hd, Harr. apply list_fmap_ext. by intros.
Qed.

(** C5. [init] with a handler returns success and registers the handler
    unless it is registered already, so a list of subscribers without
    repetition stays so. It then hands every registered observer, the new
    one included, a fresh copy of the current collection, and changes
    neither the collection nor the storage. In particular: on an empty
    store, after one [create] and then the [init] of an observer that was
    not registered before, that observer has been called exactly once, with
    a snapshot that holds exactly the created record. *)
Theorem subscribe_registers_once_and_delivers (h : handler) (s : state) :
  data s ∈ dom (arrays s) →
  (let '(r, s') := dataSdk.init (Some h) s in
   r = Result true None None
   ∧ subscribers s' = (if decide (h ∈ subscribers s) then subscribers s
                       else subscribers s ++ [h])
   ∧ (NoDup (subscribers s) → NoDup (subscribers s'))
   ∧ collection s' = collection s
   ∧ localStorage s' = localStorage s
   ∧ (∃ snaps, events_since s s' = zip_with DataChanged (observers (subscribers s')) snaps
               ∧ length snaps = length (observers (subscribers s'))
               ∧ ∀ a, a ∈ snaps → (a ∉ dom (arrays s)) ∧ records s' a = collection s)
   ∧ (has_onDataChanged h = true → h ∈ observers (subscribers s')))
  ∧ (∀ o, collection s = [] → h ∉ subscribers s → has_onDataChanged h = true →
       let s1 := (step (Create (Lit o)) s).2 in
       let s2 := (dataSdk.init (Some h) s1).2 in
       ∃ snap, filter (to_handler h) (events_since s s2) = [DataChanged h snap]
               ∧ records s2 snap = [o]).
Proof.
  intros Hdata. split.
  - destruct (init_spec h s Hdata) as (Hr & Hsub & Hcol & Hls & _ & _ & _ & snaps & Htr & Hlen & Hsn).
    destruct (dataSdk.init (Some h) s) as [r s']. simpl in *.
    split_and!; try done.
    + rewrite Hsub. case_decide; [done|]. intros Hnd.
      apply NoDup_app. split_and!; [done|set_solver|apply NoDup_singleton].
    + exists snaps. split_and!; [|done..].
      unfold events_since. by rewrite Htr, drop_app_length.
    + intros Hh. rewrite Hsub. unfold observers. apply list_elem_of_filter.
      split; [done|]. case_decide; set_solver.
  - intros o Hempty Hfresh Hh s1 s2.
    (* the create *)
    assert (∃ l, s1 = dataSdk.notify (dataSdk.save (pushed l (new_object o s).2))
              ∧ l = (new_object o s).1) as (l & Hs1 & Hl) by (by eexists).
    set (s0 := (new_object o s).2) in *.
    destruct (pushed_facts l s0) as [Hm Hcolm].
    destruct (notify_save_committed _ Hm) as [sn1 C1]. rewrite <- Hs1 in C1.
    pose proof (committed_collection _ _ _ Hm C1) as Hcol1.
    assert (collection s0 = []) as Hempty0.
    { unfold collection, records in *. apply fmap_nil_inv in Hempty.
      unfold s0, elems in *. simpl. by rewrite Hempty. }
    assert (deref s0 l = o) as Hlo.
    { unfold deref, s0. rewrite Hl. simpl. by rewrite lookup_insert_eq. }
    rewrite Hcolm, Hempty0, Hlo in Hcol1. simpl in Hcol1.
    assert (data s1 ∈ dom (arrays s1)) as Hd1.
    { apply elem_of_dom. rewrite (cm_data _ _ _ C1), (committed_frame sn1 _ _ _ C1 Hm).
      by apply elem_of_dom. }
    assert (subscribers s1 = subscribers s) as Hsub1 by (by rewrite (cm_subscribers _ _ _ C1)).
    (* the init *)
    destruct (init_spec h s1 Hd1) as (_ & Hsub & _ & _ & _ & _ & _ & sn2 & Htr & Hlen & Hsn).
    fold s2 in Hsub, Htr, Hlen, Hsn.
    rewrite Hsub1, decide_False in Hsub by done.
    rewrite Hsub, observers_app in Htr, Hlen.
    assert (observers [h] = [h]) as Hoh.
    { by rewrite observers_cons, Hh. }
    rewrite Hoh in Htr, Hlen. rewrite length_app in Hlen. simpl in Hlen.
    destruct (decide (sn2 = [])) as [->|Hne]; [simpl in Hlen; lia|].
    destruct (exists_last Hne) as (front & snap & ->).
    rewrite length_app in Hlen. simpl in Hlen.
    rewrite zip_with_app in Htr by lia. simpl in Htr.
    exists snap. split.
    + unfold events_since. rewrite Htr, (cm_trace _ _ _ C1). simpl.
      rewrite <- !app_assoc, drop_app_length. simpl.
      rewrite filter_cons_False by (by intros ?).
      rewrite !filter_app, !to_handler_zip_absent.
      * simpl. rewrite filter_cons_True by done. done.
      * unfold observers. intros [_ ?]%list_elem_of_filter. done.
      * unfold observers. intros [_ ?]%list_elem_of_filter. done.
    + destruct (Hsn snap) as [_ ->]; [set_solver|done].
Qed.
End store_claims.

(** ** Records and JSON values *)

Lemma value_of_json_of_value v : value_of_json (json_of_value v) = Some v.
Proof. by destruct v. Qed.

Lemma obj_of_json_of_obj (o : obj) : obj_of_json (json_of_obj o) = Some o.
Proof.
  unfold obj_of_json, json_of_obj.
  rewrite (mapM_fmap_Some _ (prod_map id json_of_value)).
  - simpl. f_equal. unfold obj_of_members.
    rewrite (list_to_map_proper _ (map_to_list o)).
    + apply list_to_map_to_list.
    + rewrite reverse_Permutation. apply NoDup_fst_map_to_list.
    + apply reverse_Permutation.
  - intros [k v]. simpl. by rewrite value_of_json_of_value.
Qed.

Lemma collection_of_json_of_collection (c : list obj) :
  collection_of_json (json_of_collection c) = Some c.
Proof.
  unfold collection_of_json, json_of_collection.
  apply mapM_fmap_Some, obj_of_json_of_obj.
Qed.

(** ** Start-up *)

Lemma new_objects_spec os s :
  let '(ls, s') := new_objects os s in
  deref s' <$> ls = os
  ∧ (∀ l, l ∈ ls → l ∈ dom (objects s'))
  ∧ (∀ l, l ∈ dom (objects s) → objects s' !! l = objects s !! l)
  ∧ localStorage s' = localStorage s ∧ arrays s' = arrays s ∧ trace s' = trace s
  ∧ data s' = data s ∧ subscribers s' = subscribers s.
Proof.
  revert s. induction os as [|o os IH]; intros s; simpl.
  { split_and!; try done. by intros l ?%elem_of_nil. }
  set (l := fresh (dom (objects s))).
  set (s1 := set_objects <[l := o]> s).
  specialize (IH s1). destruct (new_objects os s1) as [ls s'].
  destruct IH as (Hder & Hall & Hold & Hls & Harr & Htr & Hd & Hsub).
  assert (l ∈ dom (objects s1)) as Hl1.
  { unfold s1. simpl. rewrite dom_insert_L. set_solver. }
  assert (objects s' !! l = Some o) as Hlo.
  { rewrite Hold by done. unfold s1. simpl. by rewrite lookup_insert_eq. }
  split_and!; try done.
  - csimpl. rewrite Hder. f_equal. unfold deref. by rewrite Hlo.
  - intros l' [->|Hl']%elem_of_cons; [|by apply Hall].
    apply elem_of_dom. by rewrite Hlo.
  - intros l' Hl'. rewrite Hold.
    + unfold s1. simpl. rewrite lookup_insert_ne; [done|].
      intros <-. by apply (fresh_object_not_allocated s).
    + unfold s1. simpl. rewrite dom_insert_L. set_solver.
Qed.

Section startup.
Context `{JSON} `{!JSONLaws}.

Lemma load_nothing_usable s :
  nothing_usable STORAGE_KEY s →
  ∃ a, dataSdk.load s = Some (set_data a (set_arrays <[a := []]> s))
       ∧ a = fresh (dom (arrays s)).
Proof.
  intros Hn. exists (fresh (dom (arrays s))). split; [|done].
  unfold dataSdk.load. destruct Hn as [Hnone|(t & Hsome & Hparse)].
  - rewrite Hnone, JSON_parse_empty_array. done.
  - rewrite Hsome. destruct (String.eqb_spec t "") as [->|_].
    + rewrite JSON_parse_empty_array. done.
    + by rewrite Hparse.
Qed.

Lemma load_spec s s1 :
  dataSdk.load s = Some s1 →
  store_ok s1
  ∧ localStorage s1 = localStorage s ∧ trace s1 = trace s
  ∧ subscribers s1 = subscribers s
  ∧ (data s1 ∉ dom (arrays s))
  ∧ (∀ a, a ∈ dom (arrays s) → arrays s1 !! a = arrays s !! a)
  ∧ (collection s1 = [] ∨ persisted s = Some (collection s1)).
Proof.
  unfold dataSdk.load, persisted.
  set (text := match getItem STORAGE_KEY s with Some t => _ | None => _ end).
  assert (∀ xs s0, arrays s0 = arrays s →
            let a := fresh (dom (arrays s0)) in
            let s1 := set_data a (set_arrays <[a := xs]> s0) in
            data s1 ∈ dom (arrays s1) ∧ elems s1 (data s1) = xs
            ∧ (data s1 ∉ dom (arrays s))
            ∧ (∀ b, b ∈ dom (arrays s) → arrays s1 !! b = arrays s !! b)) as Harr.
  { intros xs s0 Heq a s2. simpl.
    assert (a ∉ dom (arrays s)) as Hfr by (rewrite <- Heq; apply is_fresh).
    split_and!.
    - rewrite dom_insert_L. set_solver.
    - unfold elems. simpl. by rewrite lookup_insert_eq.
    - done.
    - intros b Hb. rewrite lookup_insert_ne, Heq; [done|]. by intros ->. }
  destruct (JSON_parse text) as [j|] eqn:Hparse.
  - destruct (collection_of_json j) as [c|] eqn:Hc; [|done].
    pose proof (new_objects_spec c s) as Hobj.
    destruct (new_objects c s) as [ls s0].
    destruct Hobj as (Hder & Hall & Hold & Hls & Ha & Htr & Hd & Hsub).
    destruct (Harr ls s0 Ha) as (Hdata & Hel & Hfr & Hframe).
    unfold new_array. intros [= <-].
    split_and!; try done.
    + split; [done|]. rewrite Hel. done.
    + match goal with |- collection ?s2 = _ ∨ _ =>
        assert (collection s2 = c) as -> end.
      { unfold collection, records. rewrite Hel, <- Hder. done. }
      unfold text in Hparse.
      destruct (getItem STORAGE_KEY s) as [t|] eqn:Hget.
      * destruct (String.eqb_spec t "") as [->|Hne].
        -- rewrite JSON_parse_empty_array in Hparse. injection Hparse as <-.
           simpl in Hc. injection Hc as <-. by left.
        -- right. simpl. rewrite Hparse. simpl. done.
      * rewrite JSON_parse_empty_array in Hparse. injection Hparse as <-.
        simpl in Hc. injection Hc as <-. by left.
  - destruct (Harr [] s eq_refl) as (Hdata & Hel & Hfr & Hframe).
    unfold new_array. intros [= <-].
    split_and!; try done.
    + split; [done|]. rewrite Hel. by intros l ?%elem_of_nil.
    + left. unfold collection, records. by rewrite Hel.
Qed.

Lemma persisted_ext s s' : localStorage s = localStorage s' → persisted s = persisted s'.
Proof. unfold persisted, getItem. by intros ->. Qed.

Lemma persisted_text s c :
  getItem STORAGE_KEY s = Some (JSON_stringify (json_of_collection c)) →
  persisted s = Some c.
Proof.
  intros Hget. unfold persisted. rewrite Hget.
  change (JSON_parse (JSON_stringify (json_of_collection c)) ≫= collection_of_json
          = Some c).
  rewrite JSON_parse_stringify_collection.
  apply collection_of_json_of_collection.
Qed.

Lemma synced_after_commit snaps m s' :
  data m ∈ dom (arrays m) → committed snaps m s' → synced s'.
Proof.
  intros Hm C. apply persisted_text. unfold getItem.
  rewrite (cm_localStorage _ _ _ C), lookup_insert_eq.
  unfold saved_text. by rewrite (committed_collection _ _ _ Hm C).
Qed.

Lemma store_ok_after_commit snaps m s' :
  store_ok m → committed snaps m s' → store_ok s'.
Proof.
  intros [Hm Hall] C. split.
  - apply elem_of_dom. rewrite (cm_data _ _ _ C), (committed_frame snaps m) by done.
    by apply elem_of_dom.
  - rewrite (committed_elems _ _ _ Hm C), (cm_objects _ _ _ C). done.
Qed.

Lemma seedIfEmpty_spec now s :
  store_ok s → collection s = [] ∨ synced s →
  let s' := dataSdk.seedIfEmpty now s in
  store_ok s' ∧ synced s'
  ∧ (collection s = [] → collection s' = [dataSdk.u1 now; dataSdk.u2 now;
                                          dataSdk.f1 now; dataSdk.r1 now])
  ∧ (collection s ≠ [] → s' = s).
Proof.
  intros [Hdata Hall] Hsync s'. unfold s', dataSdk.seedIfEmpty.
  case_bool_decide as Hlen.
  - assert (collection s ≠ []) as Hne.
    { unfold collection, records. intros Heq%fmap_nil_inv. rewrite Heq in Hlen.
      simpl in Hlen. lia. }
    destruct Hsync as [?|?]; [done|]. split_and!; done.
  - assert (elems s (data s) = []) as Hnil.
    { destruct (elems s (data s)); [done|]. simpl in Hlen. lia. }
    pose proof (new_objects_spec [dataSdk.u1 now; dataSdk.u2 now;
                                  dataSdk.f1 now; dataSdk.r1 now] s) as Hobj.
    destruct (new_objects _ s) as [ls s0].
    destruct Hobj as (Hder & Hallocated & Hold & Hls & Ha & Htr & Hd & Hsub).
    set (m := set_arrays _ s0).
    assert (elems s0 (data s0) = []) as Hnil0.
    { unfold elems in *. by rewrite Hd, Ha. }
    assert (elems m (data m) = ls) as Helm.
    { unfold m. unfold elems at 1. simpl. rewrite lookup_insert_eq. simpl.
      by rewrite Hnil0. }
    assert (store_ok m) as Hokm.
    { split.
      - unfold m. simpl. rewrite dom_insert_L. set_solver.
      - rewrite Helm. done. }
    assert (collection m = [dataSdk.u1 now; dataSdk.u2 now;
                            dataSdk.f1 now; dataSdk.r1 now]) as Hcolm.
    { unfold collection, records. rewrite Helm. done. }
    assert (collection (dataSdk.save m) = collection m) as Hcols by done.
    split_and!.
    + done.
    + apply persisted_text. unfold getItem. simpl. by rewrite lookup_insert_eq.
    + by rewrite Hcols.
    + unfold collection, records. rewrite Hnil. done.
Qed.

Lemma start_spec now p s0 :
  dataSdk.start now p = Some s0 → store_ok s0 ∧ synced s0.
Proof.
  unfold dataSdk.start, new_array. cbv zeta.
  set (p1 := set_subscribers [] _).
  destruct (dataSdk.load p1) as [s1|] eqn:Hload; [|done].
  simpl. intros [= <-].
  destruct (load_spec _ _ Hload) as (Hok & Hls & _ & _ & _ & _ & Hsync).
  destruct (seedIfEmpty_spec now s1 Hok) as (? & ? & _); [|done].
  destruct Hsync as [?|Hp]; [by left|right].
  unfold synced. by rewrite (persisted_ext s1 p1).
Qed.
End startup.

(** ** Durability *)

Section durability.
Context `{JSON} `{!JSONLaws}.

Lemma eval_arg_store_ok a s :
  store_ok s → arg_ok a s →
  let '(o, s1) := eval_arg a s in
  store_ok s1 ∧ collection s1 = collection s ∧ o ∈ dom (objects s1)
  ∧ localStorage s1 = localStorage s ∧ elems s1 (data s1) = elems s (data s).
Proof.
  intros [Hdata Hall] Harg. pose proof (eval_arg_frame a s) as Hev.
  destruct (eval_arg a s) as [o s1].
  destruct Hev as (Hls & Harr & _ & Hd & _ & Hold & Ho).
  assert (elems s1 (data s1) = elems s (data s)) as Hel.
  { unfold elems. by rewrite Hd, Harr. }
  assert (∀ l, l ∈ dom (objects s) → l ∈ dom (objects s1)) as Hmono.
  { intros l Hl. apply elem_of_dom. rewrite Hold by done. by apply elem_of_dom. }
  split_and!; [split| |by apply Ho|done|done].
  - by rewrite Hd, Harr.
  - rewrite Hel. auto.
  - unfold collection, records. rewrite Hel. apply list_fmap_ext.
    intros _ l Hl%list_elem_of_lookup_2. unfold deref. by rewrite Hold by auto.
Qed.

Lemma step_preserves c s :
  store_ok s → synced s → call_ok c s →
  store_ok (step c s).2 ∧ synced (step c s).2.
Proof.
  intros Hok Hsync Hcall. pose proof Hok as [Hdata Hall].
  destruct c as [h|ar|ar|id|]; cbn [step call_ok] in *.
  - destruct h as [h|].
    + destruct (init_spec h s Hdata) as (_ & _ & Hcol & Hls & Hd & Hel & Hobj & _).
      split; [split|]; [done| |].
      * by rewrite Hel, Hobj.
      * unfold synced. by rewrite (persisted_ext _ s), Hcol.
    + destruct (init_delivered None s Hdata) as (snaps & D & _).
      cbv zeta in D. pose proof (dl_fresh _ _ _ _ D) as Hfresh.
      assert (data s ∉ snaps) as Hnot by (intros ?%Hfresh; done).
      assert (elems (dataSdk.init None s).2 (data (dataSdk.init None s).2)
              = elems s (data s)) as Hel.
      { unfold elems. rewrite (dl_data _ _ _ _ D), (dl_arrays _ _ _ _ D).
        by rewrite decide_False. }
      split; [split|].
      * apply elem_of_dom. rewrite (dl_data _ _ _ _ D), (dl_arrays _ _ _ _ D).
        rewrite decide_False by done. by apply elem_of_dom.
      * by rewrite Hel, (dl_objects _ _ _ _ D).
      * unfold synced. rewrite (persisted_ext _ s) by apply D.
        rewrite Hsync. f_equal. unfold collection, records. rewrite Hel.
        apply list_fmap_ext. intros. unfold deref. by rewrite (dl_objects _ _ _ _ D).
  - pose proof (eval_arg_store_ok ar s Hok Hcall) as Hev.
    destruct (eval_arg ar s) as [o s1].
    destruct Hev as ([Hd1 Hall1] & Hcol1 & Ho & Hls1 & Hel1).
    rewrite create_eq. cbn [snd].
    destruct (pushed_facts o s1) as [Hm _].
    destruct (notify_save_committed _ Hm) as [snaps C].
    split; [|by apply (synced_after_commit snaps (pushed o s1))].
    apply (store_ok_after_commit snaps (pushed o s1)); [|done].
    split; [done|]. unfold pushed, elems at 1. simpl. rewrite lookup_insert_eq. simpl.
    intros l [?| ->%list_elem_of_singleton]%elem_of_app; auto.
  - pose proof (eval_arg_store_ok ar s Hok Hcall) as Hev.
    destruct (eval_arg ar s) as [o s1].
    destruct Hev as ([Hd1 Hall1] & Hcol1 & Ho & Hls1 & Hel1).
    destruct (dataSdk.findIndex o s1) as [i|] eqn:Hi.
    + rewrite (update_eq _ _ _ Hi). cbn [snd].
      destruct (replaced_facts i o s1) as [Hm _].
      destruct (notify_save_committed _ Hm) as [snaps C].
      split; [|by apply (synced_after_commit snaps (replaced i o s1))].
      apply (store_ok_after_commit snaps (replaced i o s1)); [|done].
      split; [done|]. unfold replaced, elems at 1. simpl. rewrite lookup_insert_eq. simpl.
      intros l Hl. apply list_elem_of_lookup in Hl as [j Hj].
      apply list_lookup_insert_Some in Hj as [(_ & <- & _)|[_ Hj]]; [done|].
      apply Hall1. by eapply list_elem_of_lookup_2.
    + rewrite (update_not_found _ _ Hi). cbn [snd].
      split; [done|]. unfold synced. by rewrite (persisted_ext _ s), Hcol1.
  - rewrite delete_eq. cbn [snd].
    destruct (filtered_facts id s) as (Hm & _).
    destruct (notify_save_committed _ Hm) as [snaps C].
    split; [|by apply (synced_after_commit snaps (filtered id s))].
    apply (store_ok_after_commit snaps (filtered id s)); [|done].
    split; [done|]. unfold filtered, elems at 1. simpl. rewrite lookup_insert_eq. simpl.
    intros l [_ Hl]%list_elem_of_filter. by apply Hall.
  - rewrite reset_eq. cbn [snd].
    destruct (cleared_facts s) as (Hm & _).
    destruct (notify_save_committed _ Hm) as [snaps C].
    split; [|by apply (synced_after_commit snaps (cleared s))].
    apply (store_ok_after_commit snaps (cleared s)); [|done].
    split; [done|]. unfold cleared, elems at 1. simpl. rewrite lookup_insert_eq. simpl.
    by intros l ?%elem_of_nil.
Qed.

Lemma run_preserves cs s :
  store_ok s → synced s → calls_ok cs s → store_ok (run cs s) ∧ synced (run cs s).
Proof.
  revert s. induction cs as [|c cs IH]; intros s Hok Hsync Hcalls; [done|].
  destruct Hcalls as [Hc Hcs]. destruct (step_preserves c s Hok Hsync Hc) as [Hok' Hsync'].
  unfold run in *. simpl. by apply IH.
Qed.
End durability.

Lemma foldl_deliver_trace hs s :
  ∃ evs, trace (foldl dataSdk.deliver s hs) = trace s ++ evs
         ∧ filter (is_write STORAGE_KEY) evs = [].
Proof.
  revert s. induction hs as [|h hs IH]; intros s.
  { exists []. by rewrite app_nil_r. }
  simpl. destruct (IH (dataSdk.deliver s h)) as (evs & -> & Hevs).
  unfold dataSdk.deliver. destruct (has_onDataChanged h).
  - exists (DataChanged h (fresh (dom (arrays s))) :: evs). split.
    + unfold new_array, dataSdk.onDataChanged. destruct h; simpl; by rewrite <- app_assoc.
    + by rewrite filter_cons_False by (by intros ?).
  - by exists evs.
Qed.

Lemma filter_writes_notifications key hs snaps :
  filter (is_write key) (zip_with DataChanged hs snaps) = [].
Proof.
  revert snaps. induction hs as [|h hs IH]; intros [|a snaps]; try done.
  simpl. rewrite filter_cons_False by (by intros ?). apply IH.
Qed.

Section whole_writes.
Context `{JSON}.

(** Each call writes the record slot at most once, and what it writes is
    the text of the whole collection as the call leaves it. *)
Lemma step_writes c s :
  filter (is_write STORAGE_KEY) (events_since s (step c s).2)
  = if mutates c s
    then [SetItem STORAGE_KEY
            (JSON_stringify (json_of_collection (collection (step c s).2)))]
    else [].
Proof.
  destruct (mutates c s) eqn:Hmut.
  - destruct (step_committed c s Hmut) as (m & snaps & Hm & C & Htr & Hsub & _).
    destruct (committed_broadcast _ _ _ Hm C) as (Hev & _).
    unfold events_since in *. rewrite Htr in Hev. rewrite Hev.
    rewrite filter_cons_True by done. by rewrite filter_writes_notifications.
  - destruct c as [h|ar|ar|id|]; try done; cbn [step mutates] in *.
    + unfold dataSdk.init. cbn [snd]. unfold dataSdk.notify.
      match goal with |- context [foldl _ ?s1 (subscribers ?s1)] =>
        destruct (foldl_deliver_trace (subscribers s1) s1) as (evs & Htr & Hevs);
        assert (trace s1 = trace s) as Hs1
          by (destruct h; [case_bool_decide|]; done)
      end.
      unfold events_since. rewrite Htr, Hs1, drop_app_length. done.
    + pose proof (eval_arg_frame ar s) as Hev.
      destruct (eval_arg ar s) as [o s1].
      destruct Hev as (_ & _ & Htr & _).
      apply bool_decide_eq_false in Hmut.
      destruct (dataSdk.findIndex o s1) as [i|] eqn:Hi; [by destruct Hmut|].
      rewrite (update_not_found _ _ Hi). cbn [snd].
      unfold events_since. by rewrite Htr, drop_all.
Qed.
End whole_writes.

Section durability_claim.
Context `{JSON} `{!JSONLaws}.

(** C3. Start the data SDK on any page and make any sequence of its calls
    ([init], [create], [update], [delete], [reset]; a held reference names
    an allocated object): what a reload would parse from the record slot
    is the collection in memory. Each call writes that slot once if it
    changes the collection and not at all otherwise, and the text written
    is the serialisation of the whole collection as the call leaves it. *)
Theorem persisted_collection_matches_memory (now : string) (p s0 : state)
    (cs : list call) :
  dataSdk.start now p = Some s0 →
  calls_ok cs s0 →
  persisted (run cs s0) = Some (collection (run cs s0))
  ∧ ∀ c s, filter (is_write STORAGE_KEY) (events_since s (step c s).2)
           = if mutates c s
             then [SetItem STORAGE_KEY
                     (JSON_stringify (json_of_collection (collection (step c s).2)))]
             else [].
Proof.
  intros Hstart Hcalls. split; [|apply step_writes].
  destruct (start_spec _ _ _ Hstart) as [Hok Hsync].
  by destruct (run_preserves cs s0 Hok Hsync Hcalls).
Qed.

(** C8, as the code has it. When the record slot is missing or holds
    text that does not parse, [load] returns normally with an empty
    collection, writing nothing and calling nobody. The module body then
    runs [seedIfEmpty], so the store that start-up leaves holds the four
    demo records, and they are what the slot then holds. *)
Theorem unusable_storage_loads_empty_then_seeds (now : string) (p : state) :
  nothing_usable STORAGE_KEY p →
  (∃ s1, dataSdk.load p = Some s1
         ∧ collection s1 = []
         ∧ trace s1 = trace p
         ∧ localStorage s1 = localStorage p)
  ∧ (∃ s0, dataSdk.start now p = Some s0
           ∧ collection s0 = [dataSdk.u1 now; dataSdk.u2 now; dataSdk.f1 now; dataSdk.r1 now]
           ∧ persisted s0 = Some (collection s0)
           ∧ filter is_notification (events_since p s0) = []).
Proof.
  intros Hn. split.
  - destruct (load_nothing_usable p Hn) as (a & -> & _).
    eexists. split; [done|]. split_and!; try done.
    unfold collection, records, elems. simpl. by rewrite lookup_insert_eq.
  - unfold dataSdk.start, new_array. cbv zeta.
    set (p1 := set_subscribers [] _).
    assert (nothing_usable STORAGE_KEY p1) as Hn1 by done.
    destruct (load_nothing_usable p1 Hn1) as (a & Hload & _).
    rewrite Hload. cbn [fmap option_fmap option_map].
    set (s1 := set_data a _).
    destruct (load_spec _ _ Hload) as (Hok & _ & Htr & _).
    assert (collection s1 = []) as Hempty.
    { unfold collection, records, elems, s1. simpl. by rewrite lookup_insert_eq. }
    destruct (seedIfEmpty_spec now s1 Hok (or_introl Hempty)) as (_ & Hsync & Hseed & _).
    eexists. split; [done|]. split_and!; [by apply Hseed|done|].
    unfold dataSdk.seedIfEmpty. rewrite bool_decide_eq_false_2.
    2: { unfold collection, records in Hempty. apply fmap_nil_inv in Hempty.
         rewrite Hempty. simpl. lia. }
    destruct (new_objects _ s1) as [ls s2] eqn:Hnew.
    pose proof (new_objects_spec [dataSdk.u1 now; dataSdk.u2 now;
                                  dataSdk.f1 now; dataSdk.r1 now] s1) as Hobj.
    rewrite Hnew in Hobj. destruct Hobj as (_ & _ & _ & _ & _ & Htr2 & _).
    unfold events_since. simpl. rewrite Htr2. unfold s1. simpl.
    rewrite drop_app_length. done.
Qed.
End durability_claim.

(** ** The preference store *)

Section element_facts.
Context `{JSON}.

Lemma loadCfg_spec s s1 :
  elementSdk.loadCfg s = Some s1 →
  ∃ o, stored_config s = Some o
       ∧ s1 = set_config (fresh (dom (objects s)))
                (set_objects <[fresh (dom (objects s)) := o]> s).
Proof.
  unfold elementSdk.loadCfg, stored_config, new_object.
  destruct (JSON_parse _) as [j|].
  - destruct (obj_of_json j) as [o|]; [|done]. intros [= <-]. eauto.
  - intros [= <-]. eauto.
Qed.

Lemma element_start_spec p s1 :
  elementSdk.start p = Some s1 →
  ∃ o, stored_config p = Some o
       ∧ deref s1 (config s1) = o
       ∧ elementSdk_config s1 = config s1
       ∧ config s1 ∈ dom (objects s1)
       ∧ onConfigChangeCb s1 = None
       ∧ localStorage s1 = localStorage p ∧ trace s1 = trace p.
Proof.
  unfold elementSdk.start, new_object. cbv zeta.
  set (p1 := set_onConfigChangeCb None _).
  destruct (elementSdk.loadCfg p1) as [s0|] eqn:Hload; [|done].
  intros [= <-]. apply loadCfg_spec in Hload as (o & Hst & ->).
  exists o. split_and!; try done.
  - unfold deref. simpl. by rewrite lookup_insert_eq.
  - simpl. rewrite dom_insert_L. set_solver.
Qed.

Lemma reconfigure_spec cb o s s' :
  s' = elementSdk.applyChange
         (set_onConfigChangeCb cb
            (elementSdk.saveCfg
               (set_config (fresh (dom (objects s)))
                  (set_objects <[fresh (dom (objects s)) := o]> s)))) →
  reconfigured cb o s s'.
Proof.
  intros ->. set (c := fresh (dom (objects s))).
  assert (c ∉ dom (objects s)) as Hc by apply is_fresh.
  unfold elementSdk.applyChange, elementSdk.saveCfg.
  destruct cb as [cb|]; simpl.
  - split; simpl; try done.
    + unfold deref. simpl. by rewrite lookup_insert_eq.
    + intros l Hl. rewrite lookup_insert_ne; [done|]. by intros <-.
    + intros l Hl. rewrite dom_insert_L. set_solver.
    + unfold getItem, deref. simpl. by rewrite !lookup_insert_eq.
    + unfold events_since, config_events. simpl.
      by rewrite <- app_assoc, drop_app_length.
  - split; simpl; try done.
    + unfold deref. simpl. by rewrite lookup_insert_eq.
    + intros l Hl. rewrite lookup_insert_ne; [done|]. by intros <-.
    + intros l Hl. rewrite dom_insert_L. set_solver.
    + unfold getItem, deref. simpl. by rewrite !lookup_insert_eq.
    + unfold events_since, config_events. simpl. by rewrite drop_app_length.
Qed.

Lemma element_init_spec d cb s :
  (elementSdk.init d cb s).1 = Result true None None
  ∧ reconfigured cb (deref s (config s) ∪ default ∅ d) s (elementSdk.init d cb s).2.
Proof. split; [done|]. by apply reconfigure_spec. Qed.

Lemma setConfig_spec partial s :
  reconfigured (onConfigChangeCb s) (partial ∪ deref s (config s)) s
               (elementSdk.setConfig partial s).
Proof. by apply reconfigure_spec. Qed.

(** C6. After the module has loaded the stored configuration, [init]
    with defaults and a callback makes the effective configuration the
    stored one completed by the defaults: a key the stored configuration
    has keeps its stored value, any other key takes the default. The
    result is written to the configuration slot, and the callback is
    invoked once, right then, with the effective configuration. *)
Theorem preference_init_merges_persists_notifies (p s1 : state)
    (defaults : obj) (cb : nat) :
  elementSdk.start p = Some s1 →
  ∃ stored, stored_config p = Some stored ∧
  let '(r, s2) := elementSdk.init (Some defaults) (Some cb) s1 in
  let effective := deref s2 (config s2) in
  r = Result true None None
  ∧ effective = stored ∪ defaults
  ∧ (∀ k v, stored !! k = Some v → effective !! k = Some v)
  ∧ (∀ k, stored !! k = None → effective !! k = defaults !! k)
  ∧ getItem CFG_KEY s2 = Some (JSON_stringify (json_of_obj effective))
  ∧ events_since s1 s2
    = [SetItem CFG_KEY (JSON_stringify (json_of_obj effective));
       ConfigChanged cb (config s2)]
  ∧ onConfigChangeCb s2 = Some cb.
Proof.
  intros (stored & Hst & Hcfg & _)%element_start_spec.
  exists stored. split; [done|].
  destruct (element_init_spec (Some defaults) (Some cb) s1) as [Hr R].
  destruct (elementSdk.init (Some defaults) (Some cb) s1) as [r s2].
  simpl in Hr, R. rewrite Hcfg in R. cbv zeta.
  rewrite (rc_config _ _ _ _ R). split_and!.
  - done.
  - done.
  - intros k v Hk. by apply lookup_union_Some_l.
  - intros k Hk. by rewrite lookup_union_r.
  - apply R.
  - rewrite (rc_events _ _ _ _ R). unfold config_events.
    by rewrite (rc_config _ _ _ _ R).
  - apply R.
Qed.

Lemma cfg_step_reconfigured c s :
  ∃ cb o, reconfigured cb o s (cfg_step c s).
Proof.
  destruct c as [d cb|partial]; simpl.
  - eexists _, _. apply element_init_spec.
  - eexists _, _. apply setConfig_spec.
Qed.

Lemma cfg_run_exposed cs s :
  elementSdk_config s ∈ dom (objects s) →
  elementSdk_config (cfg_run cs s) = elementSdk_config s
  ∧ objects (cfg_run cs s) !! elementSdk_config s = objects s !! elementSdk_config s
  ∧ (cs ≠ [] → config (cfg_run cs s) ≠ elementSdk_config s).
Proof.
  revert s. induction cs as [|c cs IH] using rev_ind; intros s Hex; [done|].
  destruct (IH s Hex) as (Heq & Hobj & _).
  unfold cfg_run in *. rewrite foldl_app. simpl.
  set (s1 := foldl _ s cs) in *.
  destruct (cfg_step_reconfigured c s1) as (cb & o & R).
  assert (elementSdk_config s ∈ dom (objects s1)) as Hin.
  { apply elem_of_dom. rewrite Hobj. by apply elem_of_dom. }
  split_and!.
  - by rewrite (rc_exposed _ _ _ _ R).
  - by rewrite (rc_objects _ _ _ _ R).
  - intros _ Heq'. apply (rc_fresh _ _ _ _ R). by rewrite Heq'.
Qed.

(** C10. [window.elementSdk.config] is set once, by the module body, to
    the object that holds the stored configuration. Whatever sequence of
    [init] and [setConfig] calls follows, the property still refers to that
    object and the object still has those contents, while [config] itself
    refers to another object after the first call. So the label the
    registration handler reads from the property is the one it would have
    read before any of the calls: it shows neither the defaults merged by
    [init] nor an update made by [setConfig]. *)
Theorem exposed_config_is_stale (p s1 : state) (cs : list cfg_call) :
  elementSdk.start p = Some s1 →
  let s := cfg_run cs s1 in
  elementSdk_config s = elementSdk_config s1
  ∧ stored_config p = Some (deref s (elementSdk_config s))
  ∧ deref s (elementSdk_config s) = deref s1 (elementSdk_config s1)
  ∧ register_button_label s = register_button_label s1
  ∧ (cs ≠ [] → config s ≠ elementSdk_config s).
Proof.
  intros (stored & Hst & Hcfg & Hex & Hdom & _)%element_start_spec s.
  destruct (cfg_run_exposed cs s1) as (Heq & Hobj & Hne); [by rewrite Hex|].
  fold s in Heq, Hobj, Hne.
  assert (deref s (elementSdk_config s) = deref s1 (elementSdk_config s1)) as Hder.
  { unfold deref. by rewrite Heq, Hobj. }
  split_and!.
  - done.
  - by rewrite Hder, Hex, Hcfg.
  - done.
  - unfold register_button_label. by rewrite Hder.
  - rewrite Heq. done.
Qed.
End element_facts.

(** ** Likes *)

Lemma split_nonempty t : split t ≠ [].
Proof.
  induction t as [|c t IH]; simpl; [done|].
  destruct (Ascii.eqb c comma); [done|]. by destruct (split t).
Qed.

Lemma split_no_comma w : no_comma w = true → split w = [w].
Proof.
  induction w as [|c w IH]; simpl; [done|].
  intros [Hc Hw]%andb_true_iff. apply negb_true_iff in Hc. rewrite Hc.
  by rewrite IH.
Qed.

Lemma split_app_comma w t :
  no_comma w = true → split (w +:+ String comma t) = w :: split t.
Proof.
  induction w as [|c w IH]; simpl.
  - done.
  - intros [Hc Hw]%andb_true_iff. apply negb_true_iff in Hc. rewrite Hc.
    by rewrite IH.
Qed.

Lemma split_pieces t : Forall (λ w, no_comma w = true) (split t).
Proof.
  induction t as [|c t IH]; simpl; [by repeat constructor|].
  destruct (Ascii.eqb c comma) eqn:Hc; [by constructor|].
  destruct (split t) as [|w ws].
  - constructor; [|done]. simpl. by rewrite Hc.
  - inversion IH; subst. constructor; [|done]. simpl. by rewrite Hc.
Qed.

Lemma split_join l :
  Forall (λ w, no_comma w = true) l → l ≠ [] → split (join l) = l.
Proof.
  induction l as [|w l IH]; [done|]. intros Hall _.
  inversion Hall as [|? ? Hw Hl]; subst.
  destruct l as [|w' l]; [by apply split_no_comma|].
  change (join (w :: w' :: l)) with (w +:+ String comma (join (w' :: l))).
  rewrite split_app_comma by done. by rewrite IH.
Qed.

Lemma decode_valid t : Forall valid_id (decode t).
Proof.
  unfold decode. apply Forall_forall. intros w [Hne Hin]%list_elem_of_filter.
  split; [done|]. pose proof (split_pieces t) as Hall.
  rewrite Forall_forall in Hall. by apply Hall.
Qed.

Lemma decode_join l : Forall valid_id l → decode (join l) = l.
Proof.
  intros Hall. destruct (decide (l = [])) as [->|Hne]; [done|].
  unfold decode. rewrite split_join; [|by eapply Forall_impl; [done|intros ? []]|done].
  apply filter_all. eapply Forall_impl; [done|]. by intros ? [].
Qed.

Lemma likedByArray_valid recipe arr :
  likedByArray recipe = Some arr → Forall valid_id arr.
Proof.
  unfold likedByArray. destruct (recipe !! "likedBy") as [[|b|n|t]|]; simpl.
  - intros [= <-]. constructor.
  - destruct b; [done|]. intros [= <-]. constructor.
  - destruct (n =? 0)%Z; [|done]. intros [= <-]. constructor.
  - destruct (String.eqb t ""); simpl; intros [= <-]; [constructor|]. apply decode_valid.
  - intros [= <-]. constructor.
Qed.

Lemma remove_first_valid uid arr :
  Forall valid_id arr → Forall valid_id (remove_first uid arr).
Proof.
  induction 1 as [|w arr Hw Harr IH]; simpl; [constructor|].
  case_decide; [done|]. by constructor.
Qed.

(** The fields of the record a toggle leaves. *)
Lemma toggled_spec uid recipe arr n :
  likedByArray recipe = Some arr → likes_or_0 recipe = Some n → valid_id uid →
  let arr' := if bool_decide (uid ∈ arr) then remove_first uid arr else arr ++ [uid] in
  let n' := if bool_decide (uid ∈ arr) then Z.max 0 (n - 1) else (n + 1)%Z in
  ∃ recipe', toggled uid recipe = Some recipe'
             ∧ likedByArray recipe' = Some arr'
             ∧ likes_or_0 recipe' = Some n'
             ∧ recipe' !! "likedBy" = Some (VStr (join arr'))
             ∧ recipe' !! "likes" = Some (VNum n')
             ∧ ∀ k, k ≠ "likedBy" → k ≠ "likes" → recipe' !! k = recipe !! k.
Proof.
  intros Harr Hn Hvalid arr' n'. unfold toggled. rewrite Harr, Hn. simpl.
  pose proof (likedByArray_valid _ _ Harr) as Hall.
  assert (Forall valid_id arr') as Hall'.
  { unfold arr'. case_bool_decide.
    - by apply remove_first_valid.
    - apply Forall_app. split; [done|]. by constructor. }
  fold arr' n'.
  assert ((if bool_decide (uid ∈ arr)
           then (remove_first uid arr, Z.max 0 (n - 1))
           else (arr ++ [uid], (n + 1)%Z)) = (arr', n')) as ->.
  { unfold arr', n'. by case_bool_decide. }
  eexists. split; [done|]. split_and!.
  - unfold likedByArray. rewrite lookup_insert_eq. simpl.
    destruct (String.eqb_spec (join arr') "") as [Hj|Hj]; simpl.
    + f_equal. rewrite <- (decode_join arr') by done. by rewrite Hj.
    + f_equal. by apply decode_join.
  - unfold likes_or_0. rewrite lookup_insert_ne by done. by rewrite lookup_insert_eq.
  - by rewrite lookup_insert_eq.
  - rewrite lookup_insert_ne by done. by rewrite lookup_insert_eq.
  - intros k Hk1 Hk2. by rewrite !lookup_insert_ne.
Qed.

Lemma occurrences_elem_of uid arr : uid ∈ arr ↔ 0 < occurrences uid arr.
Proof.
  unfold occurrences. split.
  - intros Hin. assert (uid ∈ filter (λ w, w = uid) arr) as Hf.
    { by apply list_elem_of_filter. }
    destruct (filter _ arr); [by apply elem_of_nil in Hf|simpl; lia].
  - intros Hlen. destruct (filter (λ w, w = uid) arr) as [|w ws] eqn:Hf; [simpl in *; lia|].
    assert (w ∈ filter (λ w, w = uid) arr) as [-> ?]%list_elem_of_filter; [|done].
    rewrite Hf. set_solver.
Qed.

Lemma occurrences_remove_first uid arr :
  uid ∈ arr → occurrences uid (remove_first uid arr) = pred (occurrences uid arr).
Proof.
  unfold occurrences. induction arr as [|w arr IH]; [by intros ?%elem_of_nil|].
  simpl. case_decide as Hw.
  - subst. intros _. by rewrite filter_cons_True.
  - intros [?|Hin]%elem_of_cons; [done|].
    rewrite !filter_cons_False by done. by apply IH.
Qed.

Lemma elem_of_remove_first_ne uid w arr :
  w ≠ uid → w ∈ remove_first uid arr ↔ w ∈ arr.
Proof.
  intros Hne. induction arr as [|x arr IH]; [done|]. simpl.
  case_decide; set_solver.
Qed.

Lemma remove_first_set uid arr :
  uid ∈ arr → (occurrences uid arr ≤ 1)%nat →
  list_to_set (C := gset string) (remove_first uid arr)
  = list_to_set arr ∖ {[uid]}.
Proof.
  intros Hin Hocc. apply set_eq. intros w.
  rewrite elem_of_difference, !elem_of_list_to_set, elem_of_singleton.
  destruct (decide (w = uid)) as [->|Hne].
  - split; [|naive_solver]. intros Hin'%occurrences_elem_of.
    rewrite occurrences_remove_first in Hin' by done. lia.
  - rewrite elem_of_remove_first_ne by done. naive_solver.
Qed.

Lemma remove_first_app_last uid arr :
  uid ∉ arr → remove_first uid (arr ++ [uid]) = arr.
Proof.
  induction arr as [|w arr IH]; simpl.
  - intros _. by rewrite decide_True.
  - intros Hnin. rewrite decide_False by set_solver. f_equal. apply IH. set_solver.
Qed.

Lemma occurrences_app uid l1 l2 :
  occurrences uid (l1 ++ l2) = occurrences uid l1 + occurrences uid l2.
Proof. unfold occurrences. by rewrite filter_app, length_app. Qed.

Section toggle_facts.
Context `{JSON}.

(** One run of [toggleLike] on a page where it finds the recipe and a
    logged-in user, in terms of the record [toggled] computes. *)
Lemma toggleLike_spec rid s i recipe user uid recipe' :
  list_find (λ r, deref s r !! "id" = Some (VStr rid)) (elems s (allData s))
    = Some (i, recipe) →
  currentUser s = Some user →
  deref s user !! "id" = Some (VStr uid) →
  toggled uid (deref s recipe) = Some recipe' →
  recipe' !! "id" = deref s recipe !! "id" →
  ∃ s1, toggleLike rid s = Some s1
        ∧ deref s1 recipe = recipe'
        ∧ (∀ l, l ≠ recipe → deref s1 l = deref s l)
        ∧ currentUser s1 = Some user
        ∧ (∃ i', list_find (λ r, deref s1 r !! "id" = Some (VStr rid))
                           (elems s1 (allData s1)) = Some (i', recipe))
        ∧ match dataSdk.findIndex recipe s with
          | Some k =>
              collection s1 !! k = Some recipe'
              ∧ filter (is_write STORAGE_KEY) (events_since s s1)
                = [SetItem STORAGE_KEY
                     (JSON_stringify (json_of_collection (collection s1)))]
          | None => events_since s s1 = [ShowToast "Error al actualizar el me gusta"]
                    ∧ collection s1 = collection s
          end.
Proof.
  intros Hfind Huser Huid Htog Hid.
  set (s' := set_objects <[recipe := recipe']> s).
  assert (deref s' recipe = recipe') as Hnew.
  { unfold deref, s'. simpl. by rewrite lookup_insert_eq. }
  assert (∀ l, l ≠ recipe → deref s' l = deref s l) as Hother.
  { intros l Hl. unfold deref, s'. simpl. by rewrite lookup_insert_ne. }
  assert (∀ l, deref s' l !! "id" = deref s l !! "id") as Hids.
  { intros l. destruct (decide (l = recipe)) as [->|Hl]; [by rewrite Hnew|].
    by rewrite Hother. }
  pose proof Hfind as (Hi & Hrid & _)%list_find_Some.
  assert (dataSdk.findIndex recipe s' = dataSdk.findIndex recipe s) as Hfi.
  { unfold dataSdk.findIndex. f_equal. apply list_find_ext.
    intros x. unfold same_id. by rewrite !Hids. }
  assert (toggleLike rid s
          = Some (let '(result, s1) := dataSdk.update recipe s' in
                  if isOk result then s1
                  else emit (ShowToast "Error al actualizar el me gusta") s1)) as Htl.
  { unfold toggleLike. rewrite Hfind, Huser. simpl. rewrite Huid, Htog.
    cbn [mbind option_bind]. fold s'. by destruct (dataSdk.update recipe s'). }
  rewrite Htl. clear Htl.
  destruct (dataSdk.findIndex recipe s) as [k|] eqn:Hk.
  - rewrite (update_eq _ _ _ Hfi). cbn [isOk].
    destruct (replaced_facts k recipe s') as [Hm Hcolm].
    destruct (notify_save_committed _ Hm) as [snaps C].
    set (s1 := dataSdk.notify _) in *.
    assert (∀ l, deref s1 l = deref s' l) as Hd1.
    { intros l. by apply (committed_deref snaps (replaced k recipe s')). }
    apply findIndex_Some in Hfi as (x & Hx & _ & Hfirst).
    assert (k < length (elems s (data s))) as Hlt by (by eapply lookup_lt_Some).
    assert (list_find (λ r, deref s1 r !! "id" = Some (VStr rid))
                      (<[k := recipe]> (elems s (data s))) = Some (k, recipe)) as Hnewfind.
    { apply list_find_Some. split_and!.
      - by apply list_lookup_insert_eq.
      - by rewrite Hd1, Hids.
      - intros j y Hy Hj. rewrite list_lookup_insert_ne in Hy by lia.
        rewrite Hd1. intros Hy'. apply (Hfirst j y Hy Hj).
        by rewrite Hy', (Hids recipe). }
    exists s1. split_and!.
    + done.
    + by rewrite Hd1.
    + intros l Hl. by rewrite Hd1, Hother.
    + by rewrite (cm_currentUser _ _ _ C).
    + assert (allData s ∈ dom (arrays s)) as Hall.
      { apply elem_of_dom. unfold elems in Hi.
        destruct (arrays s !! allData s); [done|]. simpl in Hi. done. }
      pose proof (cm_allData _ _ _ C) as Hcase.
      assert (elems (replaced k recipe s') (data (replaced k recipe s'))
              = <[k := recipe]> (elems s (data s))) as Helm.
      { unfold replaced, elems at 1. simpl. by rewrite lookup_insert_eq. }
      case_decide as Hdh.
      * exists k. destruct (committed_snapshot _ _ _ _ C Hcase) as [-> _].
        by rewrite Helm.
      * assert (elems s1 (allData s1)
                = if decide (allData s = data s) then <[k := recipe]> (elems s (data s))
                  else elems s (allData s)) as ->.
        { rewrite Hcase. unfold elems at 1.
          rewrite (committed_frame snaps (replaced k recipe s')); [|done|].
          - unfold replaced. simpl. case_decide as Heq.
            + by rewrite Heq, lookup_insert_eq.
            + by rewrite lookup_insert_ne.
          - unfold replaced. simpl. rewrite dom_insert_L. set_solver. }
        case_decide; [by exists k|]. exists i.
        rewrite <- Hfind. apply list_find_ext. intros y. by rewrite Hd1, Hids.
    + rewrite (committed_collection _ _ _ Hm C), Hcolm.
      rewrite Hnew. apply list_lookup_insert_eq.
      unfold collection, records. by rewrite length_fmap.
    + change (events_since s s1) with (events_since (replaced k recipe s') s1).
      rewrite (committed_events snaps _ _ C).
      rewrite filter_cons_True by done. rewrite filter_writes_notifications.
      unfold saved_text. by rewrite (committed_collection _ _ _ Hm C).
  - rewrite (update_not_found _ _ Hfi). cbn [isOk].
    eexists. split_and!; [done|done|done|done| | |].
    + exists i. rewrite <- Hfind. apply list_find_ext. intros y.
      change (deref (emit _ s') y) with (deref s' y). by rewrite Hids.
    + unfold events_since. simpl. by rewrite drop_app_length.
    + pose proof (proj1 (findIndex_None _ _) Hk) as Hnone.
      unfold collection, records. apply list_fmap_ext.
      intros j l Hl. change (deref (emit _ s') l) with (deref s' l).
      apply Hother. intros ->. apply (Hnone (deref s recipe)); [|done].
      apply list_elem_of_fmap. exists recipe. split; [done|].
      by eapply list_elem_of_lookup_2.
Qed.
End toggle_facts.

Lemma likerSet_of recipe arr :
  likedByArray recipe = Some arr → likerSet recipe = list_to_set arr.
Proof. unfold likerSet. by intros ->. Qed.

Lemma likes_of recipe n : likes_or_0 recipe = Some n → likes recipe = n.
Proof. unfold likes. by intros ->. Qed.

(** One toggle, on the record alone. *)
Lemma toggled_effect uid recipe arr n :
  likedByArray recipe = Some arr → likes_or_0 recipe = Some n →
  valid_id uid → (occurrences uid arr ≤ 1)%nat →
  n = Z.of_nat (size (likerSet recipe)) →
  ∃ recipe' arr' n',
    toggled uid recipe = Some recipe'
    ∧ likedByArray recipe' = Some arr' ∧ likes_or_0 recipe' = Some n'
    ∧ (occurrences uid arr' ≤ 1)%nat
    ∧ n' = Z.of_nat (size (likerSet recipe'))
    ∧ (uid ∉ likerSet recipe →
         likerSet recipe' = {[uid]} ∪ likerSet recipe ∧ n' = (n + 1)%Z)
    ∧ (uid ∈ likerSet recipe →
         likerSet recipe' = likerSet recipe ∖ {[uid]} ∧ n' = (n - 1)%Z)
    ∧ recipe' !! "likes" = Some (VNum n')
    ∧ recipe' !! "likedBy" = Some (VStr (join arr'))
    ∧ (∀ k, k ≠ "likedBy" → k ≠ "likes" → recipe' !! k = recipe !! k).
Proof.
  intros Harr Hn Hvalid Hocc Hsize.
  destruct (toggled_spec uid recipe arr n Harr Hn Hvalid)
    as (recipe' & Htog & Harr' & Hn' & HlikedBy & Hlikes & Hrest).
  rewrite (likerSet_of _ _ Harr) in *.
  eexists recipe', _, _. split; [done|]. split; [done|]. split; [done|].
  rewrite (likerSet_of _ _ Harr').
  case_bool_decide as Hin.
  - (* a liker: the identifier goes *)
    assert (uid ∈ (list_to_set arr : gset string)) as Hins by set_solver.
    pose proof (remove_first_set uid arr Hin Hocc) as Hset.
    assert (size (list_to_set (remove_first uid arr) : gset string)
            = size (list_to_set arr : gset string) - 1) as Hsz.
    { rewrite Hset, size_difference by set_solver. by rewrite size_singleton. }
    assert (0 < size (list_to_set arr : gset string)) as Hpos.
    { assert (size (list_to_set arr : gset string) ≠ 0); [|lia].
      apply size_non_empty_iff. set_solver. }
    split_and!; try done.
    + rewrite occurrences_remove_first by done. lia.
    + rewrite Hsz. lia.
    + intros _. split; [done|lia].
  - (* not a liker: the identifier is appended *)
    assert (uid ∉ (list_to_set arr : gset string)) as Hnins by set_solver.
    assert ((list_to_set (arr ++ [uid]) : gset string) = {[uid]} ∪ list_to_set arr) as Hset.
    { rewrite list_to_set_app_L. set_solver. }
    assert (size (list_to_set (arr ++ [uid]) : gset string)
            = S (size (list_to_set arr : gset string))) as Hsz.
    { rewrite Hset, size_union by set_solver. by rewrite size_singleton. }
    split_and!; try done.
    + rewrite occurrences_app. unfold occurrences at 2. simpl.
      rewrite filter_cons_True by done. simpl.
      assert (occurrences uid arr = 0); [|lia].
      destruct (occurrences uid arr) eqn:Ho; [done|].
      exfalso. apply Hin, occurrences_elem_of. lia.
    + rewrite Hsz. lia.
Qed.

Section toggle_claims.
Context `{JSON}.

(** C9, as the code has it. On a page where [toggleLike] finds the
    recipe and the logged-in user's identifier is a non-empty string
    without a comma that the liker string lists at most once: if the like
    count equals the number of distinct identifiers in the liker string
    before the call, it does so after it. The call sets both fields of the
    record, and nothing else of it, before its single [update], which (when
    the recipe is in the store) writes the collection holding that record
    once. *)
Theorem toggle_like_keeps_count_equal_to_likers (rid : string) (s : state)
    (i : nat) (recipe user : loc) (uid : string) (arr : list string) (n : Z) :
  list_find (λ r, deref s r !! "id" = Some (VStr rid)) (elems s (allData s))
    = Some (i, recipe) →
  currentUser s = Some user →
  deref s user !! "id" = Some (VStr uid) →
  likedByArray (deref s recipe) = Some arr →
  likes_or_0 (deref s recipe) = Some n →
  valid_id uid →
  (occurrences uid arr ≤ 1)%nat →
  likes (deref s recipe) = Z.of_nat (size (likerSet (deref s recipe))) →
  ∃ s1, toggleLike rid s = Some s1 ∧
    let r1 := deref s1 recipe in
    likes r1 = Z.of_nat (size (likerSet r1))
    ∧ r1 !! "likes" = Some (VNum (likes r1))
    ∧ (∃ t, r1 !! "likedBy" = Some (VStr t) ∧ likerSet r1 = list_to_set (decode t))
    ∧ (∀ k, k ≠ "likedBy" → k ≠ "likes" → r1 !! k = deref s recipe !! k)
    ∧ match dataSdk.findIndex recipe s with
      | Some k =>
          collection s1 !! k = Some r1
          ∧ filter (is_write STORAGE_KEY) (events_since s s1)
            = [SetItem STORAGE_KEY
                 (JSON_stringify (json_of_collection (collection s1)))]
      | None => filter (is_write STORAGE_KEY) (events_since s s1) = []
      end.
Proof.
  intros Hfind Huser Huid Harr Hn Hvalid Hocc Heq.
  rewrite (likes_of _ _ Hn) in Heq.
  destruct (toggled_effect uid _ arr n Harr Hn Hvalid Hocc Heq)
    as (recipe' & arr' & n' & Htog & Harr' & Hn' & _ & Heq' & _ & _ & Hl & Hlb & Hrest).
  destruct (toggleLike_spec rid s i recipe user uid recipe' Hfind Huser Huid Htog)
    as (s1 & Hrun & Hr1 & _ & _ & _ & Hstore).
  { by apply Hrest. }
  exists s1. split; [done|]. cbv zeta. rewrite Hr1.
  rewrite (likes_of _ _ Hn'). split_and!; try done.
  - exists (join arr'). split; [done|].
    rewrite (likerSet_of _ _ Harr'). f_equal.
    symmetry. apply decode_join. by eapply likedByArray_valid.
  - destruct (dataSdk.findIndex recipe s); [done|].
    destruct Hstore as [-> _]. done.
Qed.

(** C7, as the code has it. On a page where [toggleLike] finds the
    recipe, the logged-in user's identifier is a non-empty string without a
    comma that the liker string lists at most once, and the like count
    equals the size of the liker set: a toggle by a user who is not a liker
    adds the user to the liker set and raises the count by one, a toggle by
    a liker removes the user and lowers the count by one, and two toggles in
    a row by the same user give back the original like count and liker
    set. *)
Theorem toggle_like_twice_restores (rid : string) (s : state)
    (i : nat) (recipe user : loc) (uid : string) (arr : list string) (n : Z) :
  list_find (λ r, deref s r !! "id" = Some (VStr rid)) (elems s (allData s))
    = Some (i, recipe) →
  currentUser s = Some user →
  deref s user !! "id" = Some (VStr uid) →
  likedByArray (deref s recipe) = Some arr →
  likes_or_0 (deref s recipe) = Some n →
  valid_id uid →
  (occurrences uid arr ≤ 1)%nat →
  likes (deref s recipe) = Z.of_nat (size (likerSet (deref s recipe))) →
  ∃ s1 s2, toggleLike rid s = Some s1 ∧ toggleLike rid s1 = Some s2 ∧
    let r0 := deref s recipe in
    let r1 := deref s1 recipe in
    let r2 := deref s2 recipe in
    (uid ∉ likerSet r0 →
       likerSet r1 = {[uid]} ∪ likerSet r0 ∧ likes r1 = (likes r0 + 1)%Z)
    ∧ (uid ∈ likerSet r0 →
       likerSet r1 = likerSet r0 ∖ {[uid]} ∧ likes r1 = (likes r0 - 1)%Z)
    ∧ likes r2 = likes r0
    ∧ likerSet r2 = likerSet r0.
Proof.
  intros Hfind Huser Huid Harr Hn Hvalid Hocc Heq.
  rewrite (likes_of _ _ Hn) in Heq.
  destruct (toggled_effect uid _ arr n Harr Hn Hvalid Hocc Heq)
    as (r1 & arr1 & n1 & Htog1 & Harr1 & Hn1 & Hocc1 & Heq1 & Hout & Hin & _ & _ & Hrest1).
  destruct (toggleLike_spec rid s i recipe user uid r1 Hfind Huser Huid Htog1)
    as (s1 & Hrun1 & Hr1 & Hother1 & Huser1 & [i1 Hfind1] & _).
  { by apply Hrest1. }
  assert (deref s1 user !! "id" = Some (VStr uid)) as Huid1.
  { destruct (decide (user = recipe)) as [->|Hne].
    - rewrite Hr1, Hrest1 by done. done.
    - by rewrite Hother1. }
  rewrite <- Hr1 in Harr1, Hn1, Heq1.
  destruct (toggled_effect uid _ arr1 n1 Harr1 Hn1 Hvalid Hocc1 Heq1)
    as (r2 & arr2 & n2 & Htog2 & Harr2 & Hn2 & _ & _ & Hout2 & Hin2 & _ & _ & Hrest2).
  destruct (toggleLike_spec rid s1 i1 recipe user uid r2 Hfind1 Huser1 Huid1 Htog2)
    as (s2 & Hrun2 & Hr2 & _).
  { by apply Hrest2. }
  exists s1, s2. split; [done|]. split; [done|]. cbv zeta.
  rewrite Hr2, (likes_of _ _ Hn), (likes_of _ _ Hn1), (likes_of _ _ Hn2).
  rewrite Hr1 in *.
  destruct (decide (uid ∈ likerSet (deref s recipe))) as [Hliker|Hnot].
  - destruct (Hin Hliker) as [Hset1 Hcount1].
    destruct Hout2 as [Hset2 Hcount2]; [rewrite Hset1; set_solver|].
    split_and!; [done|done|lia|].
    rewrite Hset2, Hset1. apply set_eq. intros w.
    destruct (decide (w = uid)); set_solver.
  - destruct (Hout Hnot) as [Hset1 Hcount1].
    destruct Hin2 as [Hset2 Hcount2]; [rewrite Hset1; set_solver|].
    split_and!; [done|done|lia|].
    rewrite Hset2, Hset1. set_solver.
Qed.
End toggle_claims.

(** ** The JSON instance: parsing a printed value gives it back *)

Import JsonText.

Lemma digit_char_spec d :
  (d < 10)%N → is_digit (digit_char d) = true ∧ digit_val (digit_char d) = d.
Proof.
  intros Hd.
  assert (d ∈ [0;1;2;3;4;5;6;7;8;9]%N) as Hin.
  { rewrite !elem_of_cons. lia. }
  rewrite !elem_of_cons in Hin.
  destruct Hin as [->|[->|[->|[->|[->|[->|[->|[->|[->|[->|Hin]]]]]]]]]];
    [done..|by apply elem_of_nil in Hin].
Qed.

Lemma print_N_go_app fuel n acc :
  print_N_go fuel n acc = print_N_go fuel n [] ++ acc.
Proof.
  revert n acc. induction fuel as [|fuel IH]; intros n acc; simpl; [done|].
  destruct (n / 10 =? 0)%N; [done|].
  rewrite (IH _ (_ :: acc)), (IH _ [_]), <- app_assoc. done.
Qed.

Lemma parse_print_N_go fuel n acc :
  (n < 2 ^ N.of_nat fuel)%N →
  parse_N_go (print_N_go fuel n acc) 0 = parse_N_go acc n.
Proof.
  revert n acc. induction fuel as [|fuel IH]; intros n acc Hn.
  - simpl in *. by replace n with 0%N by lia.
  - simpl print_N_go.
    assert (n mod 10 < 10)%N as Hd by (apply N.mod_lt; lia).
    destruct (digit_char_spec _ Hd) as [Hdig Hval].
    assert (n = n / 10 * 10 + n mod 10)%N as Hdm.
    { rewrite (N.div_mod n 10) at 1 by lia. lia. }
    destruct (n / 10 =? 0)%N eqn:Hq.
    + apply N.eqb_eq in Hq. simpl. rewrite Hdig, Hval.
      f_equal. lia.
    + rewrite IH.
      * simpl. rewrite Hdig, Hval. f_equal. lia.
      * rewrite Nat2N.inj_succ, N.pow_succ_r' in Hn.
        apply N.Div0.div_lt_upper_bound. lia.
Qed.

Lemma print_N_go_head fuel n acc :
  ∃ c t, print_N_go (S fuel) n acc = c :: t ∧ is_digit c = true.
Proof.
  revert n acc. induction fuel as [|fuel IH]; intros n acc.
  - simpl. assert (n mod 10 < 10)%N as Hd by (apply N.mod_lt; lia).
    destruct (digit_char_spec _ Hd) as [Hdig _].
    destruct (n / 10 =? 0)%N; eauto.
  - change (print_N_go (S (S fuel)) n acc) with
      (let acc := digit_char (n mod 10) :: acc in
       if (n / 10 =? 0)%N then acc else print_N_go (S fuel) (n / 10)%N acc).
    simpl. assert (n mod 10 < 10)%N as Hd by (apply N.mod_lt; lia).
    destruct (digit_char_spec _ Hd) as [Hdig _].
    destruct (n / 10 =? 0)%N; eauto.
Qed.

Lemma parse_N_go_stop rest n : follows_ok rest → parse_N_go rest n = (n, rest).
Proof. destruct rest as [|c rest]; simpl; [done|]. by intros ->. Qed.

Lemma parse_N_digit c t :
  is_digit c = true → parse_N (c :: t) = Some (parse_N_go (c :: t) 0).
Proof. unfold parse_N. by intros ->. Qed.

Lemma parse_print_N n rest :
  follows_ok rest → parse_N (print_N n ++ rest) = Some (n, rest).
Proof.
  intros Hrest. unfold print_N.
  destruct (print_N_go_head (N.to_nat (N.size n)) n []) as (c & t & Heq & Hc).
  rewrite Heq, <- app_comm_cons, parse_N_digit, app_comm_cons, <- Heq by done.
  rewrite <- print_N_go_app, parse_print_N_go, parse_N_go_stop; [done..|].
  rewrite Nat2N.inj_succ, N.pow_succ_r', N2Nat.id.
  pose proof (N.size_gt n). lia.
Qed.

Lemma parse_chars_escape c s :
  parse_chars (escape_char c ++ s) = cons_fst c <$> parse_chars s.
Proof. destruct c as [[] [] [] [] [] [] [] []]; reflexivity. Qed.

Lemma parse_chars_escaped cs rest :
  parse_chars (flat_map escape_char cs ++ dquote :: rest) = Some (cs, rest).
Proof.
  induction cs as [|c cs IH]; [done|].
  simpl flat_map. rewrite <- app_assoc, parse_chars_escape, IH. done.
Qed.

Lemma parse_print_string k rest :
  parse_string (print_string k ++ rest) = Some (k, rest).
Proof.
  unfold print_string, parse_string. simpl.
  rewrite <- app_assoc. simpl. rewrite parse_chars_escaped. simpl.
  by rewrite String.string_of_list_ascii_of_string.
Qed.

Lemma print_unfold_arr xs : print (JArr xs) = "["%char :: print_elems xs.
Proof. reflexivity. Qed.

Lemma print_unfold_obj ms : print (JObj ms) = "{"%char :: print_members ms.
Proof. reflexivity. Qed.

Lemma print_leads j : ∃ c t, print j = c :: t ∧ leads j c.
Proof.
  destruct j as [|[]|n|s|xs|ms]; try (eexists _, _; split; [reflexivity|constructor]).
  simpl. unfold print_Z. destruct (Z.ltb_spec n 0).
  - eexists _, _; split; [reflexivity|by constructor].
  - destruct (print_N_go_head (N.to_nat (N.size (Z.abs_N n))) (Z.abs_N n) [])
      as (c & t & Heq & Hc).
    unfold print_N. rewrite Heq. eexists _, _; split; [reflexivity|by constructor].
Qed.

Lemma is_digit_code c :
  is_digit c = true → (48 ≤ N_of_ascii c ≤ 57)%N.
Proof. unfold is_digit. rewrite andb_true_iff, !N.leb_le. lia. Qed.

Lemma follows_ok_code c rest :
  (N_of_ascii c = 44 ∨ N_of_ascii c = 93 ∨ N_of_ascii c = 125)%N →
  follows_ok (c :: rest).
Proof.
  intros Hc. simpl. destruct (is_digit c) eqn:Hd; [|done].
  apply is_digit_code in Hd. lia.
Qed.

Lemma length_print_pos j : 0 < length (print j).
Proof. destruct (print_leads j) as (c & t & -> & _). simpl. lia. Qed.

Ltac head_tests :=
  repeat match goal with
    | |- context [(N_of_ascii ?c =? ?k)%N] =>
        let b := eval vm_compute in (N_of_ascii c =? k)%N in
        lazymatch b with
        | true => change (N_of_ascii c =? k)%N with true
        | false => change (N_of_ascii c =? k)%N with false
        end; cbv iota
    | |- context [is_digit ?c] =>
        let b := eval vm_compute in (is_digit c) in
        lazymatch b with
        | true => change (is_digit c) with true
        | false => change (is_digit c) with false
        end; cbv iota
    end.

Ltac code_cases :=
  repeat match goal with
    | |- context [(?a =? ?b)%N] =>
        let E := fresh in
        destruct (N.eqb_spec a b) as [E|E];
        [first [discriminate E | exfalso; lia | idtac] | idtac]
    end.

Lemma parse_print fuel :
  (∀ j rest, 2 * length (print j ++ rest) < fuel → follows_ok rest →
             parse_value fuel (print j ++ rest) = Some (j, rest))
  ∧ (∀ x xs rest, 2 * length (print_elems (x :: xs) ++ rest) + 1 < fuel →
             parse_elems fuel (print_elems (x :: xs) ++ rest) = Some (x :: xs, rest))
  ∧ (∀ m ms rest, 2 * length (print_members (m :: ms) ++ rest) + 1 < fuel →
             parse_members fuel (print_members (m :: ms) ++ rest) = Some (m :: ms, rest)).
Proof.
  induction fuel as [|fuel (IHv & IHe & IHm)].
  { repeat split; intros; lia. }
  split; [|split].
  - intros j rest Hlen Hrest.
    destruct j as [|[]|n|s|xs|ms].
    + reflexivity.
    + reflexivity.
    + reflexivity.
    + destruct (print_leads (JNum n)) as (c & t & Heq & Hc).
      inversion Hc as [| | |? Hn|? ? Hn Hd| | |]; subst.
      * simpl in Heq |- *. unfold print_Z in *.
        destruct (Z.ltb_spec n 0); [|lia].
        cbn [app parse_value]. cbv zeta. head_tests.
        rewrite parse_print_N by done. simpl.
        do 3 f_equal. lia.
      * rewrite Heq. cbn [app]. pose proof (is_digit_code _ Hd) as Hcode.
        cbn [parse_value]. cbv zeta.
        code_cases. rewrite Hd.
        change (c :: t ++ rest) with ((c :: t) ++ rest). rewrite <- Heq.
        simpl. unfold print_Z. destruct (Z.ltb_spec n 0); [lia|].
        rewrite parse_print_N by done. simpl. do 3 f_equal. lia.
    + change (print (JStr s)) with (print_string s).
      cbn. rewrite <- app_assoc. cbn. rewrite parse_chars_escaped. cbn.
      by rewrite String.string_of_list_ascii_of_string.
    + rewrite print_unfold_arr. destruct xs as [|x xs]; [reflexivity|].
      destruct (print_leads x) as (c & t & Heq & Hc).
      cbn [app parse_value]. cbv zeta. cbn -[print_elems parse_elems].
      assert (Hnext : ∃ t', print_elems (x :: xs) ++ rest = c :: t').
      { cbn [print_elems]. rewrite Heq. eauto. }
      destruct Hnext as [t' Hnext]. rewrite Hnext.
      assert (N_of_ascii c ≠ 93%N) as Hne.
      { inversion Hc as [| | | |? ? ? Hd| | |]; subst; try (cbn; lia).
        apply is_digit_code in Hd. lia. }
      destruct (N.eqb_spec (N_of_ascii c) 93); [done|].
      rewrite <- Hnext, IHe; [done|].
      rewrite print_unfold_arr in Hlen. cbn [app length] in Hlen. lia.
    + rewrite print_unfold_obj. destruct ms as [|m ms]; [reflexivity|].
      cbn [app parse_value]. cbv zeta. cbn -[print_members parse_members].
      assert (Hnext : ∃ t', print_members (m :: ms) ++ rest = dquote :: t').
      { cbn [print_members]. unfold print_string. cbn [app]. eauto. }
      destruct Hnext as [t' Hnext]. rewrite Hnext. cbn -[parse_members].
      rewrite <- Hnext, IHm; [done|].
      rewrite print_unfold_obj in Hlen. cbn [app length] in Hlen. lia.
  - intros x xs rest Hlen.
    cbn [print_elems parse_elems] in Hlen |- *.
    rewrite <- !app_assoc in Hlen |- *.
    pose proof (length_print_pos x) as Hpos.
    rewrite length_app in Hlen.
    rewrite IHv; [|rewrite length_app; lia|destruct xs; apply follows_ok_code; cbn; lia].
    destruct xs as [|y ys].
    + reflexivity.
    + cbn [comma_unless_last app]. cbv beta iota. head_tests.
      rewrite IHe; [done|]. cbn [comma_unless_last app length] in Hlen. lia.
  - intros [k v] ms rest Hlen.
    cbn [print_members parse_members fst snd] in Hlen |- *.
    rewrite <- !app_assoc, <- app_comm_cons, <- !app_assoc in Hlen |- *.
    rewrite parse_print_string. cbv beta iota. head_tests.
    pose proof (length_print_pos v) as Hpos.
    rewrite !length_app in Hlen. cbn [length] in Hlen. rewrite length_app in Hlen.
    rewrite IHv; [|rewrite length_app; lia|destruct ms; apply follows_ok_code; cbn; lia].
    destruct ms as [|m' ms'].
    + reflexivity.
    + cbn [comma_unless_last app]. cbv beta iota. head_tests.
      rewrite IHm; [done|]. cbn [comma_unless_last app length] in Hlen. lia.
Qed.

Theorem parse_print_top j : parse (print j) = Some j.
Proof.
  unfold parse. destruct (parse_print (2 * length (print j) + 2)) as [Hv _].
  specialize (Hv j []). rewrite app_nil_r in Hv. rewrite Hv; [done|lia|done].
Qed.

Lemma json_text_roundtrip (j : json) : JSON_parse (JSON_stringify j) = Some j.
Proof.
  simpl. rewrite String.list_ascii_of_string_of_list_ascii. apply parse_print_top.
Qed.

#[local] Instance json_text_laws : JSONLaws.
Proof.
  split.
  - intros c. apply json_text_roundtrip.
  - intros o. apply json_text_roundtrip.
  - reflexivity.
  - reflexivity.
Qed.

(** ** More of the record store: create, reset and what a reload reads *)

Section more_store.
Context `{JSON}.

(** [create] never fails and never looks at identifiers: the record goes
    to the end of the collection, whatever the collection holds, the
    records before it stay as they are, and the result carries the record
    back. The collection is then written and every observer notified. *)
Theorem create_appends_unchecked (o : loc) (s : state) :
  let '(r, s') := dataSdk.create o s in
  r = Result true (Some o) None
  ∧ elems s' (data s') = elems s (data s) ++ [o]
  ∧ collection s' = collection s ++ [deref s o]
  ∧ (∀ id, length (filter (λ x, x !! "id" = id) (collection s'))
           = length (filter (λ x, x !! "id" = id) (collection s))
             + (if decide (deref s o !! "id" = id) then 1 else 0))
  ∧ getItem STORAGE_KEY s' = Some (JSON_stringify (json_of_collection (collection s')))
  ∧ ∃ snaps, events_since s s'
             = SetItem STORAGE_KEY (JSON_stringify (json_of_collection (collection s')))
                 :: zip_with DataChanged (observers (subscribers s)) snaps
             ∧ length snaps = length (observers (subscribers s)).
Proof.
  rewrite create_eq.
  destruct (pushed_facts o s) as [Hm Hcol].
  destruct (notify_save_committed _ Hm) as [snaps C].
  destruct (committed_broadcast _ _ _ Hm C) as (Hev & Hlen & _ & Hget & _).
  pose proof (committed_collection _ _ _ Hm C) as Hc. rewrite Hcol in Hc.
  split_and!; [done| |done| |done|].
  - rewrite (committed_elems _ _ _ Hm C). unfold elems, pushed. simpl.
    by rewrite lookup_insert_eq.
  - intros id. rewrite Hc, filter_app, length_app. f_equal.
    rewrite filter_cons, filter_nil. by destruct (decide (deref s o !! "id" = id)).
  - exists snaps. split; [|done]. exact Hev.
Qed.

(** The module body on a new page whose record slot holds the non-empty
    text of a non-empty collection. *)
Lemma start_restores_collection (now text : string) (s : state) :
  getItem STORAGE_KEY s = Some text →
  text ≠ "" →
  persisted s = Some (collection s) →
  collection s ≠ [] →
  ∃ s', dataSdk.start now (page (localStorage s)) = Some s'
        ∧ collection s' = collection s
        ∧ localStorage s' = localStorage s
        ∧ trace s' = []
        ∧ subscribers s' = [].
Proof.
  intros Hget Hne Hsync Hcol.
  unfold persisted in Hsync. rewrite Hget in Hsync. simpl in Hsync.
  destruct (JSON_parse text) as [j|] eqn:Hparse; [|done]. simpl in Hsync.
  unfold dataSdk.start, new_array. cbv zeta.
  set (p1 := set_subscribers [] _).
  assert (getItem STORAGE_KEY p1 = Some text) as Hget1 by exact Hget.
  unfold dataSdk.load. rewrite Hget1.
  destruct (String.eqb_spec text "") as [->|_]; [done|].
  rewrite Hparse, Hsync.
  pose proof (new_objects_spec (collection s) p1) as Hobj.
  destruct (new_objects (collection s) p1) as [ls s0].
  destruct Hobj as (Hder & _ & _ & Hls & Harr & Htr & Hd & Hsub).
  unfold new_array. cbn [fmap option_fmap option_map].
  set (a := fresh (dom (arrays s0))).
  set (s1 := set_data a (set_arrays <[a := ls]> s0)).
  assert (elems s1 (data s1) = ls) as Hel.
  { unfold elems, s1. simpl. by rewrite lookup_insert_eq. }
  assert (collection s1 = collection s) as Hc1.
  { unfold collection at 1, records. rewrite Hel. exact Hder. }
  assert (dataSdk.seedIfEmpty now s1 = s1) as ->.
  { unfold dataSdk.seedIfEmpty. rewrite bool_decide_eq_true_2; [done|].
    rewrite Hel. destruct ls; [|simpl; lia].
    rewrite <- Hc1 in Hcol. unfold collection, records in Hcol.
    by rewrite Hel in Hcol. }
  exists s1. split_and!; done.
Qed.
End more_store.

Section more_store_laws.
Context `{JSON} `{!JSONLaws}.

(** [reset] empties the collection and writes the empty array to the
    slot, but the emptiness does not outlive the page: the module body of
    the next page load finds an empty collection and seeds the four demo
    records again. *)
Theorem reset_does_not_survive_reload (now : string) (s : state) :
  let '(r, s1) := dataSdk.reset s in
  r = Result true None None
  ∧ collection s1 = []
  ∧ getItem STORAGE_KEY s1 = Some (JSON_stringify (JArr []))
  ∧ ∃ s2, dataSdk.start now (page (localStorage s1)) = Some s2
          ∧ collection s2 = [dataSdk.u1 now; dataSdk.u2 now; dataSdk.f1 now; dataSdk.r1 now]
          ∧ persisted s2 = Some (collection s2).
Proof.
  rewrite reset_eq.
  destruct (cleared_facts s) as (Hm & Hcol & _).
  destruct (notify_save_committed _ Hm) as [snaps C].
  destruct (committed_broadcast _ _ _ Hm C) as (_ & _ & _ & Hget & _).
  pose proof (committed_collection _ _ _ Hm C) as Hc. rewrite Hcol in Hc.
  rewrite Hc in Hget.
  set (s1 := dataSdk.notify _) in *.
  split_and!; [done|done|exact Hget|].
  unfold dataSdk.start, new_array. cbv zeta.
  set (p1 := set_subscribers [] _).
  assert (∃ a, dataSdk.load p1 = Some (set_data a (set_arrays <[a := []]> p1))
               ∧ a = fresh (dom (arrays p1))) as (a & Hload & Ha).
  { exists (fresh (dom (arrays p1))). split; [|done].
    unfold dataSdk.load.
    assert (getItem STORAGE_KEY p1 = Some (JSON_stringify (JArr []))) as -> by exact Hget.
    assert (JSON_parse (JSON_stringify (JArr [])) = Some (JArr [])) as Hrt
      by apply (JSON_parse_stringify_collection []).
    destruct (String.eqb_spec (JSON_stringify (JArr [])) "") as [_|_].
    - by rewrite JSON_parse_empty_array.
    - by rewrite Hrt. }
  rewrite Hload. cbn [fmap option_fmap option_map].
  set (s0 := set_data a _).
  destruct (load_spec _ _ Hload) as (Hok & _).
  assert (collection s0 = []) as Hempty.
  { unfold collection, records, elems, s0. simpl. by rewrite lookup_insert_eq. }
  destruct (seedIfEmpty_spec now s0 Hok (or_introl Hempty)) as (_ & Hsync & Hseed & _).
  eexists. split; [done|]. split; [by apply Hseed|exact Hsync].
Qed.

(** A store that holds records comes back from a reload as it was. Start
    the module, make any calls; when the collection is then not empty and
    the text in the record slot is not the empty string, the module body on
    a new page over the same storage ends with exactly that collection,
    without seeding, writing or notifying. *)
Theorem reload_restores_collection (now now' : string) (p s0 : state)
    (cs : list call) :
  dataSdk.start now p = Some s0 →
  calls_ok cs s0 →
  let s := run cs s0 in
  collection s ≠ [] →
  getItem STORAGE_KEY s ≠ Some "" →
  ∃ s', dataSdk.start now' (page (localStorage s)) = Some s'
        ∧ collection s' = collection s
        ∧ localStorage s' = localStorage s
        ∧ trace s' = []
        ∧ subscribers s' = [].
Proof.
  intros Hstart Hcalls s Hne Htext.
  destruct (start_spec _ _ _ Hstart) as [Hok Hsync].
  destruct (run_preserves cs s0 Hok Hsync Hcalls) as [_ Hsynced]. fold s in Hsynced.
  destruct (getItem STORAGE_KEY s) as [text|] eqn:Hget.
  - apply (start_restores_collection now' text); [done|congruence|done|done].
  - unfold synced, persisted in Hsynced. by rewrite Hget in Hsynced.
Qed.
End more_store_laws.

(** ** More of the preference store: setConfig, repeated init and reloads *)

Section more_element.
Context `{JSON}.

(** [setConfig] lays the partial configuration over the current one: a
    key of the partial takes the partial's value, every other key keeps
    its value. The result is written to the configuration slot, and the
    callback registered by [init] (when there is one) is called once with
    it; before any [init] nothing is called. *)
Theorem setConfig_overrides_persists_applies (partial : obj) (s : state) :
  let s' := elementSdk.setConfig partial s in
  let effective := deref s' (config s') in
  effective = partial ∪ deref s (config s)
  ∧ (∀ k v, partial !! k = Some v → effective !! k = Some v)
  ∧ (∀ k, partial !! k = None → effective !! k = deref s (config s) !! k)
  ∧ getItem CFG_KEY s' = Some (JSON_stringify (json_of_obj effective))
  ∧ events_since s s'
    = SetItem CFG_KEY (JSON_stringify (json_of_obj effective))
        :: match onConfigChangeCb s with
           | Some cb => [ConfigChanged cb (config s')]
           | None => []
           end
  ∧ onConfigChangeCb s' = onConfigChangeCb s.
Proof.
  intros s' effective.
  destruct (setConfig_spec partial s) as [Hc _ _ _ Hst Hev Hcb _].
  fold s' in Hc, Hst, Hev, Hcb. fold effective in Hc.
  split_and!.
  - done.
  - intros k v Hk. rewrite Hc. by apply lookup_union_Some_l.
  - intros k Hk. rewrite Hc. by apply lookup_union_r.
  - by rewrite Hc.
  - rewrite Hev. unfold config_events. fold effective. done.
  - done.
Qed.

(** [init] never takes a key away from the configuration nor changes
    its value, whatever defaults it is given, and calling it again with
    the same defaults leaves the configuration as the first call made
    it. *)
Theorem init_again_keeps_configuration (d d' : option obj) (cb cb' : option nat)
    (s : state) :
  let s1 := (elementSdk.init d cb s).2 in
  let s2 := (elementSdk.init d' cb' s1).2 in
  (∀ k v, deref s (config s) !! k = Some v → deref s1 (config s1) !! k = Some v)
  ∧ (∀ k v, deref s1 (config s1) !! k = Some v → deref s2 (config s2) !! k = Some v)
  ∧ (d' = d → deref s2 (config s2) = deref s1 (config s1))
  ∧ onConfigChangeCb s2 = cb'.
Proof.
  intros s1 s2.
  destruct (element_init_spec d cb s) as [_ [Hc1 _ _ _ _ _ _ _]].
  destruct (element_init_spec d' cb' s1) as [_ [Hc2 _ _ _ _ _ Hcb _]].
  fold s1 in Hc1, Hc2. fold s2 in Hc2, Hcb.
  split_and!.
  - intros k v Hk. rewrite Hc1. by apply lookup_union_Some_l.
  - intros k v Hk. rewrite Hc2. by apply lookup_union_Some_l.
  - intros ->. rewrite Hc2, Hc1, <- (assoc_L (∪)). by rewrite (idemp_L (∪)).
  - done.
Qed.
End more_element.

Section more_element_laws.
Context `{JSON} `{!JSONLaws}.

(** What [init] or [setConfig] saved is what the next page load reads:
    when the text written is not empty, the module body on a new page over
    the same storage loads exactly the configuration the call left, and the
    exposed [config] property of that page shows it. *)
Theorem saved_configuration_survives_reload (c : cfg_call) (s : state) :
  let s' := cfg_step c s in
  JSON_stringify (json_of_obj (deref s' (config s'))) ≠ "" →
  ∃ s2, elementSdk.start (page (localStorage s')) = Some s2
        ∧ deref s2 (config s2) = deref s' (config s')
        ∧ elementSdk_config s2 = config s2
        ∧ onConfigChangeCb s2 = None
        ∧ trace s2 = [].
Proof.
  intros s' Hne.
  destruct (cfg_step_reconfigured c s) as (cb & o & [Hc _ _ _ Hst _ _ _]).
  fold s' in Hc, Hst. rewrite Hc in Hne.
  assert (stored_config (page (localStorage s')) = Some o) as Hstored.
  { unfold stored_config.
    assert (getItem CFG_KEY (page (localStorage s')) = Some (JSON_stringify (json_of_obj o)))
      as -> by exact Hst.
    destruct (String.eqb_spec (JSON_stringify (json_of_obj o)) "") as [?|_]; [done|].
    rewrite JSON_parse_stringify_obj. apply obj_of_json_of_obj. }
  destruct (elementSdk.start (page (localStorage s'))) as [s2|] eqn:Hstart.
  - destruct (element_start_spec _ _ Hstart) as (o' & Hst' & Hd & He & _ & Hcb & _ & Htr).
    rewrite Hstored in Hst'. injection Hst' as <-.
    exists s2. rewrite Hc. split_and!; done.
  - exfalso. unfold elementSdk.start, new_object in Hstart. cbv zeta in Hstart.
    set (p1 := set_onConfigChangeCb None _) in Hstart.
    assert (stored_config p1 = Some o) as Hp1 by exact Hstored.
    unfold elementSdk.loadCfg in Hstart. unfold stored_config in Hp1.
    destruct (JSON_parse _) as [j|]; [|done].
    rewrite Hp1 in Hstart. done.
Qed.
End more_element_laws.

(** ** Friendship queries *)

Lemma between_sym a b f : between a b f ↔ between b a f.
Proof. unfold between. tauto. Qed.

Lemma areFriends_true a b s :
  areFriends a b s = true ↔
  ∃ f, f ∈ getFriendships s ∧ accepted (deref s f) ∧ between a b (deref s f).
Proof.
  unfold areFriends. rewrite bool_decide_eq_true, Exists_exists. naive_solver.
Qed.

(** Both friendship queries ignore who asked whom: they give the same
    answer for a pair in either order. *)
Theorem friendship_queries_symmetric (a b : option value) (s : state) :
  areFriends a b s = areFriends b a s
  ∧ getFriendshipStatus a b s = getFriendshipStatus b a s.
Proof.
  split.
  - unfold areFriends. apply bool_decide_ext.
    rewrite !Exists_exists. setoid_rewrite (between_sym a b). done.
  - unfold getFriendshipStatus.
    assert (list_find (λ f, between a b (deref s f)) (getFriendships s)
            = list_find (λ f, between b a (deref s f)) (getFriendships s)) as ->; [|done].
    apply list_find_ext. intros f. apply between_sym.
Qed.

(** The friends list and the friendship test agree: a user record is
    listed by [getUserFriends] for an identifier exactly when [areFriends]
    holds between that identifier and the record's own. *)
Theorem getUserFriends_agrees_with_areFriends (a : option value) (u : loc) (s : state) :
  u ∈ getUserFriends a s ↔
  u ∈ getUsers s ∧ areFriends a (deref s u !! "id") s = true.
Proof.
  unfold getUserFriends. rewrite list_elem_of_filter, areFriends_true, list_elem_of_fmap.
  split.
  - intros [(f & Hid & Hfil) Hu].
    apply list_elem_of_filter in Hfil as [[Hacc Hside] Hf]. split; [done|].
    exists f. split; [done|]. split; [done|]. unfold between. rewrite Hid.
    destruct (decide (deref s f !! "requesterId" = a)) as [Hreq|Hreq].
    + by left.
    + right. destruct Hside as [?|?]; done.
  - intros [Hu (f & Hf & Hacc & Hbetween)]. split; [|done].
    exists f. split.
    + destruct (decide (deref s f !! "requesterId" = a)) as [Hreq|Hreq].
      * destruct Hbetween as [[_ ?]|[Hb Ha]]; [done|]. congruence.
      * destruct Hbetween as [[? _]|[? _]]; done.
    + apply list_elem_of_filter. split; [|done]. split; [done|].
      destruct Hbetween as [[? _]|[_ ?]]; [by left|by right].
Qed.

(** A status of 'accepted' means friends. The converse needs the pair to
    have a single friendship record, since the status is read off the first
    record between the two and the test looks at all of them. *)
Theorem accepted_status_means_friends (a b : option value) (s : state) :
  (getFriendshipStatus a b s = Some (VStr "accepted") → areFriends a b s = true)
  ∧ ((∀ i j f g, getFriendships s !! i = Some f → getFriendships s !! j = Some g →
                 between a b (deref s f) → between a b (deref s g) → i = j) →
     areFriends a b s = true → getFriendshipStatus a b s = Some (VStr "accepted")).
Proof.
  unfold getFriendshipStatus. split.
  - destruct (list_find _ _) as [[i f]|] eqn:Hfind; [|done].
    apply list_find_Some in Hfind as (Hi & Hb & _). intros Hst.
    apply areFriends_true. exists f. split; [|done].
    by eapply list_elem_of_lookup_2.
  - intros Hone (g & Hg & Hacc & Hb)%areFriends_true.
    apply list_elem_of_lookup_1 in Hg as [j Hj].
    destruct (list_find _ _) as [[i f]|] eqn:Hfind.
    + apply list_find_Some in Hfind as (Hi & Hbf & _).
      assert (i = j) as -> by eauto. by simplify_eq.
    + apply list_find_None in Hfind. rewrite Forall_forall in Hfind.
      exfalso. eapply Hfind; [|done]. by eapply list_elem_of_lookup_2.
Qed.

(** ** The UI over the store *)

Lemma ui_ok_frame s s' :
  arrays s' = arrays s → data s' = data s → subscribers s' = subscribers s →
  allData s' = allData s → objects s' = objects s → ui_ok s → ui_ok s'.
Proof.
  intros Ha Hd Hs Hall Ho [[Hdata Hrec] Hh Hel].
  split; [split|..].
  - by rewrite Hd, Ha.
  - unfold elems. rewrite Hd, Ha, Ho. exact Hrec.
  - by rewrite Hs.
  - unfold elems. by rewrite Hall, Hd, Ha.
Qed.

Lemma ui_ok_emit e s : ui_ok s → ui_ok (emit e s).
Proof. by apply ui_ok_frame. Qed.


Lemma ui_ok_in_data s l : ui_ok s → l ∈ elems s (allData s) → l ∈ elems s (data s).
Proof. intros [_ _ Hel]. by rewrite Hel. Qed.

Lemma ui_ok_records s : ui_ok s → records s (allData s) = collection s.
Proof. intros [_ _ Hel]. unfold collection, records. by rewrite Hel. Qed.

Section ui_facts.
Context `{JSON} `{!JSONLaws}.

Lemma synced_frame s s' :
  localStorage s' = localStorage s → arrays s' = arrays s → data s' = data s →
  objects s' = objects s → synced s → synced s'.
Proof.
  unfold synced, persisted, getItem, collection, records, elems, deref.
  by intros -> -> -> ->.
Qed.

Lemma ui_after_commit snaps m s' :
  store_ok m → DataHandler ∈ subscribers m → committed snaps m s' →
  ui_ok s' ∧ synced s' ∧ elems s' (data s') = elems m (data m).
Proof.
  intros Hok Hdh C. pose proof Hok as [Hm _].
  split_and!.
  - split.
    + by eapply store_ok_after_commit.
    + by rewrite (cm_subscribers _ _ _ C).
    + pose proof (cm_allData _ _ _ C) as Hall. rewrite decide_True in Hall by done.
      destruct (committed_snapshot _ _ _ _ C Hall) as [-> _].
      by rewrite (committed_elems _ _ _ Hm C).
  - by eapply synced_after_commit.
  - by apply (committed_elems snaps).
Qed.

(** [dataSdk.create({ ... })] with an object literal, on the UI's page. *)
Lemma create_literal_spec lit s :
  ui_ok s →
  let l := fresh (dom (objects s)) in
  let s' := (dataSdk.create l (set_objects <[l := lit]> s)).2 in
  (dataSdk.create l (set_objects <[l := lit]> s)).1 = Result true (Some l) None
  ∧ ui_ok s' ∧ synced s'
  ∧ elems s' (data s') = elems s (data s) ++ [l]
  ∧ (l ∉ elems s (data s))
  ∧ objects s' = <[l := lit]> (objects s)
  ∧ currentUser s' = currentUser s
  ∧ ∃ snaps,
      events_since s s'
      = SetItem STORAGE_KEY (JSON_stringify (json_of_collection (collection s')))
          :: zip_with DataChanged (observers (subscribers s)) snaps
      ∧ length snaps = length (observers (subscribers s)).
Proof.
  intros [[Hdata Hrec] Hh Hel] l s'.
  assert (l ∉ dom (objects s)) as Hl by apply is_fresh.
  set (s0 := set_objects <[l := lit]> s) in *.
  unfold s'. rewrite create_eq. cbn [fst snd].
  set (m := pushed l s0).
  assert (elems m (data m) = elems s (data s) ++ [l]) as Helm.
  { unfold m, pushed, elems at 1. simpl. by rewrite lookup_insert_eq. }
  assert (store_ok m) as Hok.
  { split.
    - unfold m, pushed. simpl. rewrite dom_insert_L. set_solver.
    - rewrite Helm. intros x [Hx| ->%list_elem_of_singleton]%elem_of_app.
      + unfold m. simpl. rewrite dom_insert_L. set_solver.
      + unfold m. simpl. rewrite dom_insert_L. set_solver. }
  destruct (notify_save_committed m (proj1 Hok)) as [snaps C].
  destruct (ui_after_commit _ _ _ Hok Hh C) as (Hui & Hsync & Hel').
  destruct (committed_broadcast _ _ _ (proj1 Hok) C) as (Hev & Hlen & _).
  split_and!; try done.
  - by rewrite Hel'.
  - intros Hin. by apply Hl, Hrec.
  - by rewrite (cm_objects _ _ _ C).
  - by rewrite (cm_currentUser _ _ _ C).
  - exists snaps. split; [exact Hev|exact Hlen].
Qed.

(** [record.field = ...; dataSdk.update(record)] on a record the UI
    holds: the record is in the store, so the update goes through. *)
Lemma modify_update_spec recipe recipe' s :
  ui_ok s → recipe ∈ elems s (allData s) →
  recipe' !! "id" = deref s recipe !! "id" →
  let s0 := set_objects <[recipe := recipe']> s in
  let s' := (dataSdk.update recipe s0).2 in
  ∃ k, dataSdk.findIndex recipe s = Some k
       ∧ (dataSdk.update recipe s0).1 = Result true None None
       ∧ ui_ok s' ∧ synced s'
       ∧ elems s' (data s') = <[k := recipe]> (elems s (data s))
       ∧ objects s' = <[recipe := recipe']> (objects s)
       ∧ currentUser s' = currentUser s
       ∧ ∃ snaps,
           events_since s s'
           = SetItem STORAGE_KEY (JSON_stringify (json_of_collection (collection s')))
               :: zip_with DataChanged (observers (subscribers s)) snaps
           ∧ length snaps = length (observers (subscribers s)).
Proof.
  intros Hui Hin Hid s0 s'. pose proof Hui as [[Hdata Hrec] Hh Hel].
  rewrite Hel in Hin.
  assert (∀ l, deref s0 l !! "id" = deref s l !! "id") as Hids.
  { intros l. unfold deref, s0. simpl.
    destruct (decide (l = recipe)) as [->|Hl].
    - rewrite lookup_insert_eq. simpl. exact Hid.
    - by rewrite lookup_insert_ne. }
  assert (dataSdk.findIndex recipe s0 = dataSdk.findIndex recipe s) as Hfi.
  { unfold dataSdk.findIndex. f_equal. apply list_find_ext.
    intros x. unfold same_id. by rewrite !Hids. }
  destruct (dataSdk.findIndex recipe s) as [k|] eqn:Hk.
  2: { exfalso. apply (proj1 (findIndex_None _ _) Hk (deref s recipe)); [|done].
       apply list_elem_of_fmap. by exists recipe. }
  exists k. split; [done|].
  unfold s'. rewrite (update_eq _ _ _ Hfi). cbn [fst snd].
  set (m := replaced k recipe s0).
  assert (elems m (data m) = <[k := recipe]> (elems s (data s))) as Helm.
  { unfold m, replaced, elems at 1. simpl. by rewrite lookup_insert_eq. }
  assert (∀ x, x ∈ dom (objects s) → x ∈ dom (objects m)) as Hmono.
  { intros x Hx. unfold m. simpl. rewrite dom_insert_L. set_solver. }
  assert (store_ok m) as Hok.
  { split.
    - unfold m, replaced. simpl. rewrite dom_insert_L. set_solver.
    - rewrite Helm. intros x [i Hx]%list_elem_of_lookup_1.
      apply list_lookup_insert_Some in Hx as [(_ & <- & _)|[_ Hx]].
      + by apply Hmono, Hrec.
      + apply Hmono, Hrec. by eapply list_elem_of_lookup_2. }
  destruct (notify_save_committed m (proj1 Hok)) as [snaps C].
  destruct (ui_after_commit _ _ _ Hok Hh C) as (Hui' & Hsync & Hel').
  destruct (committed_broadcast _ _ _ (proj1 Hok) C) as (Hev & Hlen & _).
  split_and!; try done.
  - by rewrite Hel'.
  - by rewrite (cm_objects _ _ _ C).
  - by rewrite (cm_currentUser _ _ _ C).
  - exists snaps. split; [exact Hev|exact Hlen].
Qed.

(** [dataSdk.delete(id)] on the UI's page. *)
Lemma ui_delete_spec id s :
  ui_ok s →
  let s' := (dataSdk.delete id s).2 in
  ui_ok s' ∧ synced s'
  ∧ elems s' (data s') = filter (λ x, deref s x !! "id" ≠ id) (elems s (data s))
  ∧ objects s' = objects s
  ∧ currentUser s' = currentUser s
  ∧ isOk (dataSdk.delete id s).1
    = negb (length (elems s' (data s')) =? length (elems s (data s)))%nat
  ∧ ∃ snaps,
      events_since s s'
      = SetItem STORAGE_KEY (JSON_stringify (json_of_collection (collection s')))
          :: zip_with DataChanged (observers (subscribers s)) snaps
      ∧ length snaps = length (observers (subscribers s)).
Proof.
  intros [[Hdata Hrec] Hh Hel] s'. unfold s'. rewrite delete_eq. cbn [fst snd isOk].
  set (m := filtered id s).
  assert (elems m (data m) = filter (λ x, deref s x !! "id" ≠ id) (elems s (data s)))
    as Helm.
  { unfold m, filtered, elems at 1. simpl. by rewrite lookup_insert_eq. }
  assert (store_ok m) as Hok.
  { split.
    - unfold m, filtered. simpl. rewrite dom_insert_L. set_solver.
    - rewrite Helm. intros x [_ Hx]%list_elem_of_filter. by apply Hrec. }
  destruct (notify_save_committed m (proj1 Hok)) as [snaps C].
  destruct (ui_after_commit _ _ _ Hok Hh C) as (Hui' & Hsync & Hel').
  destruct (committed_broadcast _ _ _ (proj1 Hok) C) as (Hev & Hlen & _).
  split_and!; try done.
  - by rewrite Hel'.
  - by rewrite (cm_objects _ _ _ C).
  - by rewrite (cm_currentUser _ _ _ C).
  - rewrite Hel', Helm. unfold collection, records. rewrite Helm.
    by rewrite !length_fmap.
  - exists snaps. split; [exact Hev|exact Hlen].
Qed.
End ui_facts.

(** ** The form handlers *)

Lemma filter_ext_elem {A} (P Q : A → Prop) `{!∀ x, Decision (P x)} `{!∀ x, Decision (Q x)}
    (l : list A) :
  (∀ x, x ∈ l → P x ↔ Q x) → filter P l = filter Q l.
Proof.
  induction l as [|x l IH]; intros Hext; [done|].
  rewrite !filter_cons, IH by (intros y Hy; apply Hext; by right).
  destruct (decide (P x)) as [Hp|Hp], (decide (Q x)) as [Hq|Hq]; try done.
  - exfalso. apply Hq, Hext; [by left|done].
  - exfalso. apply Hp, Hext; [by left|done].
Qed.

Lemma filter_none {A} (P : A → Prop) `{!∀ x, Decision (P x)} (l : list A) :
  (∀ x, x ∈ l → ¬ P x) → filter P l = [].
Proof.
  induction l as [|x l IH]; intros Hnone; [done|].
  rewrite filter_cons_False by (apply Hnone; by left).
  apply IH. intros y Hy. apply Hnone. by right.
Qed.

Lemma list_find_ext_elem {A} (P Q : A → Prop) `{!∀ x, Decision (P x)}
    `{!∀ x, Decision (Q x)} (l : list A) :
  (∀ x, x ∈ l → P x ↔ Q x) → list_find P l = list_find Q l.
Proof.
  induction l as [|x l IH]; intros Hext; [done|]. simpl.
  rewrite IH by (intros y Hy; apply Hext; by right).
  destruct (decide (P x)) as [Hp|Hp], (decide (Q x)) as [Hq|Hq]; try done.
  - exfalso. apply Hq, Hext; [by left|done].
  - exfalso. apply Hp, Hext; [by left|done].
Qed.

(** The first match of a list whose old part has none is the new last
    element. *)
Lemma list_find_snoc {A} (P : A → Prop) `{!∀ x, Decision (P x)} (l : list A) (x : A) :
  (∀ y, y ∈ l → ¬ P y) →
  list_find P (l ++ [x]) = if decide (P x) then Some (length l, x) else None.
Proof.
  intros Hnone. destruct (decide (P x)) as [Hx|Hx].
  - apply list_find_Some. split_and!.
    + by rewrite lookup_app_r, Nat.sub_diag by lia.
    + done.
    + intros j y Hy Hj. rewrite lookup_app_l in Hy by done.
      apply Hnone. by eapply list_elem_of_lookup_2.
  - apply list_find_None, Forall_app. split.
    + by apply Forall_forall.
    + by constructor.
Qed.

Lemma with_field_lookup k v (o : obj) : o !! k = None → with_field k v o !! k = v.
Proof. intros Hk. destruct v as [v|]; simpl; [by rewrite lookup_insert_eq|done]. Qed.

Lemma with_field_lookup_ne k k' v (o : obj) : k ≠ k' → with_field k v o !! k' = o !! k'.
Proof. intros Hk. destruct v as [v|]; simpl; [by rewrite lookup_insert_ne|done]. Qed.

(** Records the UI sees after a literal was created: the old ones as they
    were, then the new one. *)
Lemma deref_after_insert s s' l lit x :
  objects s' = <[l := lit]> (objects s) → x ∈ dom (objects s) → l ∉ dom (objects s) →
  deref s' x = deref s x.
Proof.
  intros Ho Hx Hl. unfold deref. rewrite Ho, lookup_insert_ne; [done|]. by intros ->.
Qed.

Lemma deref_inserted s s' l lit :
  objects s' = <[l := lit]> (objects s) → deref s' l = lit.
Proof. intros Ho. unfold deref. by rewrite Ho, lookup_insert_eq. Qed.

Lemma events_since_emit s s1 e x evs :
  events_since s s1 = x :: evs → events_since s (emit e s1) = x :: evs ++ [e].
Proof.
  unfold events_since. simpl. intros Hev.
  destruct (decide (length (trace s) ≤ length (trace s1))%nat) as [|Hgt].
  - by rewrite drop_app_le, Hev.
  - rewrite drop_ge in Hev by lia. done.
Qed.

Lemma events_since_emit_only s e : events_since s (emit e s) = [e].
Proof. unfold events_since. simpl. by rewrite drop_app_length. Qed.

Section register_facts.
Context `{JSON}.

(** A taken username stops the registration before the store is
    touched: nothing is created, written or notified, only the notice is
    shown. *)
Theorem register_rejects_taken_username (id now fullName username password : string)
    (s : state) (u : loc) :
  u ∈ getUsers s →
  deref s u !! "username" = Some (VStr username) →
  let s' := register id now fullName username password s in
  events_since s s' = [ShowToast "El nombre de usuario ya existe"]
  ∧ collection s' = collection s
  ∧ localStorage s' = localStorage s
  ∧ objects s' = objects s
  ∧ currentUser s' = currentUser s.
Proof.
  intros Hu Hname s'. unfold s', register.
  rewrite bool_decide_eq_true_2.
  2: { apply Exists_exists. by exists u. }
  split_and!; try done. apply events_since_emit_only.
Qed.
End register_facts.

Section handler_facts.
Context `{JSON} `{!JSONLaws}.

Lemma register_spec id now fullName username password s :
  ui_ok s →
  (∀ u, u ∈ getUsers s → deref s u !! "username" ≠ Some (VStr username)) →
  let l := fresh (dom (objects s)) in
  let lit : obj := {[ "id" := VStr id; "type" := VStr "user";
                      "username" := VStr username; "password" := VStr password;
                      "fullName" := VStr fullName;
                      "bio" := VStr "Amante de la cocina 👨‍🍳";
                      "profilePhoto" := VStr ""; "timestamp" := VStr now ]} in
  let s' := register id now fullName username password s in
  ui_ok s' ∧ synced s'
  ∧ elems s' (data s') = elems s (data s) ++ [l]
  ∧ (l ∉ dom (objects s))
  ∧ objects s' = <[l := lit]> (objects s)
  ∧ currentUser s' = currentUser s
  ∧ ∃ snaps,
      events_since s s'
      = SetItem STORAGE_KEY (JSON_stringify (json_of_collection (collection s')))
          :: zip_with DataChanged (observers (subscribers s)) snaps
          ++ [ShowToast "¡Cuenta creada! Ahora puedes iniciar sesión"].
Proof.
  intros Hui Hfree l lit s'.
  destruct (create_literal_spec lit s Hui) as (Hr & Hui' & Hsync & Hel & _ & Ho & Hcu & snaps & Hev & _).
  fold l in Hr, Hui', Hsync, Hel, Ho, Hcu, Hev.
  assert (s' = emit (ShowToast "¡Cuenta creada! Ahora puedes iniciar sesión")
                    (dataSdk.create l (set_objects <[l := lit]> s)).2) as ->.
  { unfold s', register. rewrite bool_decide_eq_false_2.
    2: { intros (u & Hu & Hname)%Exists_exists. by eapply Hfree. }
    unfold new_object. fold l. fold lit.
    destruct (dataSdk.create l _) as [r s1] eqn:Hc. simpl in Hr. by rewrite Hr. }
  set (s1 := (dataSdk.create l _).2) in *.
  split_and!.
  - by apply ui_ok_emit.
  - by apply (synced_frame s1).
  - done.
  - apply is_fresh.
  - done.
  - done.
  - exists snaps. by apply events_since_emit.
Qed.
End handler_facts.

Section login_facts.
Context `{JSON} `{!JSONLaws}.

(** Registering a free username creates exactly one user record with the
    submitted credentials at the end of the collection and saves it; logging
    in with those credentials right after makes that record the current
    user, and a different password is refused and leaves the session as it
    was. *)
Theorem register_then_login (id now fullName username password : string) (s : state) :
  ui_ok s →
  (∀ u, u ∈ getUsers s → deref s u !! "username" ≠ Some (VStr username)) →
  let s1 := register id now fullName username password s in
  ∃ user,
    getUsers s1 = getUsers s ++ [user]
    ∧ deref s1 user !! "id" = Some (VStr id)
    ∧ deref s1 user !! "username" = Some (VStr username)
    ∧ deref s1 user !! "password" = Some (VStr password)
    ∧ collection s1 = collection s ++ [deref s1 user]
    ∧ persisted s1 = Some (collection s1)
    ∧ currentUser (login username password s1) = Some user
    ∧ events_since s1 (login username password s1) = [ShowToast "¡Bienvenido de nuevo!"]
    ∧ (∀ wrong, wrong ≠ password →
         currentUser (login username wrong s1) = currentUser s
         ∧ events_since s1 (login username wrong s1)
           = [ShowToast "Usuario o contraseña incorrectos"]).
Proof.
  intros Hui Hfree s1.
  destruct (register_spec id now fullName username password s Hui Hfree)
    as (Hui1 & Hsync & Hel & Hl & Ho & Hcu & _).
  fold s1 in Hui1, Hsync, Hel, Ho, Hcu.
  set (l := fresh (dom (objects s))) in *.
  set (lit := ({[ "id" := VStr id; "type" := _; "username" := _; "password" := _;
                  "fullName" := _; "bio" := _; "profilePhoto" := _;
                  "timestamp" := _ ]} : obj)) in *.
  pose proof Hui as [[_ Hrec] _ Hall].
  pose proof Hui1 as [_ _ Hall1].
  assert (deref s1 l = lit) as Hlit by (by eapply deref_inserted).
  assert (∀ x, x ∈ elems s (data s) → deref s1 x = deref s x) as Hold.
  { intros x Hx. eapply deref_after_insert; [done| |done]. by apply Hrec. }
  assert (elems s1 (allData s1) = elems s (allData s) ++ [l]) as Hall'.
  { by rewrite Hall1, Hel, Hall. }
  assert (getUsers s1 = getUsers s ++ [l]) as Husers.
  { unfold getUsers. rewrite Hall', filter_app. f_equal.
    - apply filter_ext_elem. intros x Hx. rewrite Hold; [done|]. by rewrite <- Hall.
    - rewrite filter_cons_True; [done|]. by rewrite Hlit. }
  assert (∀ pw y, y ∈ elems s (allData s) →
            ¬ (deref s1 y !! "type" = Some (VStr "user")
               ∧ deref s1 y !! "username" = Some (VStr username)
               ∧ deref s1 y !! "password" = Some (VStr pw))) as Hnone.
  { intros pw y Hy (Hty & Hname & _). rewrite Hold in Hty, Hname by (by rewrite <- Hall).
    apply (Hfree y); [|done]. unfold getUsers. by apply list_elem_of_filter. }
  exists l. split_and!.
  - done.
  - by rewrite Hlit.
  - by rewrite Hlit.
  - by rewrite Hlit.
  - unfold collection, records. rewrite Hel, fmap_app. f_equal.
    apply list_fmap_ext. intros i x Hx%list_elem_of_lookup_2. by apply Hold.
  - exact Hsync.
  - unfold login. rewrite Hall', (list_find_snoc _ _ _ (Hnone password)).
    rewrite decide_True; [done|]. by rewrite Hlit.
  - unfold login. rewrite Hall', (list_find_snoc _ _ _ (Hnone password)).
    rewrite decide_True by (by rewrite Hlit).
    unfold events_since. simpl. by rewrite drop_app_length.
  - intros wrong Hwrong. unfold login.
    rewrite Hall', (list_find_snoc _ _ _ (Hnone wrong)).
    rewrite decide_False.
    2: { rewrite Hlit. intros (_ & _ & Hpw). apply Hwrong.
         unfold lit in Hpw. by simplify_map_eq. }
    split; [done|]. apply events_since_emit_only.
Qed.
End login_facts.

Section friend_request_refusal.
Context `{JSON}.

(** A pair that already has a friendship record, in either direction and
    whatever its status, gets no second one: the request only shows the
    notice, and the store, the storage and the session stay as they
    were. *)
Theorem sendFriendRequest_refuses_existing (id now receiverId : string) (s : state)
    (user f : loc) :
  currentUser s = Some user →
  f ∈ getFriendships s →
  between (deref s user !! "id") (Some (VStr receiverId)) (deref s f) →
  ∃ s', sendFriendRequest id now receiverId s = Some s'
        ∧ events_since s s' = [ShowToast "Ya existe una solicitud con este usuario"]
        ∧ collection s' = collection s
        ∧ getFriendships s' = getFriendships s
        ∧ localStorage s' = localStorage s
        ∧ currentUser s' = currentUser s.
Proof.
  intros Huser Hf Hb. unfold sendFriendRequest. rewrite Huser. simpl.
  destruct (list_find _ (getFriendships s)) as [[i g]|] eqn:Hfind.
  - eexists. split; [done|]. split_and!; try done. apply events_since_emit_only.
  - apply list_find_None in Hfind. rewrite Forall_forall in Hfind.
    by destruct (Hfind f Hf).
Qed.
End friend_request_refusal.

Section friend_request_facts.
Context `{JSON} `{!JSONLaws}.

(** A request between two identifiers that no friendship record connects
    yet creates one accepted friendship, saved at the end of the collection.
    From then on the two are friends, the status between them is
    'accepted', and the new record is the only friendship between them. *)
Theorem sendFriendRequest_makes_friends (id now receiverId : string) (s : state)
    (user : loc) :
  ui_ok s →
  currentUser s = Some user →
  let me := deref s user !! "id" in
  let other := Some (VStr receiverId) in
  (∀ f, f ∈ getFriendships s → ¬ between me other (deref s f)) →
  ∃ s' f,
    sendFriendRequest id now receiverId s = Some s'
    ∧ getFriendships s' = getFriendships s ++ [f]
    ∧ collection s' = collection s ++ [deref s' f]
    ∧ deref s' f !! "requesterId" = me
    ∧ deref s' f !! "receiverId" = other
    ∧ deref s' f !! "status" = Some (VStr "accepted")
    ∧ areFriends me other s' = true
    ∧ getFriendshipStatus me other s' = Some (VStr "accepted")
    ∧ filter (λ g, between me other (deref s' g)) (getFriendships s') = [f]
    ∧ persisted s' = Some (collection s')
    ∧ currentUser s' = Some user
    ∧ last (trace s') = Some (ShowToast "¡Ahora son amigos!").
Proof.
  intros Hui Huser me other Hnone.
  set (l := fresh (dom (objects s))).
  set (lit := with_field "requesterId" me
                ({[ "id" := VStr id; "type" := VStr "friendship";
                    "receiverId" := VStr receiverId;
                    "status" := VStr "accepted"; "timestamp" := VStr now ]} : obj)).
  destruct (create_literal_spec lit s Hui)
    as (Hr & Hui1 & Hsync & Hel & _ & Ho & Hcu & _).
  fold l in Hr, Hui1, Hsync, Hel, Ho, Hcu.
  set (s1 := (dataSdk.create l (set_objects <[l := lit]> s)).2) in *.
  assert (sendFriendRequest id now receiverId s
          = Some (emit (ShowToast "¡Ahora son amigos!") s1)) as Hrun.
  { unfold sendFriendRequest. rewrite Huser. simpl. fold me.
    destruct (list_find _ (getFriendships s)) as [[i g]|] eqn:Hfind.
    { apply list_find_Some in Hfind as (Hg%list_elem_of_lookup_2 & Hb & _).
      by destruct (Hnone g Hg). }
    reflexivity. }
  set (s' := emit (ShowToast "¡Ahora son amigos!") s1).
  pose proof Hui as [[_ Hrec] _ Hall].
  pose proof Hui1 as [_ _ Hall1].
  assert (lit !! "type" = Some (VStr "friendship")) as Hty.
  { unfold lit. rewrite with_field_lookup_ne by done. by simplify_map_eq. }
  assert (lit !! "requesterId" = me) as Hreq.
  { unfold lit. apply with_field_lookup. by simplify_map_eq. }
  assert (lit !! "receiverId" = other) as Hrcv.
  { unfold lit. rewrite with_field_lookup_ne by done. by simplify_map_eq. }
  assert (lit !! "status" = Some (VStr "accepted")) as Hst.
  { unfold lit. rewrite with_field_lookup_ne by done. by simplify_map_eq. }
  assert (deref s' l = lit) as Hlit by (by eapply (deref_inserted s)).
  assert (∀ x, x ∈ elems s (data s) → deref s' x = deref s x) as Hold.
  { intros x Hx. eapply (deref_after_insert s); [done| |apply is_fresh]. by apply Hrec. }
  assert (elems s' (allData s') = elems s (allData s) ++ [l]) as Hall'.
  { change (elems s' (allData s')) with (elems s1 (allData s1)).
    by rewrite Hall1, Hel, Hall. }
  assert (getFriendships s' = getFriendships s ++ [l]) as Hfs.
  { unfold getFriendships. rewrite Hall', filter_app. f_equal.
    - apply filter_ext_elem. intros x Hx. rewrite Hold; [done|]. by rewrite <- Hall.
    - rewrite filter_cons_True; [done|]. by rewrite Hlit. }
  assert (∀ g, g ∈ getFriendships s → deref s' g = deref s g) as Holdf.
  { intros g [_ Hg]%list_elem_of_filter. apply Hold. by rewrite <- Hall. }
  assert (between me other (deref s' l)) as Hbl.
  { rewrite Hlit. by left. }
  assert (∀ g, g ∈ getFriendships s → ¬ between me other (deref s' g)) as Hnone'.
  { intros g Hg. rewrite Holdf by done. by apply Hnone. }
  exists s', l. split_and!.
  - done.
  - done.
  - change (collection s') with (collection s1).
    unfold collection, records. rewrite Hel, fmap_app. f_equal.
    apply list_fmap_ext. intros i x Hx%list_elem_of_lookup_2. by apply Hold.
  - by rewrite Hlit.
  - by rewrite Hlit.
  - by rewrite Hlit.
  - apply areFriends_true. exists l. split_and!.
    + rewrite Hfs. set_solver.
    + unfold accepted. by rewrite Hlit.
    + done.
  - unfold getFriendshipStatus. rewrite Hfs, (list_find_snoc _ _ _ Hnone').
    rewrite decide_True by done. by rewrite Hlit.
  - rewrite Hfs, filter_app, filter_cons_True, filter_nil by done.
    by rewrite (filter_none _ _ Hnone').
  - by apply (synced_frame s1).
  - change (currentUser s') with (currentUser s1). by rewrite Hcu.
  - unfold s'. simpl. by rewrite last_snoc.
Qed.
End friend_request_facts.

Section delete_recipe_guard.
Context `{JSON}.

(** [deleteRecipe] changes the store only when the user confirmed and
    the current user's identifier is the author identifier of the first
    recipe record with the given identifier. In every other case that
    returns, the collection, the storage and the session stay as they were
    and no observer is called. *)
Theorem deleteRecipe_only_by_confirming_author (ok : bool) (recipeId : string)
    (s s' : state) :
  deleteRecipe ok recipeId s = Some s' →
  (ok = true
   ∧ ∃ i recipe user,
       list_find (λ r, deref s r !! "id" = Some (VStr recipeId)
                       ∧ deref s r !! "type" = Some (VStr "recipe"))
                 (elems s (allData s)) = Some (i, recipe)
       ∧ currentUser s = Some user
       ∧ deref s recipe !! "authorId" = deref s user !! "id")
  ∨ (collection s' = collection s
     ∧ localStorage s' = localStorage s
     ∧ objects s' = objects s
     ∧ filter is_notification (events_since s s') = []
     ∧ currentUser s' = currentUser s).
Proof.
  unfold deleteRecipe.
  destruct (list_find _ _) as [[i recipe]|] eqn:Hfind.
  - destruct (currentUser s) as [user|] eqn:Huser; [|done]. simpl.
    case_bool_decide as Hauthor.
    + intros [= <-]. right. split_and!; try done.
      by rewrite events_since_emit_only.
    + destruct ok; simpl.
      * intros _. left. split; [done|]. exists i, recipe, user.
        split_and!; [done|done|]. by destruct (decide (deref s recipe !! "authorId"
                                                     = deref s user !! "id")).
      * intros [= <-]. right. split_and!; try done.
        by rewrite events_since_refl.
  - intros [= <-]. right. split_and!; try done.
    by rewrite events_since_emit_only.
Qed.
End delete_recipe_guard.

Section delete_recipe_facts.
Context `{JSON} `{!JSONLaws}.

(** A confirmed deletion by the author removes every record that carries
    the recipe's identifier, of whatever type, and keeps all the others in
    order; the shorter collection is saved, [allData] follows, and the
    notice reports the deletion. *)
Theorem deleteRecipe_removes_every_record_with_id (recipeId : string) (s : state)
    (i : nat) (recipe user : loc) :
  ui_ok s →
  list_find (λ r, deref s r !! "id" = Some (VStr recipeId)
                  ∧ deref s r !! "type" = Some (VStr "recipe"))
            (elems s (allData s)) = Some (i, recipe) →
  currentUser s = Some user →
  deref s recipe !! "authorId" = deref s user !! "id" →
  ∃ s', deleteRecipe true recipeId s = Some s'
        ∧ collection s' = filter (λ x, x !! "id" ≠ Some (VStr recipeId)) (collection s)
        ∧ (length (collection s') < length (collection s))%nat
        ∧ records s' (allData s') = collection s'
        ∧ persisted s' = Some (collection s')
        ∧ currentUser s' = Some user
        ∧ last (trace s') = Some (ShowToast "Receta eliminada").
Proof.
  intros Hui Hfind Huser Hauthor.
  destruct (ui_delete_spec (Some (VStr recipeId)) s Hui)
    as (Hui1 & Hsync & Hel & Ho & Hcu & Hok & _).
  set (s1 := (dataSdk.delete (Some (VStr recipeId)) s).2) in *.
  pose proof Hfind as (Hi%list_elem_of_lookup_2 & [Hid _] & _)%list_find_Some.
  apply (ui_ok_in_data _ _ Hui) in Hi.
  assert (length (elems s1 (data s1)) < length (elems s (data s)))%nat as Hlt.
  { rewrite Hel. apply (length_filter_lt _ _ recipe); [done|]. by intros []. }
  assert (deleteRecipe true recipeId s
          = Some (emit (ShowToast "Receta eliminada") s1)) as Hrun.
  { unfold deleteRecipe. rewrite Hfind, Huser. cbn [mbind option_bind].
    rewrite bool_decide_eq_false_2 by (by intros []). cbn [negb].
    subst s1. destruct (dataSdk.delete _ s) as [r s2]. cbn [fst snd] in *.
    rewrite Hok. by destruct (Nat.eqb_spec (length (elems s2 (data s2)))
                                            (length (elems s (data s)))); [lia|]. }
  exists (emit (ShowToast "Receta eliminada") s1). split_and!.
  - done.
  - change (collection (emit _ s1)) with (collection s1).
    unfold collection, records. rewrite Hel, filter_fmap.
    apply list_fmap_ext. intros j x _. unfold deref. by rewrite Ho.
  - change (collection (emit _ s1)) with (collection s1).
    unfold collection, records. by rewrite !length_fmap.
  - apply ui_ok_records. by apply ui_ok_emit.
  - by apply (synced_frame s1).
  - change (currentUser (emit _ s1)) with (currentUser s1). by rewrite Hcu.
  - simpl. by rewrite last_snoc.
Qed.
End delete_recipe_facts.

Section add_comment_facts.
Context `{JSON} `{!JSONLaws}.

End add_comment_facts.

(** ** Sessions *)

Lemma ui_ok_grow s s' :
  arrays s' = arrays s → data s' = data s → subscribers s' = subscribers s →
  allData s' = allData s →
  (∀ l, l ∈ dom (objects s) → objects s' !! l = objects s !! l) →
  ui_ok s → ui_ok s'.
Proof.
  intros Ha Hd Hs Hall Ho [[Hdata Hrec] Hh Hel].
  split; [split|..].
  - by rewrite Hd, Ha.
  - unfold elems. rewrite Hd, Ha. intros l Hl. apply elem_of_dom.
    rewrite Ho by (by apply Hrec). apply elem_of_dom. by apply Hrec.
  - by rewrite Hs.
  - unfold elems. by rewrite Hall, Hd, Ha.
Qed.

Lemma store_ok_grow s s' :
  arrays s' = arrays s → data s' = data s →
  (∀ l, l ∈ dom (objects s) → objects s' !! l = objects s !! l) →
  store_ok s → store_ok s' ∧ collection s' = collection s.
Proof.
  intros Ha Hd Ho [Hdata Hrec].
  assert (elems s' (data s') = elems s (data s)) as Hel.
  { unfold elems. by rewrite Hd, Ha. }
  split; [split|].
  - by rewrite Hd, Ha.
  - rewrite Hel. intros l Hl. apply elem_of_dom.
    rewrite Ho by (by apply Hrec). apply elem_of_dom. by apply Hrec.
  - unfold collection, records. rewrite Hel. apply list_fmap_ext.
    intros i l Hl%list_elem_of_lookup_2. unfold deref. by rewrite Ho by (by apply Hrec).
Qed.

Lemma toggled_id uid recipe recipe' :
  toggled uid recipe = Some recipe' → recipe' !! "id" = recipe !! "id".
Proof.
  unfold toggled. destruct (likedByArray recipe) as [arr|]; [|done].
  destruct (likes_or_0 recipe) as [n|]; [|done]. simpl.
  case_bool_decide; intros [= <-]; by rewrite !lookup_insert_ne.
Qed.

Section session_facts.
Context `{JSON} `{!JSONLaws}.

Lemma synced_grow s s' :
  getItem STORAGE_KEY s' = getItem STORAGE_KEY s →
  arrays s' = arrays s → data s' = data s →
  (∀ l, l ∈ dom (objects s) → objects s' !! l = objects s !! l) →
  store_ok s → synced s → synced s'.
Proof.
  intros Hg Ha Hd Ho Hok Hsync.
  destruct (store_ok_grow s s' Ha Hd Ho Hok) as [_ Hcol].
  unfold synced, persisted in *. by rewrite Hg, Hcol.
Qed.

Lemma element_start_frame p s1 :
  elementSdk.start p = Some s1 →
  arrays s1 = arrays p ∧ data s1 = data p ∧ subscribers s1 = subscribers p
  ∧ localStorage s1 = localStorage p
  ∧ ∀ l, l ∈ dom (objects p) → objects s1 !! l = objects p !! l.
Proof.
  unfold elementSdk.start, new_object. cbv zeta.
  set (c := fresh (dom (objects p))).
  set (p1 := set_onConfigChangeCb None _).
  destruct (elementSdk.loadCfg p1) as [s0|] eqn:Hload; [|done].
  intros [= <-]. apply loadCfg_spec in Hload as (o & _ & ->).
  split_and!; try done. intros l Hl. simpl.
  assert (c ∉ dom (objects p)) as Hc by apply is_fresh.
  assert (l ∈ dom (objects p1)) as Hl1.
  { unfold p1. simpl. rewrite dom_insert_L. set_solver. }
  rewrite lookup_insert_ne.
  - rewrite lookup_insert_ne; [done|]. by intros <-.
  - intros <-. by apply (fresh_object_not_allocated p1).
Qed.

Lemma element_init_frame d cb s :
  let s' := (elementSdk.init d cb s).2 in
  arrays s' = arrays s ∧ data s' = data s ∧ subscribers s' = subscribers s
  ∧ allData s' = allData s ∧ currentUser s' = currentUser s
  ∧ getItem STORAGE_KEY s' = getItem STORAGE_KEY s
  ∧ ∀ l, l ∈ dom (objects s) → objects s' !! l = objects s !! l.
Proof.
  unfold elementSdk.init, elementSdk.applyChange, elementSdk.saveCfg, new_object.
  cbv zeta. destruct cb as [cb|]; simpl.
  - split_and!; try done.
    + unfold getItem. simpl. by rewrite lookup_insert_ne.
    + intros l Hl. rewrite lookup_insert_ne; [done|].
      intros <-. by apply (fresh_object_not_allocated s).
  - split_and!; try done.
    + unfold getItem. simpl. by rewrite lookup_insert_ne.
    + intros l Hl. rewrite lookup_insert_ne; [done|].
      intros <-. by apply (fresh_object_not_allocated s).
Qed.

(** [dataSdk.init(dataHandler)] puts the UI in step with the store. *)
Lemma init_dataHandler_spec s :
  store_ok s → synced s →
  let s' := (dataSdk.init (Some DataHandler) s).2 in
  ui_ok s' ∧ synced s' ∧ currentUser s' = currentUser s.
Proof.
  intros [Hdata Hrec] Hsync s'.
  destruct (init_delivered (Some DataHandler) s Hdata)
    as (snaps & D & Harr & Hd & _ & Hobj & Hls).
  fold s' in D. set (s1 := if bool_decide _ then _ else _) in *.
  assert (DataHandler ∈ subscribers s1) as Hin.
  { unfold s1. case_bool_decide; [done|]. simpl. set_solver. }
  assert (currentUser s1 = currentUser s) as Hcu.
  { unfold s1. by case_bool_decide. }
  assert (data s' ∉ snaps) as Hnot.
  { rewrite (dl_data _ _ _ _ D). intros Hx%(dl_fresh _ _ _ _ D).
    apply Hx. by rewrite Hd, Harr. }
  assert (elems s' (data s') = elems s (data s)) as Hel.
  { unfold elems. rewrite (dl_arrays _ _ _ _ D), decide_False by done.
    by rewrite (dl_data _ _ _ _ D), Hd, Harr. }
  assert (objects s' = objects s) as Ho by (by rewrite (dl_objects _ _ _ _ D)).
  split_and!.
  - split; [split|..].
    + apply elem_of_dom. rewrite (dl_arrays _ _ _ _ D), decide_False by done.
      rewrite (dl_data _ _ _ _ D), Hd, Harr. by apply elem_of_dom.
    + rewrite Hel, Ho. exact Hrec.
    + by rewrite (dl_subscribers _ _ _ _ D).
    + rewrite Hel. pose proof (dl_allData _ _ _ _ D) as Hall.
      rewrite decide_True in Hall by done.
      unfold elems at 1. rewrite (dl_arrays _ _ _ _ D), decide_True by done.
      simpl. unfold elems. by rewrite Hd, Harr.
  - unfold synced, persisted, getItem in *.
    rewrite (dl_localStorage _ _ _ _ D), Hls.
    assert (collection s' = collection s) as ->; [|done].
    unfold collection, records. rewrite Hel. apply list_fmap_ext.
    intros i l _. unfold deref. by rewrite Ho.
  - by rewrite (dl_currentUser _ _ _ _ D).
Qed.

Lemma boot_spec now storage s0 :
  boot now storage = Some s0 →
  ui_ok s0 ∧ synced s0 ∧ currentUser s0 = None
  ∧ ∃ sA, dataSdk.start now (page storage) = Some sA ∧ collection s0 = collection sA.
Proof.
  unfold boot.
  destruct (dataSdk.start now (page storage)) as [sA|] eqn:HA; [|done].
  cbn [mbind option_bind].
  destruct (elementSdk.start sA) as [sB|] eqn:HB; [|done].
  cbn [mbind option_bind]. unfold new_array.
  set (a := fresh (dom (arrays sB))).
  set (sC := set_currentUser None _). intros [= <-].
  destruct (start_spec _ _ _ HA) as [HokA HsyncA].
  destruct (element_start_frame _ _ HB) as (Ha & Hd & Hs & Hls & Ho).
  destruct (store_ok_grow sA sB Ha Hd Ho HokA) as [HokB HcolB].
  assert (synced sB) as HsyncB.
  { apply (synced_grow sA); try done. unfold getItem. by rewrite Hls. }
  assert (a ∉ dom (arrays sB)) as Hafresh by apply is_fresh.
  assert (store_ok sC ∧ synced sC ∧ collection sC = collection sB)
    as (HokC & HsyncC & HcolC).
  { destruct HokB as [HdataB HrecB].
    assert (elems sC (data sC) = elems sB (data sB)) as Hel.
    { unfold elems, sC. simpl. rewrite lookup_insert_ne; [done|]. by intros ->. }
    split; [split|split].
    - unfold sC. simpl. rewrite dom_insert_L. set_solver.
    - rewrite Hel. exact HrecB.
    - unfold synced, persisted, collection, records in *. rewrite Hel. exact HsyncB.
    - unfold collection, records. by rewrite Hel. }
  unfold initApp.
  destruct (init_dataHandler_spec sC HokC HsyncC) as (Hui1 & Hsync1 & Hcu1).
  destruct (init_spec DataHandler sC (proj1 HokC)) as (_ & _ & Hcol1 & _).
  destruct (dataSdk.init (Some DataHandler) sC) as [r s1] eqn:Hinit.
  assert (r = Result true None None) as -> by (by injection Hinit as <- _).
  cbn [fst snd isOk negb] in *.
  destruct (element_init_frame (Some defaultConfig) (Some onConfigChange) s1)
    as (Ha2 & Hd2 & Hs2 & Hall2 & Hcu2 & Hg2 & Ho2).
  destruct (store_ok_grow s1 _ Ha2 Hd2 Ho2 (ui_store _ Hui1)) as [_ Hcol2].
  split_and!.
  - by apply (ui_ok_grow s1).
  - apply (synced_grow s1); try done. apply Hui1.
  - by rewrite Hcu2, Hcu1.
  - exists sA. split; [done|]. by rewrite Hcol2, Hcol1, HcolC, HcolB.
Qed.

Lemma act_preserves a s s' :
  ui_ok s → synced s → act a s = Some s' → ui_ok s' ∧ synced s'.
Proof.
  intros Hui Hsync. destruct a as [username password|id now fullName username password
    |recipeId|now commentText recipeId|id now receiverId|ok recipeId]; simpl.
  - (* login *)
    intros [= <-]. unfold login. destruct (list_find _ _) as [[i user]|].
    + split; [by apply (ui_ok_frame s)|by apply (synced_frame s)].
    + split; [by apply ui_ok_emit|by apply (synced_frame s)].
  - (* register *)
    intros [= <-].
    destruct (decide (Exists (λ u, deref s u !! "username" = Some (VStr username))
                             (getUsers s))) as [Htaken|Hfree].
    + unfold register. rewrite bool_decide_eq_true_2 by done.
      split; [by apply ui_ok_emit|by apply (synced_frame s)].
    + destruct (register_spec id now fullName username password s Hui)
        as (? & ? & _); [|done].
      intros u Hu Hname. apply Hfree, Exists_exists. by exists u.
  - (* toggleLike *)
    unfold toggleLike.
    destruct (list_find _ _) as [[i recipe]|] eqn:Hfind; [|by intros [= <-]].
    destruct (currentUser s) as [user|]; [|done]. cbn [mbind option_bind].
    destruct (deref s user !! "id") as [[| | |uid]|]; try done.
    destruct (toggled uid (deref s recipe)) as [recipe'|] eqn:Htog; [|done].
    cbn [mbind option_bind].
    pose proof Hfind as (Hi%list_elem_of_lookup_2 & _)%list_find_Some.
    destruct (modify_update_spec recipe recipe' s Hui Hi (toggled_id _ _ _ Htog))
      as (k & _ & Hr & Hui1 & Hsync1 & _).
    destruct (dataSdk.update recipe _) as [r s1]. cbn [fst snd] in *.
    rewrite Hr. by intros [= <-].
  - (* addComment *)
    unfold addComment. destruct (String.eqb commentText ""); [by intros [= <-]|].
    destruct (list_find _ _) as [[i recipe]|] eqn:Hfind; [|by intros [= <-]].
    destruct (parsedComments (deref s recipe)) as [[| | | |comments|]|]; try done.
    cbn [mbind option_bind].
    destruct (currentUser s) as [user|]; [|done]. cbn [mbind option_bind].
    pose proof Hfind as (Hi%list_elem_of_lookup_2 & _)%list_find_Some.
    set (recipe' := <["comments" := _]> (deref s recipe)).
    destruct (modify_update_spec recipe recipe' s Hui Hi)
      as (k & _ & Hr & Hui1 & Hsync1 & _).
    { unfold recipe'. by rewrite lookup_insert_ne. }
    destruct (dataSdk.update recipe _) as [r s1]. cbn [fst snd] in *.
    rewrite Hr. by intros [= <-].
  - (* sendFriendRequest *)
    unfold sendFriendRequest.
    destruct (currentUser s) as [user|]; [|done]. cbn [mbind option_bind].
    destruct (list_find _ _) as [[i f]|].
    + intros [= <-]. split; [by apply ui_ok_emit|by apply (synced_frame s)].
    + unfold new_object.
      set (lit := with_field _ _ _).
      destruct (create_literal_spec lit s Hui) as (_ & Hui1 & Hsync1 & _).
      destruct (dataSdk.create _ _) as [r s1]. cbn [fst snd] in *.
      intros [= <-]. split; [by apply ui_ok_emit|by apply (synced_frame s1)].
  - (* deleteRecipe *)
    unfold deleteRecipe.
    destruct (list_find _ _) as [[i recipe]|].
    2: { intros [= <-]. split; [by apply ui_ok_emit|by apply (synced_frame s)]. }
    destruct (currentUser s) as [user|]; [|done]. cbn [mbind option_bind].
    case_bool_decide.
    { intros [= <-]. split; [by apply ui_ok_emit|by apply (synced_frame s)]. }
    destruct ok; cbn [negb]; [|by intros [= <-]].
    destruct (ui_delete_spec (Some (VStr recipeId)) s Hui) as (Hui1 & Hsync1 & _).
    destruct (dataSdk.delete _ s) as [r s1]. cbn [fst snd] in *.
    intros [= <-]. split; [by apply ui_ok_emit|by apply (synced_frame s1)].
Qed.

Lemma session_preserves acts s0 s :
  ui_ok s0 → synced s0 → session acts s0 = Some s → ui_ok s ∧ synced s.
Proof.
  revert s0. induction acts as [|a acts IH]; intros s0 Hui Hsync; simpl.
  - by intros [= <-].
  - destruct (act a s0) as [s1|] eqn:Hact; [|done]. cbn [mbind option_bind].
    destruct (act_preserves _ _ _ Hui Hsync Hact). by apply IH.
Qed.

(** Whatever the user does after the page has loaded, the UI and the
    storage keep up with the store: after any session of handler runs,
    [allData] holds the records of the collection, the record slot holds the
    text of the collection, and the UI's handler is still subscribed. *)
Theorem session_keeps_page_in_sync (now : string) (storage : gmap string string)
    (acts : list action) (s0 s : state) :
  boot now storage = Some s0 →
  session acts s0 = Some s →
  records s (allData s) = collection s
  ∧ persisted s = Some (collection s)
  ∧ DataHandler ∈ subscribers s
  ∧ ∀ l, l ∈ elems s (data s) → l ∈ dom (objects s).
Proof.
  intros Hboot Hrun.
  destruct (boot_spec _ _ _ Hboot) as (Hui & Hsync & _ & _).
  destruct (session_preserves _ _ _ Hui Hsync Hrun) as [Hui' Hsync'].
  split_and!.
  - by apply ui_ok_records.
  - exact Hsync'.
  - apply Hui'.
  - apply Hui'.
Qed.

(** What the user sees after a reload is what the session left: when the
    collection is not empty and its stored text is not the empty string, the
    whole script on a new page over the storage of the old one ends with
    [allData] holding exactly the records of the old collection, and with
    nobody logged in. *)
Theorem reload_shows_same_records (now now' : string) (storage : gmap string string)
    (acts : list action) (s0 s s' : state) :
  boot now storage = Some s0 →
  session acts s0 = Some s →
  collection s ≠ [] →
  getItem STORAGE_KEY s ≠ Some "" →
  boot now' (localStorage s) = Some s' →
  records s' (allData s') = collection s
  ∧ collection s' = collection s
  ∧ currentUser s' = None.
Proof.
  intros Hboot Hrun Hne Htext Hboot'.
  destruct (boot_spec _ _ _ Hboot) as (Hui0 & Hsync0 & _ & _).
  destruct (session_preserves _ _ _ Hui0 Hsync0 Hrun) as [_ Hsync].
  destruct (boot_spec _ _ _ Hboot') as (Hui' & _ & Hcu & sA & HA & Hcol).
  destruct (getItem STORAGE_KEY s) as [text|] eqn:Hget.
  2: { unfold synced, persisted in Hsync. by rewrite Hget in Hsync. }
  destruct (start_restores_collection now' text s Hget) as (sA' & HA' & HcolA & _);
    [congruence|done|done|].
  rewrite HA in HA'. injection HA' as <-.
  split_and!.
  - rewrite (ui_ok_records _ Hui'). by rewrite Hcol.
  - by rewrite Hcol.
  - done.
Qed.
End session_facts.

(** ** The liker string *)

(** Writing a list of identifiers as the liker string and reading it back
    gives the list, for identifiers the encoding can hold (non-empty, without
    a comma). Whatever the field holds, what is read is a list of such
    identifiers, so reading, writing and reading again changes nothing:
    empty entries are dropped once and for all. *)
Theorem liker_string_round_trip (recipe : obj) (l arr : list string) :
  (Forall valid_id l →
   likedByArray (<["likedBy" := VStr (join l)]> recipe) = Some l)
  ∧ (likedByArray recipe = Some arr →
     Forall valid_id arr
     ∧ likedByArray (<["likedBy" := VStr (join arr)]> recipe) = Some arr).
Proof.
  assert (∀ l', Forall valid_id l' →
            likedByArray (<["likedBy" := VStr (join l')]> recipe) = Some l') as Hwrite.
  { intros l' Hl'. unfold likedByArray. rewrite lookup_insert_eq. f_equal.
    unfold truthy. destruct (String.eqb_spec (join l') "") as [Hempty|_]; simpl.
    - destruct Hl' as [|w l' [Hw _] Hl']; [done|]. exfalso.
      destruct w as [|c w]; [done|]. destruct l'; simpl in Hempty; done.
    - by apply decode_join. }
  split; [apply Hwrite|].
  intros Harr. pose proof (likedByArray_valid _ _ Harr) as Hvalid.
  split; [done|by apply Hwrite].
Qed.

Section edit_profile_facts.
Context `{JSON} `{!JSONLaws}.

End edit_profile_facts.

(** ** Optional arguments and start-up *)

Section guards.
Context `{JSON}.

(** [init] called without a handler registers nothing, and a handler
    without an [onDataChanged] method is registered but never called;
    either way the store and the storage stay as they are and every
    registered observer gets one fresh snapshot of the collection. *)
Theorem init_without_callable_handler (h : option handler) (s : state) :
  data s ∈ dom (arrays s) →
  (∀ h', h = Some h' → has_onDataChanged h' = false) →
  let '(r, s') := dataSdk.init h s in
  r = Result true None None
  ∧ subscribers s' = match h with
                     | Some h' => if decide (h' ∈ subscribers s) then subscribers s
                                  else subscribers s ++ [h']
                     | None => subscribers s
                     end
  ∧ observers (subscribers s') = observers (subscribers s)
  ∧ collection s' = collection s
  ∧ localStorage s' = localStorage s
  ∧ ∃ snaps, events_since s s' = zip_with DataChanged (observers (subscribers s)) snaps
             ∧ length snaps = length (observers (subscribers s))
             ∧ ∀ a, a ∈ snaps → (a ∉ dom (arrays s)) ∧ records s' a = collection s.
Proof.
  intros Hdata Hinert.
  destruct (init_delivered h s Hdata) as (snaps & D & Harr & Hd & Htr & Hobj & Hls).
  set (s1 := match h with Some _ => _ | None => s end) in *.
  assert (subscribers s1 = match h with
                           | Some h' => if decide (h' ∈ subscribers s) then subscribers s
                                        else subscribers s ++ [h']
                           | None => subscribers s
                           end) as Hsub.
  { unfold s1. destruct h as [h'|]; [|done].
    case_bool_decide; by rewrite ?decide_True, ?decide_False by done. }
  assert (observers (subscribers s1) = observers (subscribers s)) as Hobs.
  { rewrite Hsub. destruct h as [h'|]; [|done]. case_decide; [done|].
    rewrite observers_app. unfold observers at 2.
    rewrite filter_cons_False, filter_nil, app_nil_r; [done|].
    rewrite (Hinert h' eq_refl). done. }
  destruct (dataSdk.init h s) as [r s'] eqn:Hinit. cbn [snd] in D.
  assert (r = Result true None None) as -> by (by injection Hinit as <- _).
  assert (∀ l, deref s' l = deref s l) as Hderef.
  { intros l. unfold deref. by rewrite (dl_objects _ _ _ _ D), Hobj. }
  assert (data s' ∉ snaps) as Hnot.
  { rewrite (dl_data _ _ _ _ D). intros Hin%(dl_fresh _ _ _ _ D).
    apply Hin. by rewrite Hd, Harr. }
  assert (elems s' (data s') = elems s (data s)) as Hel.
  { unfold elems. rewrite (dl_arrays _ _ _ _ D), decide_False by done.
    by rewrite (dl_data _ _ _ _ D), Hd, Harr. }
  split_and!.
  - done.
  - by rewrite (dl_subscribers _ _ _ _ D).
  - by rewrite (dl_subscribers _ _ _ _ D).
  - unfold collection, records. rewrite Hel. apply list_fmap_ext. by intros.
  - by rewrite (dl_localStorage _ _ _ _ D).
  - exists snaps. split_and!.
    + unfold events_since. rewrite (dl_trace _ _ _ _ D), Htr, Hobs.
      by rewrite drop_app_length.
    + rewrite <- Hobs. apply D.
    + intros a Ha. split.
      * rewrite <- Harr. by apply (dl_fresh _ _ _ _ D).
      * unfold collection, records, elems at 1.
        rewrite (dl_arrays _ _ _ _ D), decide_True by done. simpl.
        unfold elems. rewrite Hd, Harr. apply list_fmap_ext. by intros.
Qed.

(** [elementSdk.init] called without an [onConfigChange] unregisters
    the callback: the call itself and every later [setConfig] still save the
    configuration but call nobody. With no defaults either, the
    configuration keeps its contents. *)
Theorem init_without_callback_unregisters (d : option obj) (partial : obj) (s : state) :
  let s1 := (elementSdk.init d None s).2 in
  let s2 := elementSdk.setConfig partial s1 in
  onConfigChangeCb s1 = None
  ∧ events_since s s1
    = [SetItem CFG_KEY (JSON_stringify (json_of_obj (deref s1 (config s1))))]
  ∧ (d = None → deref s1 (config s1) = deref s (config s))
  ∧ events_since s1 s2
    = [SetItem CFG_KEY (JSON_stringify (json_of_obj (deref s2 (config s2))))]
  ∧ deref s2 (config s2) = partial ∪ deref s1 (config s1).
Proof.
  intros s1 s2.
  destruct (element_init_spec d None s) as [_ [Hc1 _ _ _ _ Hev1 Hcb1 _]].
  fold s1 in Hc1, Hev1, Hcb1.
  destruct (setConfig_spec partial s1) as [Hc2 _ _ _ _ Hev2 _ _].
  fold s2 in Hc2, Hev2. rewrite Hcb1 in Hev2.
  split_and!.
  - done.
  - by rewrite Hev1.
  - intros ->. rewrite Hc1. simpl. by rewrite (right_id_L ∅ (∪)).
  - by rewrite Hev2.
  - done.
Qed.
End guards.

Section boot_facts.
Context `{JSON} `{!JSONLaws}.

Lemma load_stored p s1 :
  dataSdk.load p = Some s1 → stored_collection p = Some (collection s1).
Proof.
  unfold dataSdk.load, stored_collection.
  set (text := match getItem STORAGE_KEY p with Some t => _ | None => _ end).
  destruct (JSON_parse text) as [j|].
  - destruct (collection_of_json j) as [c|]; [|done].
    pose proof (new_objects_spec c p) as Hobj.
    destruct (new_objects c p) as [ls s0]. destruct Hobj as (Hder & _).
    unfold new_array. intros [= <-]. f_equal.
    unfold collection, records, elems. simpl. rewrite lookup_insert_eq. simpl.
    by rewrite <- Hder.
  - unfold new_array. intros [= <-]. f_equal.
    unfold collection, records, elems. simpl. by rewrite lookup_insert_eq.
Qed.

Lemma start_effects now p sA :
  dataSdk.start now p = Some sA →
  let seeds := [dataSdk.u1 now; dataSdk.u2 now; dataSdk.f1 now; dataSdk.r1 now] in
  ∃ loaded,
    stored_collection p = Some loaded
    ∧ subscribers sA = []
    ∧ (∀ k, k ≠ STORAGE_KEY → getItem k sA = getItem k p)
    ∧ collection sA = (if decide (loaded = []) then seeds else loaded)
    ∧ trace sA
      = trace p ++ (if decide (loaded = [])
                    then [SetItem STORAGE_KEY (JSON_stringify (json_of_collection seeds))]
                    else []).
Proof.
  unfold dataSdk.start, new_array. cbv zeta.
  set (p1 := set_subscribers [] _).
  destruct (dataSdk.load p1) as [s1|] eqn:Hload; [|done].
  cbn [fmap option_fmap option_map]. intros [= <-].
  destruct (load_spec _ _ Hload) as (Hok & Hls1 & Htr1 & Hsub1 & _).
  exists (collection s1). split; [exact (load_stored _ _ Hload)|].
  assert (collection s1 = [] ↔ ¬ 0 < length (elems s1 (data s1))) as Hempty.
  { unfold collection, records. destruct (elems s1 (data s1)); simpl; [|split; [done|lia]].
    split; [lia|done]. }
  destruct (decide (collection s1 = [])) as [Hnil|Hne].
  - destruct (seedIfEmpty_spec now s1 Hok (or_introl Hnil)) as (_ & _ & Hseed & _).
    specialize (Hseed Hnil).
    assert (trace (dataSdk.seedIfEmpty now s1)
            = trace s1 ++ [SetItem STORAGE_KEY
                             (JSON_stringify (json_of_collection
                                (collection (dataSdk.seedIfEmpty now s1))))]
            ∧ subscribers (dataSdk.seedIfEmpty now s1) = subscribers s1
            ∧ ∀ k, k ≠ STORAGE_KEY →
                   getItem k (dataSdk.seedIfEmpty now s1) = getItem k s1)
      as (Htr & Hsub & Hget).
    { unfold dataSdk.seedIfEmpty.
      rewrite bool_decide_eq_false_2 by (by apply Hempty).
      pose proof (new_objects_spec [dataSdk.u1 now; dataSdk.u2 now;
                                    dataSdk.f1 now; dataSdk.r1 now] s1) as Hobj.
      destruct (new_objects _ s1) as [ls s2].
      destruct Hobj as (_ & _ & _ & Hls2 & _ & Htr2 & _ & Hsub2).
      split_and!.
      - simpl. by rewrite Htr2.
      - simpl. by rewrite Hsub2.
      - intros k Hk. unfold getItem. simpl.
        rewrite lookup_insert_ne by done. by rewrite Hls2. }
    split_and!.
    + by rewrite Hsub, Hsub1.
    + intros k Hk. rewrite Hget by done. unfold getItem. by rewrite Hls1.
    + done.
    + by rewrite Htr, Hseed, Htr1.
  - assert (dataSdk.seedIfEmpty now s1 = s1) as ->.
    { unfold dataSdk.seedIfEmpty. rewrite bool_decide_eq_true_2; [done|].
      destruct (decide (0 < length (elems s1 (data s1)))) as [|Hn]; [done|].
      by apply Hempty in Hn. }
    split_and!.
    + by rewrite Hsub1.
    + intros k _. unfold getItem. by rewrite Hls1.
    + done.
    + by rewrite Htr1, app_nil_r.
Qed.

Lemma element_init_trace d cb s :
  let s' := (elementSdk.init d cb s).2 in
  trace s' = trace s ++ config_events cb s'.
Proof.
  unfold elementSdk.init, elementSdk.applyChange, elementSdk.saveCfg, new_object,
    config_events.
  cbv zeta. destruct cb as [cb|]; simpl; [|done]. by rewrite <- app_assoc.
Qed.

(** The whole script on a page load. The record slot is written exactly
    when the collection read from it is empty, and then with the four demo
    records, which become the collection; a collection that is not empty
    is taken as it is and nothing is written for it. Then [dataHandler], the
    only subscriber, gets exactly one snapshot, which becomes [allData];
    then the configuration, the stored one with the defaults filling the
    keys it lacks, is written and handed once to the configuration callback.
    No notice is shown and nobody is logged in. *)
Theorem boot_runs_start_up_once (now : string) (storage : gmap string string)
    (s0 : state) :
  boot now storage = Some s0 →
  let seeds := [dataSdk.u1 now; dataSdk.u2 now; dataSdk.f1 now; dataSdk.r1 now] in
  ∃ stored loaded,
    stored_config (page storage) = Some stored
    ∧ stored_collection (page storage) = Some loaded
    ∧ collection s0 = (if decide (loaded = []) then seeds else loaded)
    ∧ trace s0
      = (if decide (loaded = [])
         then [SetItem STORAGE_KEY (JSON_stringify (json_of_collection seeds))]
         else [])
        ++ [DataChanged DataHandler (allData s0);
            SetItem CFG_KEY (JSON_stringify (json_of_obj (deref s0 (config s0))));
            ConfigChanged onConfigChange (config s0)]
    ∧ subscribers s0 = [DataHandler]
    ∧ records s0 (allData s0) = collection s0
    ∧ deref s0 (config s0) = stored ∪ defaultConfig
    ∧ currentUser s0 = None.
Proof.
  intros Hboot seeds.
  destruct (boot_spec _ _ _ Hboot) as (Hui & _ & Hcu & sA' & HA' & Hcol).
  revert Hboot. unfold boot.
  destruct (dataSdk.start now (page storage)) as [sA|] eqn:HA; [|done].
  injection HA' as <-.
  cbn [mbind option_bind].
  destruct (elementSdk.start sA) as [sB|] eqn:HB; [|done].
  cbn [mbind option_bind]. unfold new_array.
  set (a := fresh (dom (arrays sB))).
  set (sC := set_currentUser None _).
  destruct (start_effects _ _ _ HA) as (loaded & Hloaded & HsubA & HgetA & HcolA & HtrA).
  fold seeds in HcolA, HtrA.
  destruct (start_spec _ _ _ HA) as [[HdataA _] _].
  destruct (element_start_spec _ _ HB) as (stored & Hstored & HdB & _ & _ & _ & _ & HtrB).
  destruct (element_start_frame _ _ HB) as (HaB & HdataB & HsubB & _ & _).
  assert (stored_config (page storage) = Some stored) as Hstored0.
  { rewrite <- Hstored. unfold stored_config. by rewrite (HgetA CFG_KEY). }
  assert (data sC ∈ dom (arrays sC)) as HdataC.
  { unfold sC. simpl. rewrite dom_insert_L, HdataB, HaB. set_solver. }
  assert (subscribers sC = []) as HsubC by (unfold sC; simpl; congruence).
  unfold initApp.
  destruct (init_delivered (Some DataHandler) sC HdataC) as (snaps & D & _).
  cbv beta iota zeta in D.
  rewrite bool_decide_eq_false_2 in D by (rewrite HsubC; set_solver).
  set (sD := set_subscribers (subscribers sC ++ [DataHandler]) sC) in D.
  assert (subscribers sD = [DataHandler]) as HsubD.
  { unfold sD. simpl. by rewrite HsubB, HsubA. }
  assert (trace sD = trace sA) as HtrD.
  { unfold sD. simpl. by rewrite HtrB. }
  rewrite HsubD in D.
  destruct (dataSdk.init (Some DataHandler) sC) as [r s1] eqn:Hinit.
  assert (r = Result true None None) as -> by (by injection Hinit as <- _).
  cbn [fst snd isOk negb] in *.
  pose proof (element_init_trace (Some defaultConfig) (Some onConfigChange) s1) as Htr2.
  destruct (element_init_spec (Some defaultConfig) (Some onConfigChange) s1)
    as [_ [Hc2 _ _ _ _ _ _ _]].
  destruct (element_init_frame (Some defaultConfig) (Some onConfigChange) s1)
    as (_ & _ & Hs2 & Hall2 & _).
  set (s2 := (elementSdk.init _ _ s1).2) in *.
  intros [= <-].
  pose proof (dl_length _ _ _ _ D) as Hlen.
  pose proof (dl_allData _ _ _ _ D) as Hall.
  rewrite decide_True in Hall by set_solver.
  destruct snaps as [|b [|]]; [done| |done].
  apply list_elem_of_singleton in Hall.
  exists stored, loaded. split_and!.
  - done.
  - done.
  - by rewrite Hcol.
  - rewrite Htr2, (dl_trace _ _ _ _ D), HtrD, HtrA. unfold config_events. fold s2.
    rewrite Hall2, Hall. simpl. by rewrite <- !app_assoc.
  - by rewrite Hs2, (dl_subscribers _ _ _ _ D).
  - by apply ui_ok_records.
  - rewrite Hc2. simpl. f_equal. unfold deref.
    rewrite (dl_objects _ _ _ _ D), (dl_config _ _ _ _ D). exact HdB.
  - done.
Qed.
End boot_facts.

(** ** The theorems on concrete pages *)

(** Decide a closed proposition by evaluation. *)
Ltac by_evaluation :=
  match goal with
  | |- ?P => refine (bool_decide_unpack P _); vm_compute; exact I
  end.

Ltac evaluate := vm_compute; reflexivity.

Lemma update_not_found_or_replaced_witness :
  (let '(r, s') := dataSdk.update ghost.1 ghost.2 in
   r = Result false None (Some "not_found")
   ∧ length (collection s') = 4
   ∧ events_since ghost.2 s' = [])
  ∧ (let '(r, s') := dataSdk.update r1_edited.1 r1_edited.2 in
     isOk r = true
     ∧ deref r1_edited.2 r1_edited.1 ∈ collection s'
     ∧ length (collection s') = 4
     ∧ length (filter is_notification (events_since r1_edited.2 s')) = 1).
Proof.
  split.
  - pose proof (proj1 (update_not_found_or_replaced ghost.1 ghost.2)) as W.
    destruct (dataSdk.update ghost.1 ghost.2) as [r s'].
    destruct W as (Hr & Hs & Hcol & _ & Hev).
    + apply Forall_forall. by_evaluation.
    + split; [exact Hr|]. split; [|exact Hev]. rewrite Hcol. evaluate.
  - pose proof (proj2 (update_not_found_or_replaced r1_edited.1 r1_edited.2)) as W.
    destruct (dataSdk.update r1_edited.1 r1_edited.2) as [r s'].
    destruct W as (i & old & snaps & _ & _ & _ & Hr & Hcol & Hi & _ & Hev & Hlen).
    + exists (dataSdk.r1 now0). split; [|evaluate].
      apply (list_elem_of_lookup_2 _ 3). evaluate.
    + split; [rewrite Hr; reflexivity|].
      split; [exact (list_elem_of_lookup_2 _ _ _ Hi)|].
      split; [rewrite Hcol, length_insert; evaluate|].
      assert (observers (subscribers r1_edited.2) = [DataHandler]) as Hobs by evaluate.
      rewrite Hev, Hobs. rewrite Hobs in Hlen.
      destruct snaps as [|a [|]]; [discriminate Hlen| |discriminate Hlen]. reflexivity.
Defined.

Lemma mutation_broadcasts_once_witness :
  (dataSdk.r1 now0 ∈ collection first_visit
   ∧ dataSdk.r1 now0 !! "id" = r1_literal !! "id"
   ∧ ∃ snapshot,
       events_since first_visit (step (Update (Lit r1_literal)) first_visit).2
       = [SetItem STORAGE_KEY
            (JSON_stringify (json_of_collection
               (collection (step (Update (Lit r1_literal)) first_visit).2)));
          DataChanged DataHandler snapshot]
       ∧ (snapshot ∉ dom (arrays first_visit))
       ∧ records (step (Update (Lit r1_literal)) first_visit).2 snapshot
         = collection (step (Update (Lit r1_literal)) first_visit).2
       ∧ collection (step (Update (Lit r1_literal)) first_visit).2 !! 3
         = Some r1_literal)
  ∧ ∃ snapshot,
      filter is_notification
        (events_since first_visit (step (Delete (Some (VStr "u_ana"))) first_visit).2)
      = [DataChanged DataHandler snapshot]
      ∧ (snapshot ∉ dom (arrays first_visit))
      ∧ length (elems (step (Delete (Some (VStr "u_ana"))) first_visit).2 snapshot) = 3.
Proof.
  assert (observers (subscribers first_visit) = [DataHandler]) as Hobs by evaluate.
  assert (dataSdk.r1 now0 ∈ collection first_visit) as Hin.
  { apply (list_elem_of_lookup_2 _ 3). evaluate. }
  assert (dataSdk.r1 now0 !! "id" = r1_literal !! "id") as Hid by evaluate.
  split.
  - split; [exact Hin|]. split; [exact Hid|].
    destruct (mutation_broadcasts_once (Update (Lit r1_literal)) first_visit)
      as (snaps & Hev & Hlen & _ & Hsnap).
    { unfold is_mutation, eval_arg, new_object. cbv beta iota zeta.
      exists (dataSdk.r1 now0). split.
      - apply (list_elem_of_lookup_2 _ 3). evaluate.
      - evaluate. }
    rewrite Hobs in Hev, Hlen.
    destruct snaps as [|a [|]]; [discriminate Hlen| |discriminate Hlen].
    exists a. destruct (Hsnap a) as (Hfresh & _ & Hrec & _); [constructor|].
    split; [exact Hev|]. split; [exact Hfresh|]. split; [exact Hrec|]. evaluate.
  - destruct (mutation_broadcasts_once (Delete (Some (VStr "u_ana"))) first_visit I)
      as (snaps & Hev & Hlen & _ & Hsnap).
    rewrite Hobs in Hev, Hlen.
    destruct snaps as [|a [|]]; [discriminate Hlen| |discriminate Hlen].
    exists a. destruct (Hsnap a) as (Hfresh & _ & _ & Hsize & _); [constructor|].
    split; [rewrite Hev; reflexivity|]. split; [exact Hfresh|].
    rewrite Hsize. evaluate.
Defined.

Lemma persisted_collection_matches_memory_witness :
  dataSdk.start now0 (page ∅) = Some fresh_store
  ∧ calls_ok some_calls fresh_store
  ∧ persisted (run some_calls fresh_store) = Some (collection (run some_calls fresh_store))
  ∧ length (collection (run some_calls fresh_store)) = 5.
Proof.
  assert (dataSdk.start now0 (page ∅) = Some fresh_store) as Hstart by evaluate.
  assert (calls_ok some_calls fresh_store) as Hok.
  { repeat split; by_evaluation. }
  split; [exact Hstart|]. split; [exact Hok|]. split; [|evaluate].
  apply (persisted_collection_matches_memory now0 (page ∅) fresh_store some_calls Hstart Hok).
Defined.

Lemma delete_removes_all_and_reports_witness :
  let '(r, s') := dataSdk.delete (Some (VStr "nobody")) first_visit in
  isOk r = false ∧ error r = None ∧ collection s' = collection first_visit
  ∧ length (filter (is_write STORAGE_KEY) (events_since first_visit s')) = 1.
Proof.
  pose proof (delete_removes_all_and_reports (Some (VStr "nobody")) first_visit) as W.
  destruct (dataSdk.delete (Some (VStr "nobody")) first_visit) as [r s'].
  destruct W as (_ & _ & _ & (snaps & Hev & _) & Herr & _ & Hmissing & _).
  destruct Hmissing as [Hok Hcol].
  { apply Forall_forall. by_evaluation. }
  split; [exact Hok|]. split; [exact Herr|]. split; [exact Hcol|].
  rewrite Hev, filter_cons_True by reflexivity.
  rewrite filter_writes_notifications. reflexivity.
Defined.

Lemma subscribe_registers_once_and_delivers_witness :
  data emptied_store ∈ dom (arrays emptied_store)
  ∧ collection emptied_store = []
  ∧ ∃ snapshot,
      filter (to_handler late_observer)
        (events_since emptied_store
           (dataSdk.init (Some late_observer)
              (step (Create (Lit u1_demo)) emptied_store).2).2)
      = [DataChanged late_observer snapshot]
      ∧ records (dataSdk.init (Some late_observer)
                   (step (Create (Lit u1_demo)) emptied_store).2).2 snapshot
        = [u1_demo].
Proof.
  assert (data emptied_store ∈ dom (arrays emptied_store)) as Hdata by by_evaluation.
  split; [exact Hdata|]. split; [evaluate|].
  apply (proj2 (subscribe_registers_once_and_delivers late_observer emptied_store Hdata)).
  - evaluate.
  - by_evaluation.
  - reflexivity.
Defined.

Lemma preference_init_merges_persists_notifies_witness :
  elementSdk.start (page font_18_storage) = Some font_18_page
  ∧ let s2 := (elementSdk.init (Some {[ "font_size" := VNum 14; "app_title" := VStr "RecetaGram" ]})
                 (Some onConfigChange) font_18_page).2 in
    deref s2 (config s2) !! "font_size" = Some (VNum 18)
    ∧ deref s2 (config s2) !! "app_title" = Some (VStr "RecetaGram")
    ∧ events_since font_18_page s2
      = [SetItem CFG_KEY (JSON_stringify (json_of_obj (deref s2 (config s2))));
         ConfigChanged onConfigChange (config s2)].
Proof.
  assert (elementSdk.start (page font_18_storage) = Some font_18_page) as Hstart
    by evaluate.
  split; [exact Hstart|].
  destruct (preference_init_merges_persists_notifies (page font_18_storage) font_18_page
              {[ "font_size" := VNum 14; "app_title" := VStr "RecetaGram" ]}
              onConfigChange Hstart) as (stored & Hstored & W).
  assert (stored = {[ "font_size" := VNum 18 ]}) as ->.
  { apply (inj Some). rewrite <- Hstored. evaluate. }
  destruct (elementSdk.init _ _ font_18_page) as [r s2].
  destruct W as (_ & _ & Hwins & Hfills & _ & Hev & _). cbv zeta.
  split; [|split].
  - apply Hwins. reflexivity.
  - rewrite Hfills by reflexivity. reflexivity.
  - exact Hev.
Defined.

Lemma exposed_config_is_stale_witness :
  elementSdk.start (page ∅) = Some unconfigured_page
  ∧ let s := cfg_run config_calls unconfigured_page in
    deref s (elementSdk_config s) = ∅
    ∧ deref s (config s) !! "register_button_text" = Some (VStr "Join")
    ∧ register_button_label s = Some (VStr "Registrarse").
Proof.
  assert (elementSdk.start (page ∅) = Some unconfigured_page) as Hstart by evaluate.
  split; [exact Hstart|].
  destruct (exposed_config_is_stale (page ∅) unconfigured_page config_calls Hstart)
    as (_ & _ & Hsame & Hlabel & _).
  cbv zeta. split; [|split].
  - rewrite Hsame. evaluate.
  - evaluate.
  - rewrite Hlabel. evaluate.
Defined.

Lemma unusable_storage_loads_empty_then_seeds_witness :
  nothing_usable STORAGE_KEY (page broken_storage)
  ∧ (∃ s1, dataSdk.load (page broken_storage) = Some s1 ∧ collection s1 = [])
  ∧ (∃ s0, dataSdk.start now0 (page broken_storage) = Some s0
           ∧ length (collection s0) = 4).
Proof.
  assert (nothing_usable STORAGE_KEY (page broken_storage)) as Hn.
  { right. exists "not json". split; evaluate. }
  split; [exact Hn|].
  destruct (unusable_storage_loads_empty_then_seeds now0 (page broken_storage) Hn)
    as [(s1 & Hload & Hempty & _) (s0 & Hstart & Hseed & _)].
  split; [exists s1; split; assumption|].
  exists s0. split; [exact Hstart|]. rewrite Hseed. reflexivity.
Defined.

(** C8 as stated fails on the module: with text in the record slot that
    does not parse, the store that start-up leaves is not empty. *)
Lemma unusable_storage_counterexample :
  JSON_parse "not json" = None
  ∧ ∃ s0, dataSdk.start now0 (page broken_storage) = Some s0
          ∧ collection s0 = [dataSdk.u1 now0; dataSdk.u2 now0; dataSdk.f1 now0; dataSdk.r1 now0]
          ∧ collection s0 ≠ [].
Proof.
  split; [evaluate|].
  eexists. split; [evaluate|]. split; [evaluate|]. discriminate.
Qed.

Lemma toggle_like_twice_restores_witness :
  likes (deref ana_session 3) = 1%Z
  ∧ likerSet (deref ana_session 3) = {[ "u_demo" ]}
  ∧ ∃ s1 s2, toggleLike "r1" ana_session = Some s1 ∧ toggleLike "r1" s1 = Some s2
             ∧ likes (deref s1 3) = 2%Z
             ∧ likes (deref s2 3) = 1%Z
             ∧ likerSet (deref s2 3) = {[ "u_demo" ]}.
Proof.
  split; [evaluate|]. split; [evaluate|].
  destruct (toggle_like_twice_restores "r1" ana_session 3 3 1 "u_ana" ["u_demo"] 1)
    as (s1 & s2 & H1 & H2 & Hadd & _ & Hcount & Hback).
  - evaluate.
  - evaluate.
  - evaluate.
  - evaluate.
  - evaluate.
  - split; [discriminate|evaluate].
  - by_evaluation.
  - evaluate.
  - exists s1, s2. split; [exact H1|]. split; [exact H2|].
    cbv zeta in Hadd, Hcount, Hback.
    destruct Hadd as [_ Hn1]; [by_evaluation|].
    split; [rewrite Hn1; evaluate|].
    split; [rewrite Hcount; evaluate|].
    rewrite Hback. evaluate.
Defined.

(** C7 as stated fails: the like count (1) equals the size of the liker
    set ({u2}), yet after two toggles by u2 the count is 0 and the set is
    empty. *)
Lemma toggle_like_twice_counterexample :
  elems doubled_liker_session (allData doubled_liker_session) !! 1 = Some 1
  ∧ deref doubled_liker_session 1 !! "id" = Some (VStr "r9")
  ∧ deref doubled_liker_session 1 !! "likedBy" = Some (VStr "u2,u2")
  ∧ likes (deref doubled_liker_session 1)
    = Z.of_nat (size (likerSet (deref doubled_liker_session 1)))
  ∧ toggleLike "r9" doubled_liker_session = Some doubled_liker_once
  ∧ toggleLike "r9" doubled_liker_once = Some doubled_liker_twice
  ∧ likes (deref doubled_liker_session 1) = 1%Z
  ∧ likes (deref doubled_liker_twice 1) = 0%Z
  ∧ likerSet (deref doubled_liker_session 1) = {[ "u2" ]}
  ∧ likerSet (deref doubled_liker_twice 1) = ∅.
Proof. split_and!; evaluate. Qed.

Lemma toggle_like_keeps_count_equal_to_likers_witness :
  likes (deref ana_session 3) = Z.of_nat (size (likerSet (deref ana_session 3)))
  ∧ ∃ s1, toggleLike "r1" ana_session = Some s1
          ∧ likes (deref s1 3) = Z.of_nat (size (likerSet (deref s1 3)))
          ∧ collection s1 !! 3 = Some (deref s1 3)
          ∧ length (filter (is_write STORAGE_KEY) (events_since ana_session s1)) = 1.
Proof.
  assert (likes (deref ana_session 3) = Z.of_nat (size (likerSet (deref ana_session 3))))
    as Heq by evaluate.
  split; [exact Heq|].
  destruct (toggle_like_keeps_count_equal_to_likers
              "r1" ana_session 3 3 1 "u_ana" ["u_demo"] 1)
    as (s1 & Hrun & Hkeeps & _ & _ & _ & Hstore).
  - evaluate.
  - evaluate.
  - evaluate.
  - evaluate.
  - evaluate.
  - split; [discriminate|evaluate].
  - by_evaluation.
  - exact Heq.
  - exists s1. cbv zeta in Hkeeps.
    assert (dataSdk.findIndex 3 ana_session = Some 3) as Hfound by evaluate.
    rewrite Hfound in Hstore. destruct Hstore as [Hcol Hwrites].
    split; [exact Hrun|]. split; [exact Hkeeps|]. split; [exact Hcol|].
    rewrite Hwrites. reflexivity.
Defined.

(** C9 as stated fails: the like count (1) equals the number of distinct
    identifiers in the liker string "u2,u2", and after one toggle by u2 the
    count is 0 while the string still names u2. *)
Lemma toggle_like_keeps_count_counterexample :
  deref doubled_liker_session 1 !! "id" = Some (VStr "r9")
  ∧ deref doubled_liker_session 1 !! "likedBy" = Some (VStr "u2,u2")
  ∧ likes (deref doubled_liker_session 1)
    = Z.of_nat (size (likerSet (deref doubled_liker_session 1)))
  ∧ toggleLike "r9" doubled_liker_session = Some doubled_liker_once
  ∧ deref doubled_liker_once 1 !! "likedBy" = Some (VStr "u2")
  ∧ deref doubled_liker_once 1 !! "likes" = Some (VNum 0)
  ∧ likes (deref doubled_liker_once 1) = 0%Z
  ∧ size (likerSet (deref doubled_liker_once 1)) = 1
  ∧ likes (deref doubled_liker_once 1)
    ≠ Z.of_nat (size (likerSet (deref doubled_liker_once 1))).
Proof. split_and!; try evaluate. by_evaluation. Qed.

(** An identifier with a comma breaks the encoding as well: two toggles
    by the user whose identifier is a,b on a recipe nobody likes leave two
    likes. *)
Lemma toggle_like_comma_identifier :
  toggleLike "r9" comma_user_session = Some comma_user_once
  ∧ toggleLike "r9" comma_user_once = Some comma_user_twice
  ∧ likes (deref comma_user_session 1) = 0%Z
  ∧ deref comma_user_once 1 !! "likedBy" = Some (VStr "a,b")
  ∧ likerSet (deref comma_user_once 1) = {[ "a"; "b" ]}
  ∧ likes (deref comma_user_once 1) = 1%Z
  ∧ deref comma_user_twice 1 !! "likedBy" = Some (VStr "a,b,a,b")
  ∧ likes (deref comma_user_twice 1) = 2%Z.
Proof. split_and!; evaluate. Qed.

(** ** The further theorems on concrete pages *)

Lemma first_visit_booted : boot now0 ∅ = Some first_visit.
Proof. evaluate. Qed.

Lemma first_visit_ok : ui_ok first_visit ∧ synced first_visit.
Proof.
  destruct (boot_spec _ _ _ first_visit_booted) as (Hui & Hsync & _). by split.
Qed.

Lemma ana_session_ok : ui_ok ana_session ∧ synced ana_session.
Proof.
  destruct first_visit_ok as [Hui Hsync].
  apply (act_preserves (Login "ana" "ana") first_visit); [done|done|reflexivity].
Qed.

Lemma ana_with_bob_ok : ui_ok ana_with_bob.
Proof.
  destruct first_visit_ok as [Hui Hsync].
  apply (session_preserves [Register "u_bob" now0 "Bob Cook" "bob" "secret";
                            Login "ana" "ana"] first_visit); [done|done|reflexivity].
Qed.

Lemma reload_restores_collection_witness :
  dataSdk.start now0 (page ∅) = Some fresh_store
  ∧ calls_ok some_calls fresh_store
  ∧ ∃ s', dataSdk.start now0 (page (localStorage (run some_calls fresh_store))) = Some s'
          ∧ collection s' = collection (run some_calls fresh_store)
          ∧ length (collection s') = 5
          ∧ trace s' = [].
Proof.
  assert (dataSdk.start now0 (page ∅) = Some fresh_store) as Hstart by evaluate.
  assert (calls_ok some_calls fresh_store) as Hok.
  { repeat split; by_evaluation. }
  split; [exact Hstart|]. split; [exact Hok|].
  destruct (reload_restores_collection now0 now0 (page ∅) fresh_store some_calls Hstart Hok)
    as (s' & Hs' & Hcol & _ & Htr & _).
  - by_evaluation.
  - by_evaluation.
  - exists s'. split; [exact Hs'|]. split; [exact Hcol|]. split; [|exact Htr].
    rewrite Hcol. evaluate.
Defined.

Lemma reset_does_not_survive_reload_witness :
  collection first_visit ≠ []
  ∧ let '(r, s1) := dataSdk.reset first_visit in
    collection s1 = []
    ∧ ∃ s2, dataSdk.start now0 (page (localStorage s1)) = Some s2
            ∧ length (collection s2) = 4.
Proof.
  split; [by_evaluation|].
  pose proof (reset_does_not_survive_reload now0 first_visit) as W.
  destruct (dataSdk.reset first_visit) as [r s1].
  destruct W as (_ & Hempty & _ & s2 & Hs2 & Hseed & _).
  split; [exact Hempty|]. exists s2. split; [exact Hs2|]. rewrite Hseed. reflexivity.
Defined.

Lemma saved_configuration_survives_reload_witness :
  let s' := cfg_step (CfgSet {[ "font_size" := VNum 18 ]}) unconfigured_page in
  ∃ s2, elementSdk.start (page (localStorage s')) = Some s2
        ∧ deref s2 (config s2) = {[ "font_size" := VNum 18 ]}
        ∧ deref s2 (elementSdk_config s2) = {[ "font_size" := VNum 18 ]}.
Proof.
  cbv zeta.
  destruct (saved_configuration_survives_reload (CfgSet {[ "font_size" := VNum 18 ]})
              unconfigured_page) as (s2 & Hs2 & Hcfg & Hexposed & _).
  - by_evaluation.
  - exists s2. split; [exact Hs2|]. rewrite Hexposed, Hcfg. split; evaluate.
Defined.

Lemma accepted_status_means_friends_witness :
  getFriendshipStatus (Some (VStr "u_ana")) (Some (VStr "u_demo")) first_visit
  = Some (VStr "accepted")
  ∧ areFriends (Some (VStr "u_ana")) (Some (VStr "u_demo")) first_visit = true.
Proof.
  assert (getFriendshipStatus (Some (VStr "u_ana")) (Some (VStr "u_demo")) first_visit
          = Some (VStr "accepted")) as Hst by evaluate.
  split; [exact Hst|].
  exact (proj1 (accepted_status_means_friends _ _ first_visit) Hst).
Defined.

Lemma register_rejects_taken_username_witness :
  1 ∈ getUsers first_visit
  ∧ deref first_visit 1 !! "username" = Some (VStr "ana")
  ∧ collection (register "u_new" now0 "Ana Dos" "ana" "other" first_visit)
    = collection first_visit
  ∧ events_since first_visit (register "u_new" now0 "Ana Dos" "ana" "other" first_visit)
    = [ShowToast "El nombre de usuario ya existe"].
Proof.
  assert (1 ∈ getUsers first_visit) as Hu by by_evaluation.
  assert (deref first_visit 1 !! "username" = Some (VStr "ana")) as Hname by evaluate.
  split; [exact Hu|]. split; [exact Hname|].
  destruct (register_rejects_taken_username "u_new" now0 "Ana Dos" "ana" "other"
              first_visit 1 Hu Hname) as (Hev & Hcol & _).
  split; [exact Hcol|exact Hev].
Defined.

Lemma register_then_login_witness :
  ∃ user,
    getUsers bob_registered = getUsers first_visit ++ [user]
    ∧ deref bob_registered user !! "username" = Some (VStr "bob")
    ∧ length (collection bob_registered) = 5
    ∧ currentUser (login "bob" "secret" bob_registered) = Some user
    ∧ currentUser (login "bob" "guess" bob_registered) = None.
Proof.
  destruct first_visit_ok as [Hui _]. unfold bob_registered.
  destruct (register_then_login "u_bob" now0 "Bob Cook" "bob" "secret" first_visit Hui)
    as (user & Husers & _ & Hname & _ & Hcol & _ & Hlogin & _ & Hwrong).
  - apply Forall_forall. by_evaluation.
  - exists user. split; [exact Husers|]. split; [exact Hname|].
    split; [rewrite Hcol, length_app; evaluate|]. split; [exact Hlogin|].
    destruct (Hwrong "guess") as [-> _]; [discriminate|]. evaluate.
Defined.

Lemma sendFriendRequest_refuses_existing_witness :
  ∃ s', sendFriendRequest "f2" now0 "u_demo" ana_session = Some s'
        ∧ collection s' = collection ana_session
        ∧ events_since ana_session s'
          = [ShowToast "Ya existe una solicitud con este usuario"].
Proof.
  destruct (sendFriendRequest_refuses_existing "f2" now0 "u_demo" ana_session 1 2)
    as (s' & Hrun & Hev & Hcol & _).
  - evaluate.
  - by_evaluation.
  - by_evaluation.
  - exists s'. split; [exact Hrun|]. split; [exact Hcol|exact Hev].
Defined.

Lemma sendFriendRequest_makes_friends_witness :
  areFriends (Some (VStr "u_ana")) (Some (VStr "u_bob")) ana_with_bob = false
  ∧ ∃ s', sendFriendRequest "f2" now0 "u_bob" ana_with_bob = Some s'
          ∧ areFriends (Some (VStr "u_ana")) (Some (VStr "u_bob")) s' = true
          ∧ length (getFriendships s') = 2.
Proof.
  split; [evaluate|].
  assert (deref ana_with_bob 1 !! "id" = Some (VStr "u_ana")) as Hme by evaluate.
  destruct (sendFriendRequest_makes_friends "f2" now0 "u_bob" ana_with_bob 1 ana_with_bob_ok)
    as (s' & f & Hrun & Hfs & _ & _ & _ & _ & Hfriends & _).
  - evaluate.
  - apply Forall_forall. by_evaluation.
  - exists s'. split; [exact Hrun|]. rewrite Hme in Hfriends. split; [exact Hfriends|].
    rewrite Hfs, length_app. evaluate.
Defined.

Lemma deleteRecipe_only_by_confirming_author_witness :
  deleteRecipe true "r1" demo_session = Some demo_refused
  ∧ collection demo_refused = collection demo_session
  ∧ localStorage demo_refused = localStorage demo_session.
Proof.
  assert (deleteRecipe true "r1" demo_session = Some demo_refused) as Hrun by evaluate.
  split; [exact Hrun|].
  destruct (deleteRecipe_only_by_confirming_author true "r1" demo_session demo_refused Hrun)
    as [(_ & i & recipe & user & Hfind & Huser & Hauthor)|(Hcol & Hls & _)].
  - exfalso. vm_compute in Hfind. injection Hfind as <- <-.
    vm_compute in Huser. injection Huser as <-.
    vm_compute in Hauthor. discriminate Hauthor.
  - split; [exact Hcol|exact Hls].
Defined.

Lemma deleteRecipe_removes_every_record_with_id_witness :
  ∃ s', deleteRecipe true "r1" ana_session = Some s'
        ∧ length (collection s') = 3
        ∧ last (trace s') = Some (ShowToast "Receta eliminada").
Proof.
  destruct (deleteRecipe_removes_every_record_with_id "r1" ana_session 3 3 1
              (proj1 ana_session_ok))
    as (s' & Hrun & Hcol & _ & _ & _ & _ & Hlast).
  - evaluate.
  - evaluate.
  - evaluate.
  - exists s'. split; [exact Hrun|]. split; [|exact Hlast]. rewrite Hcol. evaluate.
Defined.


Lemma session_keeps_page_in_sync_witness :
  session busy_acts first_visit = Some busy_page
  ∧ records busy_page (allData busy_page) = collection busy_page
  ∧ persisted busy_page = Some (collection busy_page)
  ∧ length (collection busy_page) = 5.
Proof.
  assert (session busy_acts first_visit = Some busy_page) as Hrun by evaluate.
  split; [exact Hrun|].
  destruct (session_keeps_page_in_sync now0 ∅ busy_acts first_visit busy_page
              first_visit_booted Hrun) as (Hall & Hsync & _).
  split; [exact Hall|]. split; [exact Hsync|]. evaluate.
Defined.

Lemma reload_shows_same_records_witness :
  boot now0 (localStorage busy_page) = Some busy_reloaded
  ∧ records busy_reloaded (allData busy_reloaded) = collection busy_page
  ∧ currentUser busy_page = Some 1
  ∧ currentUser busy_reloaded = None.
Proof.
  assert (boot now0 (localStorage busy_page) = Some busy_reloaded) as Hboot by evaluate.
  split; [exact Hboot|].
  destruct (reload_shows_same_records now0 now0 ∅ busy_acts first_visit busy_page
              busy_reloaded first_visit_booted) as (Hall & _ & Hcu).
  - evaluate.
  - by_evaluation.
  - by_evaluation.
  - exact Hboot.
  - split; [exact Hall|]. split; [evaluate|exact Hcu].
Defined.

Lemma liker_string_round_trip_witness :
  likedByArray (<["likedBy" := VStr (join ["u_demo"; "u_ana"])]> (dataSdk.r1 now0))
  = Some ["u_demo"; "u_ana"]
  ∧ likedByArray (<["likedBy" := VStr "u_demo,,u_ana,"]> (dataSdk.r1 now0))
    = Some ["u_demo"; "u_ana"].
Proof.
  split.
  - apply (proj1 (liker_string_round_trip (dataSdk.r1 now0) ["u_demo"; "u_ana"] [])).
    repeat constructor; by_evaluation.
  - evaluate.
Defined.


(** Without distinct identifiers the conclusion on the other entries is
    lost: a recipe stored before the user under the user's identifier is
    where [update] puts the user's record, and the recipe is gone from the
    collection and from the storage. *)
Lemma editProfile_displaces_record_with_same_id :
  let s := shared_id_session in
  let s' := editProfile "Bea" "Pan" None s in
  ¬ unique_ids s
  ∧ currentUser s = Some 1
  ∧ (deref s <$> elems s (data s)) !! 0
    = Some {[ "id" := VStr "u2"; "type" := VStr "recipe"; "authorId" := VStr "u2";
              "recipeTitle" := VStr "Pan" ]}
  ∧ elems s (data s) = [0; 1]
  ∧ elems s' (data s') = [1; 1]
  ∧ Forall (λ x, x !! "type" = Some (VStr "user")) (collection s')
  ∧ persisted s' = Some (collection s').
Proof. cbv zeta. split_and!; try evaluate; by_evaluation. Qed.

Lemma init_without_callable_handler_witness :
  let '(r, s') := dataSdk.init (Some (Inert 3)) first_visit in
  subscribers s' = [DataHandler; Inert 3]
  ∧ collection s' = collection first_visit
  ∧ length (events_since first_visit s') = 1.
Proof.
  pose proof (init_without_callable_handler (Some (Inert 3)) first_visit) as W.
  destruct (dataSdk.init (Some (Inert 3)) first_visit) as [r s'].
  destruct W as (_ & Hsub & _ & Hcol & _ & snaps & Hev & Hlen & _).
  - by_evaluation.
  - intros h' [= <-]. reflexivity.
  - split; [rewrite Hsub; evaluate|]. split; [exact Hcol|].
    assert (observers (subscribers first_visit) = [DataHandler]) as Hobs by evaluate.
    rewrite Hobs in Hev, Hlen. rewrite Hev.
    destruct snaps as [|a [|]]; [discriminate Hlen| |discriminate Hlen]. reflexivity.
Defined.

Lemma boot_runs_start_up_once_witness :
  (boot now0 ∅ = Some first_visit
   ∧ stored_collection (page ∅) = Some []
   ∧ trace first_visit
     = [SetItem STORAGE_KEY
          (JSON_stringify (json_of_collection
             [dataSdk.u1 now0; dataSdk.u2 now0; dataSdk.f1 now0; dataSdk.r1 now0]));
        DataChanged DataHandler (allData first_visit);
        SetItem CFG_KEY (JSON_stringify (json_of_obj defaultConfig));
        ConfigChanged onConfigChange (config first_visit)]
   ∧ deref first_visit (config first_visit) = defaultConfig)
  ∧ (boot now0 doubled_liker_storage = Some returning_visit
     ∧ length (collection returning_visit) = 2
     ∧ filter (is_write STORAGE_KEY) (trace returning_visit) = []
     ∧ length (trace returning_visit) = 3).
Proof.
  split.
  - split; [exact first_visit_booted|].
    destruct (boot_runs_start_up_once now0 ∅ first_visit first_visit_booted)
      as (stored & loaded & Hstored & Hloaded & _ & Htrace & _ & _ & Hcfg & _).
    assert (stored = ∅) as ->.
    { apply (inj Some). rewrite <- Hstored. evaluate. }
    assert (loaded = []) as ->.
    { apply (inj Some). rewrite <- Hloaded. evaluate. }
    rewrite (left_id_L ∅ (∪)) in Hcfg.
    split; [exact Hloaded|]. split; [|exact Hcfg].
    rewrite Htrace, Hcfg. reflexivity.
  - assert (boot now0 doubled_liker_storage = Some returning_visit) as Hboot by evaluate.
    split; [exact Hboot|].
    destruct (boot_runs_start_up_once now0 doubled_liker_storage returning_visit Hboot)
      as (stored & loaded & _ & Hloaded & Hcol & Htrace & _).
    assert (length loaded = 2) as Hlen.
    { assert (Some (length loaded) = Some 2) as [= ->]; [|done].
      change (Some (length loaded)) with (length <$> Some loaded).
      rewrite <- Hloaded. evaluate. }
    destruct loaded as [|x loaded]; [discriminate Hlen|].
    rewrite decide_False in Hcol by discriminate.
    rewrite decide_False in Htrace by discriminate.
    split; [by rewrite Hcol|]. rewrite Htrace. split; reflexivity.
Defined.
